(** * Verification of the OmniGemini front-end against its specification

    The development embeds these pieces of the repository:

    - [Live]     : the streaming session manager of [LiveModule]
                   (connection state, playback cursor, active sources,
                   periodic video capture, teardown);
    - [Live64]   : the cursor arithmetic of [playAudio] in double precision;
    - [Chat]     : [sendChatMessage], the feature toggles and [handleSend]
                   of [ChatModule];
    - [Wav]      : [audioBufferToWav] of [AudioModule];
    - [Services] : the image, video and speech functions and their panels.

    [Live] carries times as exact rationals ([Q]), which is what the code
    computes wherever it takes a maximum or compares; the sums of the
    cursor, which the code rounds, are followed in [Live64] on IEEE-754
    binary64 values. Audio samples are rationals, exact for the Float32
    values they stand for. Integers written through a [DataView] are [Z]
    with their wrap-around written out. *)

From Stdlib Require Import ZArith QArith Qminmax Lia Lqa String List Bool SpecFloat.
From stdpp Require Import base list.
Import ListNotations.

(* ===================================================================== *)
(** * The streaming session manager ([LiveModule]) *)
(* ===================================================================== *)

Module Live.

Local Open Scope Q_scope.

(** ** Data *)

(** [useState<'disconnected' | 'connecting' | 'connected'>]. *)
Inductive Status := disconnected | connecting | connected.

Definition Status_eqb (a b : Status) : bool :=
  match a, b with
  | disconnected, disconnected | connecting, connecting | connected, connected => true
  | _, _ => false
  end.

(** A Web Audio [AudioContext]: its clock and whether [close()] was called.
    The clock of a closed context no longer advances. *)
Record AudioContext := mkCtx {
  sampleRate : Z;
  currentTime : Q;
  closed : bool
}.

(** An [AudioBufferSourceNode]: [started] holds the [when] argument of the
    call to [start], if any; [bufferDuration] is [buffer.duration]. *)
Record Source := mkSource {
  node : nat;
  started : option Q;
  bufferDuration : Q
}.

(** A [MediaStream]: one flag per track, [true] while the track is live. *)
Definition MediaStream := list bool.

(** The promise returned by [ai.live.connect], as it is settled when a
    [then] callback runs. *)
Inductive SessionPromise := Fulfilled | Rejected.

(** What [session.sendRealtimeInput] does when it is called. *)
Inductive SendOutcome := SendReturns | SendThrows.

Inductive Media :=
| Pcm (inputData : list Q)        (* createPcmBlob(inputData) *)
| Jpeg (width height : Z).        (* canvas.toDataURL('image/jpeg', 0.5) *)

(** A timer made by [setInterval] in [startVideoStreaming]. The callback is
    a closure: [ivStatus] is the value the [status] constant had in the
    render whose [startVideoStreaming] created it, [ivCtx] tells whether the
    captured 2d context is non-null. *)
Record Interval := mkInterval {
  ivId : nat;
  ivStatus : Status;
  ivCtx : bool
}.

(** Calls that leave the component. *)
Inductive Effect :=
| EStart (n : nat) (when : Q) (duration : Q)   (* source.start(when) *)
| EStop (n : nat)                              (* source.stop() *)
| ESend (m : Media)                            (* session.sendRealtimeInput *)
| ESessionClose                                (* session.close() *)
| EUnhandledRejection                          (* a promise nobody awaits rejected *)
| EUncaughtError                               (* a timer callback threw *)
| EConsoleError
| EClearInterval (id : nat).

Inductive Exn := InvalidStateError | TypeError.

Record State := mkState {
  (* React state *)
  isConnected : bool;
  status : Status;
  logs : list string;
  (* refs *)
  videoRef : bool;                                (* .current is non-null *)
  canvasRef : bool;
  inputAudioContextRef : option AudioContext;
  outputAudioContextRef : option AudioContext;
  streamRef : option MediaStream;
  sessionPromiseRef : option SessionPromise;
  nextStartTimeRef : Q;
  sourcesRef : list Source;                       (* a Set, in insertion order *)
  (* the browser *)
  audioProcessors : nat;                          (* ScriptProcessors wired up *)
  intervals : list Interval;                      (* live timers *)
  sessions : list Status;                         (* per session opened: the
                                                     [status] its callbacks
                                                     closed over *)
  fresh : nat;                                    (* next object identity *)
  effects : list Effect                           (* most recent first *)
}.

Inductive Completion :=
| Normal (s : State)
| Throw (e : Exn) (s : State).

Definition final (c : Completion) : State :=
  match c with Normal s | Throw _ s => s end.

(** ** Field updates *)

Definition setIsConnected (b : bool) (s : State) : State :=
  mkState b (status s) (logs s) (videoRef s) (canvasRef s)
    (inputAudioContextRef s) (outputAudioContextRef s) (streamRef s)
    (sessionPromiseRef s) (nextStartTimeRef s) (sourcesRef s)
    (audioProcessors s) (intervals s) (sessions s) (fresh s) (effects s).

Definition setStatus (st : Status) (s : State) : State :=
  mkState (isConnected s) st (logs s) (videoRef s) (canvasRef s)
    (inputAudioContextRef s) (outputAudioContextRef s) (streamRef s)
    (sessionPromiseRef s) (nextStartTimeRef s) (sourcesRef s)
    (audioProcessors s) (intervals s) (sessions s) (fresh s) (effects s).

Definition setLogs (l : list string) (s : State) : State :=
  mkState (isConnected s) (status s) l (videoRef s) (canvasRef s)
    (inputAudioContextRef s) (outputAudioContextRef s) (streamRef s)
    (sessionPromiseRef s) (nextStartTimeRef s) (sourcesRef s)
    (audioProcessors s) (intervals s) (sessions s) (fresh s) (effects s).

Definition setInputCtx (c : option AudioContext) (s : State) : State :=
  mkState (isConnected s) (status s) (logs s) (videoRef s) (canvasRef s)
    c (outputAudioContextRef s) (streamRef s)
    (sessionPromiseRef s) (nextStartTimeRef s) (sourcesRef s)
    (audioProcessors s) (intervals s) (sessions s) (fresh s) (effects s).

Definition setOutputCtx (c : option AudioContext) (s : State) : State :=
  mkState (isConnected s) (status s) (logs s) (videoRef s) (canvasRef s)
    (inputAudioContextRef s) c (streamRef s)
    (sessionPromiseRef s) (nextStartTimeRef s) (sourcesRef s)
    (audioProcessors s) (intervals s) (sessions s) (fresh s) (effects s).

Definition setStream (m : option MediaStream) (s : State) : State :=
  mkState (isConnected s) (status s) (logs s) (videoRef s) (canvasRef s)
    (inputAudioContextRef s) (outputAudioContextRef s) m
    (sessionPromiseRef s) (nextStartTimeRef s) (sourcesRef s)
    (audioProcessors s) (intervals s) (sessions s) (fresh s) (effects s).

Definition setSessionPromise (p : option SessionPromise) (s : State) : State :=
  mkState (isConnected s) (status s) (logs s) (videoRef s) (canvasRef s)
    (inputAudioContextRef s) (outputAudioContextRef s) (streamRef s)
    p (nextStartTimeRef s) (sourcesRef s)
    (audioProcessors s) (intervals s) (sessions s) (fresh s) (effects s).

Definition setNextStartTime (t : Q) (s : State) : State :=
  mkState (isConnected s) (status s) (logs s) (videoRef s) (canvasRef s)
    (inputAudioContextRef s) (outputAudioContextRef s) (streamRef s)
    (sessionPromiseRef s) t (sourcesRef s)
    (audioProcessors s) (intervals s) (sessions s) (fresh s) (effects s).

Definition setSources (l : list Source) (s : State) : State :=
  mkState (isConnected s) (status s) (logs s) (videoRef s) (canvasRef s)
    (inputAudioContextRef s) (outputAudioContextRef s) (streamRef s)
    (sessionPromiseRef s) (nextStartTimeRef s) l
    (audioProcessors s) (intervals s) (sessions s) (fresh s) (effects s).

Definition setAudioProcessors (n : nat) (s : State) : State :=
  mkState (isConnected s) (status s) (logs s) (videoRef s) (canvasRef s)
    (inputAudioContextRef s) (outputAudioContextRef s) (streamRef s)
    (sessionPromiseRef s) (nextStartTimeRef s) (sourcesRef s)
    n (intervals s) (sessions s) (fresh s) (effects s).

Definition setIntervals (l : list Interval) (s : State) : State :=
  mkState (isConnected s) (status s) (logs s) (videoRef s) (canvasRef s)
    (inputAudioContextRef s) (outputAudioContextRef s) (streamRef s)
    (sessionPromiseRef s) (nextStartTimeRef s) (sourcesRef s)
    (audioProcessors s) l (sessions s) (fresh s) (effects s).

Definition setSessions (l : list Status) (s : State) : State :=
  mkState (isConnected s) (status s) (logs s) (videoRef s) (canvasRef s)
    (inputAudioContextRef s) (outputAudioContextRef s) (streamRef s)
    (sessionPromiseRef s) (nextStartTimeRef s) (sourcesRef s)
    (audioProcessors s) (intervals s) l (fresh s) (effects s).

Definition setFresh (n : nat) (s : State) : State :=
  mkState (isConnected s) (status s) (logs s) (videoRef s) (canvasRef s)
    (inputAudioContextRef s) (outputAudioContextRef s) (streamRef s)
    (sessionPromiseRef s) (nextStartTimeRef s) (sourcesRef s)
    (audioProcessors s) (intervals s) (sessions s) n (effects s).

Definition emit (e : Effect) (s : State) : State :=
  mkState (isConnected s) (status s) (logs s) (videoRef s) (canvasRef s)
    (inputAudioContextRef s) (outputAudioContextRef s) (streamRef s)
    (sessionPromiseRef s) (nextStartTimeRef s) (sourcesRef s)
    (audioProcessors s) (intervals s) (sessions s) (fresh s) (e :: effects s).

Definition setEffects (l : list Effect) (s : State) : State :=
  mkState (isConnected s) (status s) (logs s) (videoRef s) (canvasRef s)
    (inputAudioContextRef s) (outputAudioContextRef s) (streamRef s)
    (sessionPromiseRef s) (nextStartTimeRef s) (sourcesRef s)
    (audioProcessors s) (intervals s) (sessions s) (fresh s) l.

(** The component as first rendered and mounted. *)
Definition init : State :=
  mkState false disconnected [] true true None None None None 0 [] 0%nat [] [] 0%nat [].

(** ** Operations *)

(** [const addLog = (msg) => setLogs(prev => [msg, ...prev].slice(0, 5))] *)
Definition addLog (msg : string) (s : State) : State :=
  setLogs (firstn 5 (msg :: logs s)) s.

(** [sessionPromiseRef.current?.then(session => session.sendRealtimeInput(..))]:
    the callback runs on the settled promise; whatever it throws rejects the
    promise [then] returned, which nobody holds. *)
Definition sendRealtimeInput (m : Media) (o : SendOutcome) (s : State) : State :=
  match sessionPromiseRef s with
  | None => s
  | Some Rejected => emit EUnhandledRejection s
  | Some Fulfilled =>
      match o with
      | SendReturns => emit (ESend m) s
      | SendThrows => emit EUnhandledRejection s
      end
  end.

(** [processor.onaudioprocess]. *)
Definition onaudioprocess (inputData : list Q) (o : SendOutcome) (s : State) : Completion :=
  Normal (sendRealtimeInput (Pcm inputData) o s).

Definition setupAudioInput (s : State) : State :=
  match inputAudioContextRef s, streamRef s with
  | Some _, Some _ => setAudioProcessors (S (audioProcessors s)) s
  | _, _ => s
  end.

Definition clearInterval (id : nat) (s : State) : State :=
  emit (EClearInterval id)
    (setIntervals (List.filter (fun iv => negb (Nat.eqb (ivId iv) id)) (intervals s)) s).

(** [startVideoStreaming], as defined by a render in which [status] was [r].
    [ctx2d] is whether [getContext('2d')] returned a context. *)
Definition startVideoStreaming (r : Status) (ctx2d : bool) (s : State) : State :=
  if negb (canvasRef s) || negb (videoRef s) then s
  else setFresh (S (fresh s))
         (setIntervals (intervals s ++ [mkInterval (fresh s) r ctx2d]) s).

(** The body of the timer callback, for a [width] x [height] video. *)
Definition videoTick (iv : Interval) (width height : Z) (o : SendOutcome) (s : State) : State :=
  if negb (ivCtx iv) || negb (videoRef s) || negb (Status_eqb (ivStatus iv) connected)
  then clearInterval (ivId iv) s
  else if canvasRef s
       then sendRealtimeInput (Jpeg width height) o s
       else emit EUncaughtError s.

(** The browser fires timer [id]; a cleared timer never fires. *)
Definition tick (id : nat) (width height : Z) (o : SendOutcome) (s : State) : State :=
  match find (fun iv => Nat.eqb (ivId iv) id) (intervals s) with
  | Some iv => videoTick iv width height o s
  | None => s
  end.

(** [playAudio] up to its [await]: the guard and the [Math.max]. [None] is
    the early return. *)
Definition playAudio_begin (s : State) : option State :=
  match outputAudioContextRef s with
  | None => None
  | Some ctx => Some (setNextStartTime (Qmax (nextStartTimeRef s) (currentTime ctx)) s)
  end.

(** [playAudio] after its [await], with the decoded buffer's duration:
    create the source, start it at the cursor, advance the cursor, track the
    source. The function is [async]: what it throws rejects its promise. *)
Definition playAudio_resume (duration : Q) (s : State) : State :=
  match outputAudioContextRef s with
  | None => emit EUnhandledRejection s
  | Some _ =>
      let source := mkSource (fresh s) (Some (nextStartTimeRef s)) duration in
      let s1 := emit (EStart (fresh s) (nextStartTimeRef s) duration) (setFresh (S (fresh s)) s) in
      let s2 := setNextStartTime (nextStartTimeRef s1 + duration) s1 in
      if existsb (fun x => Nat.eqb (node x) (node source)) (sourcesRef s2)
      then s2
      else setSources (sourcesRef s2 ++ [source]) s2
  end.

(** [playAudio] when nothing runs between its two halves. [decoded] is the
    duration of the buffer [decodeAudioData] resolves to, [None] when the
    decoding (or [atob]) rejects. *)
Definition playAudio (decoded : option Q) (s : State) : State :=
  match playAudio_begin s with
  | None => s
  | Some s1 =>
      match decoded with
      | None => emit EUnhandledRejection s1
      | Some d => playAudio_resume d s1
      end
  end.

(** [source.onended = () => sourcesRef.current.delete(source)] *)
Definition onended (n : nat) (s : State) : State :=
  setSources (List.filter (fun x => negb (Nat.eqb (node x) n)) (sourcesRef s)) s.

(** [sourcesRef.current.forEach(s => s.stop())]: [stop] throws
    [InvalidStateError] on a source that was never started, which ends the
    iteration. *)
Fixpoint stopEach (l : list Source) (s : State) : Completion :=
  match l with
  | [] => Normal s
  | src :: rest =>
      match started src with
      | None => Throw InvalidStateError s
      | Some _ => stopEach rest (emit (EStop (node src)) s)
      end
  end.

Definition stopAudioPlayback (s : State) : Completion :=
  match stopEach (sourcesRef s) s with
  | Normal s1 => Normal (setNextStartTime 0 (setSources [] s1))
  | Throw e s1 => Throw e s1
  end.

(** [ctx.close()] returns a promise, rejected when the context is already
    closed; nobody awaits it. *)
Definition closeCtx (c : AudioContext) : AudioContext :=
  mkCtx (sampleRate c) (currentTime c) true.

Definition closeInput (s : State) : State :=
  match inputAudioContextRef s with
  | None => s
  | Some c =>
      let s1 := setInputCtx (Some (closeCtx c)) s in
      if closed c then emit EUnhandledRejection s1 else s1
  end.

Definition closeOutput (s : State) : State :=
  match outputAudioContextRef s with
  | None => s
  | Some c =>
      let s1 := setOutputCtx (Some (closeCtx c)) s in
      if closed c then emit EUnhandledRejection s1 else s1
  end.

Definition closeSession (s : State) : State :=
  match sessionPromiseRef s with
  | None => s
  | Some Fulfilled => emit ESessionClose s
  | Some Rejected => emit EUnhandledRejection s
  end.

Definition stopTracks (s : State) : State :=
  match streamRef s with
  | None => s
  | Some tracks => setStream (Some (map (fun _ => false) tracks)) s
  end.

Definition disconnect (s : State) : Completion :=
  let s1 := closeSession s in
  let s2 := setIsConnected false s1 in
  let s3 := setStatus disconnected s2 in
  let s4 := stopTracks s3 in
  let s5 := closeInput s4 in
  let s6 := closeOutput s5 in
  stopAudioPlayback s6.

(** The callbacks handed to [ai.live.connect]. They are closures of the
    render whose [connect] ran; [r] is that render's [status]. *)

Definition onopen (r : Status) (ctx2d : bool) (s : State) : State :=
  let s1 := addLog "Session Connected!" s in
  let s2 := setStatus connected s1 in
  let s3 := setIsConnected true s2 in
  let s4 := setupAudioInput s3 in
  startVideoStreaming r ctx2d s4.

Definition onclose (s : State) : Completion :=
  disconnect (addLog "Session Closed" s).

Definition onerror (s : State) : Completion :=
  disconnect (addLog "Session Error (check console)" (emit EConsoleError s)).

(** What [message.serverContent?.modelTurn?.parts[0]?.inlineData?.data]
    meets in a message. Only [parts] is read without [?.]: on a model turn
    that has no [parts], reading [parts[0]] throws a [TypeError]. *)
Inductive Payload :=
| NoParts                         (* a model turn without [parts] *)
| NoAudio                         (* the chain gives [undefined] or [''] *)
| Audio (decoded : option Q).     (* base64 data, and the duration of the
                                     buffer it decodes to, if it decodes *)

(** [onmessage] from its second line on, [base64Audio] having been read:
    [audio] is [None] when it is falsy. [playAudio] is called without
    [await], so it runs up to its own [await], then the rest of the handler
    runs, then [playAudio] resumes. *)
Definition onmessage_rest (audio : option (option Q)) (interrupted : bool) (s : State)
    : Completion :=
  let '(s1, pending) :=
    match audio with
    | None => (s, None)
    | Some decoded =>
        match playAudio_begin s with
        | None => (s, None)
        | Some s' => (s', Some decoded)
        end
    end in
  let c := if interrupted then stopAudioPlayback (addLog "Interrupted by user" s1)
           else Normal s1 in
  match c with
  | Throw e s2 => Throw e s2
  | Normal s2 =>
      Normal match pending with
             | None => s2
             | Some None => emit EUnhandledRejection s2
             | Some (Some d) => playAudio_resume d s2
             end
  end.

(** [onmessage]. The handler is [async]: what its first line throws rejects
    the promise it returns to the SDK, and the rest of its body is not
    run. *)
Definition onmessage (payload : Payload) (interrupted : bool) (s : State) : Completion :=
  match payload with
  | NoParts => Throw TypeError s
  | NoAudio => onmessage_rest None interrupted s
  | Audio decoded => onmessage_rest (Some decoded) interrupted s
  end.

(** [connect]: [gum] is the outcome of [getUserMedia], [sess] that of
    [ai.live.connect]; [inr message] is an exception, handled by the [catch]
    branch. The promise in [inl] is the session promise as it will settle.
    The callbacks given to [ai.live.connect] are closures of the render this
    [connect] belongs to, the one on screen when the button was clicked:
    the [status] they see is the one [connect] starts from. The function
    is taken as one step: nothing else is run while it awaits
    [getUserMedia]. *)
Definition connect (gum : MediaStream + string) (sess : SessionPromise + string)
    (s : State) : State :=
  let s1 := setStatus connecting s in
  let s2 := addLog "Initializing audio contexts..." s1 in
  let s3 := setInputCtx (Some (mkCtx 16000 0 false)) s2 in
  let s4 := setOutputCtx (Some (mkCtx 24000 0 false)) s3 in
  let catch message st := setStatus disconnected (addLog (String.append "Error: " message) st) in
  match gum with
  | inr message => catch message s4
  | inl stream =>
      let s5 := setStream (Some stream) s4 in
      let s6 := addLog "Connecting to Gemini Live..." s5 in
      match sess with
      | inr message => catch message s6
      | inl p => setSessionPromise (Some p) (setSessions (sessions s ++ [status s]) s6)
      end
  end.

(** The output clock runs on by [dt] seconds. *)
Definition advance (dt : Q) (s : State) : State :=
  match outputAudioContextRef s with
  | Some c =>
      if closed c then s
      else setOutputCtx (Some (mkCtx (sampleRate c) (currentTime c + dt) false)) s
  | None => s
  end.

(** ** Runs of the component *)

(** Everything that can happen to the mounted component. [Click] is the
    round button, which calls [disconnect] when [isConnected] and [connect]
    otherwise. *)
Inductive Event :=
| Click (gum : MediaStream + string) (sess : SessionPromise + string)
| Open (k : nat) (ctx2d : bool)          (* the k-th session opens *)
| Message (payload : Payload) (interrupted : bool)
| Close
| Error
| AudioProcess (inputData : list Q) (o : SendOutcome)
| Tick (id : nat) (width height : Z) (o : SendOutcome)
| Ended (n : nat)
| Advance (dt : Q).

Definition step (e : Event) (s : State) : State :=
  match e with
  | Click gum sess => if isConnected s then final (disconnect s) else connect gum sess s
  | Open k ctx2d =>
      match nth_error (sessions s) k with
      | Some r => onopen r ctx2d s
      | None => s
      end
  | Message payload interrupted => final (onmessage payload interrupted s)
  | Close => final (onclose s)
  | Error => final (onerror s)
  | AudioProcess inputData o => final (onaudioprocess inputData o s)
  | Tick id w h o => tick id w h o s
  | Ended n => onended n s
  | Advance dt => advance dt s
  end.

Definition run (evs : list Event) (s : State) : State :=
  fold_left (fun st e => step e st) evs s.

Definition reachable (s : State) : Prop := exists evs, run evs init = s.

(** The clock the output context shows. *)
Definition clock (s : State) : Q :=
  match outputAudioContextRef s with
  | Some c => currentTime c
  | None => 0
  end.

(** The calls to [source.start] so far, oldest first, as (when, duration). *)
Definition schedule (s : State) : list (Q * Q) :=
  rev (flat_map (fun e => match e with EStart _ w d => [(w, d)] | _ => [] end) (effects s)).

(** The end time of the segment scheduled last. *)
Definition lastEnd (s : State) : Q :=
  match flat_map (fun e => match e with EStart _ w d => [w + d] | _ => [] end) (effects s) with
  | t :: _ => t
  | [] => 0
  end.

(** The frames handed to the session so far. *)
Definition framesSent (s : State) : nat :=
  length (List.filter (fun e => match e with ESend (Jpeg _ _) => true | _ => false end) (effects s)).

(** Segments arriving one after the other, each [dt] seconds of output clock
    after the previous event, decoded to a buffer of duration [d]. *)
Fixpoint playAll (segs : list (Q * Q)) (s : State) : State :=
  match segs with
  | [] => s
  | (dt, d) :: rest => playAll rest (playAudio (Some d) (advance dt s))
  end.

(** The schedule as the specification words it: starting from a cursor and
    a clock reading, each segment starts at the larger of the cursor and the
    clock, and the cursor moves to the end of that segment. *)
Fixpoint plan (segs : list (Q * Q)) (cursor now : Q) : list (Q * Q) :=
  match segs with
  | [] => []
  | (dt, d) :: rest =>
      let start := Qmax cursor (now + dt) in
      (start, d) :: plan rest (start + d) (now + dt)
  end.

Fixpoint planCursor (segs : list (Q * Q)) (cursor now : Q) : Q :=
  match segs with
  | [] => cursor
  | (dt, d) :: rest => planCursor rest (Qmax cursor (now + dt) + d) (now + dt)
  end.

(** The calls to [stop] that one pass over the sources [l] makes. *)
Definition stops (l : list Source) : list Effect :=
  rev (map (fun src => EStop (node src)) l).

(** The state [disconnect] hands to [stopAudioPlayback]. *)
Definition beforeStop (s : State) : State :=
  closeOutput (closeInput (stopTracks
    (setStatus disconnected (setIsConnected false (closeSession s))))).

(** Every source in the set has been started. *)
Definition sourcesStarted (s : State) : Prop :=
  Forall (fun src => started src <> None) (sourcesRef s).

(** The round button offers [connect] only while the panel is not live. *)
Definition uiConsistent (s : State) : Prop :=
  isConnected s = false -> status s <> connected.

(** No callback of a session and no timer has closed over a render whose
    [status] was [connected]. *)
Definition closuresStale (s : State) : Prop :=
  Forall (fun r => r <> connected) (sessions s)
  /\ Forall (fun iv => ivStatus iv <> connected) (intervals s).

(** [s'] has the sessions, the timers and the frame count of [s]. *)
Definition quiet (s s' : State) : Prop :=
  sessions s' = sessions s /\ intervals s' = intervals s
  /\ framesSent s' = framesSent s.

(** The invariant of the playback cursor as the specification states it. *)
Definition cursorInvariant (s : State) : Prop :=
  clock s <= nextStartTimeRef s /\ lastEnd s <= nextStartTimeRef s.

(** Two states agree on everything but the log lines and the calls to
    [console.error]. *)
Definition notConsoleError (e : Effect) : bool :=
  match e with EConsoleError => false | _ => true end.

Definition sameButLogs (a b : State) : Prop :=
  isConnected a = isConnected b /\ status a = status b
  /\ videoRef a = videoRef b /\ canvasRef a = canvasRef b
  /\ inputAudioContextRef a = inputAudioContextRef b
  /\ outputAudioContextRef a = outputAudioContextRef b
  /\ streamRef a = streamRef b /\ sessionPromiseRef a = sessionPromiseRef b
  /\ nextStartTimeRef a = nextStartTimeRef b /\ sourcesRef a = sourcesRef b
  /\ audioProcessors a = audioProcessors b /\ intervals a = intervals b
  /\ sessions a = sessions b /\ fresh a = fresh b
  /\ List.filter notConsoleError (effects a) = List.filter notConsoleError (effects b).

(** A session as it stands once the user has clicked the button on the
    freshly mounted panel and the remote end has opened the session. *)
Definition liveEvents : list Event :=
  [Click (inl [true; true]) (inl Fulfilled); Open 0%nat true].

Definition liveSession : State := run liveEvents init.

(** A session with two segments playing, one second into the output
    clock. *)
Definition playingEvents : list Event :=
  liveEvents
  ++ [Advance 1; Message (Audio (Some 0.5)) false; Message (Audio (Some 0.3)) false].

Definition playingSession : State := run playingEvents init.

(** Two runs of a teardown end alike: both return or both throw the same
    exception, in states that agree on everything but the log lines. *)
Definition sameTeardown (c1 c2 : Completion) : Prop :=
  match c1, c2 with
  | Normal a, Normal b => sameButLogs a b
  | Throw e a, Throw e' b => e = e' /\ sameButLogs a b
  | _, _ => False
  end.

(** [disconnect] called [n] times in a row. *)
Fixpoint disconnects (n : nat) (s : State) : Completion :=
  match n with
  | O => Normal s
  | S k =>
      match disconnects k s with
      | Normal s1 => disconnect s1
      | Throw e s1 => Throw e s1
      end
  end.

(** ** Further observations on runs *)



(** The outside calls of a teardown before it stops the sources, most
    recent first. *)
Definition teardownCalls (s : State) : list Effect :=
  match outputAudioContextRef s with
  | Some c => if closed c then [EUnhandledRejection] else []
  | None => []
  end
  ++ match inputAudioContextRef s with
     | Some c => if closed c then [EUnhandledRejection] else []
     | None => []
     end
  ++ match sessionPromiseRef s with
     | Some Fulfilled => [ESessionClose]
     | Some Rejected => [EUnhandledRejection]
     | None => []
     end.

(** The media tracks are stopped and the audio contexts closed. *)
Definition released (s : State) : Prop :=
  match streamRef s with
  | Some tracks => Forall (fun live => live = false) tracks
  | None => True
  end
  /\ match inputAudioContextRef s with
     | Some c => closed c = true
     | None => True
     end
  /\ match outputAudioContextRef s with
     | Some c => closed c = true
     | None => True
     end.

End Live.

(* ===================================================================== *)
(** * The playback cursor in double precision *)
(* ===================================================================== *)

(** JavaScript numbers are IEEE-754 binary64 values. [Math.max] and the
    comparisons give on them what they give on the rationals [Live] carries,
    but [+=] rounds: [Live64] is [playAudio] on the numbers the code adds,
    with the operations of the standard library's [SpecFloat]. *)

Module Double.

Definition prec : Z := 53.
Definition emax : Z := 1024.

(** A JavaScript number: an IEEE-754 binary64 value. *)
Definition double := spec_float.

Definition zero : double := S754_zero false.

(** [x + y], rounded to nearest, ties to even. *)
Definition add (x y : double) : double := SFadd prec emax x y.

Definition ofZ (n : Z) : double := binary_normalize prec emax n 0 false.

(** The double a decimal literal stands for, the literal given as a
    fraction [n/d]: the double nearest to it. *)
Definition decimal (n : Z) (d : positive) : double :=
  SFdiv prec emax (ofZ n) (ofZ (Z.pos d)).

(** [Math.max(x, y)]: [NaN] when either is [NaN], and [+0] counts as larger
    than [-0]. *)
Definition max (x y : double) : double :=
  match SFcompare x y with
  | None => S754_nan
  | Some Lt => y
  | Some Gt => x
  | Some Eq => match x with S754_zero true => y | _ => x end
  end.

(** [x <= y] and [x === y]. *)
Definition leb (x y : double) : bool := SFleb x y.
Definition eqb (x y : double) : bool := SFeqb x y.

End Double.

Module Live64.

Import Double.

(** What [playAudio] computes with: the clock of the output context, if the
    context exists, the cursor, and the calls of [source.start] so far,
    oldest first, as (when, duration). The set of sources, which takes no
    part in the arithmetic, is followed in [Live]. *)
Record State := mkState {
  outputAudioContextRef : option double;     (* .current.currentTime *)
  nextStartTimeRef : double;
  schedule : list (double * double)
}.

(** [playAudio] up to its [await]: the guard and the [Math.max]. *)
Definition playAudio_begin (s : State) : option State :=
  match outputAudioContextRef s with
  | None => None
  | Some currentTime =>
      Some (mkState (Some currentTime) (max (nextStartTimeRef s) currentTime) (schedule s))
  end.

(** [playAudio] after its [await]: [source.start(cursor)], then
    [cursor += audioBuffer.duration]. *)
Definition playAudio_resume (duration : double) (s : State) : State :=
  match outputAudioContextRef s with
  | None => s
  | Some _ =>
      mkState (outputAudioContextRef s) (add (nextStartTimeRef s) duration)
              (schedule s ++ [(nextStartTimeRef s, duration)])
  end.

(** [playAudio] when nothing runs between its two halves; [decoded] is
    [None] when the decoding rejects. *)
Definition playAudio (decoded : option double) (s : State) : State :=
  match playAudio_begin s with
  | None => s
  | Some s1 =>
      match decoded with
      | None => s1
      | Some d => playAudio_resume d s1
      end
  end.

(** The output clock comes to read [t]. *)
Definition setClock (t : double) (s : State) : State :=
  match outputAudioContextRef s with
  | Some _ => mkState (Some t) (nextStartTimeRef s) (schedule s)
  | None => s
  end.

(** Segments handled one after the other with nothing in between, each
    given by what the clock reads when it arrives and the duration it
    decodes to. *)
Fixpoint playAll (segs : list (double * double)) (s : State) : State :=
  match segs with
  | [] => s
  | (t, d) :: rest => playAll rest (playAudio (Some d) (setClock t s))
  end.

(** The schedule as the specification words it: each segment starts at the
    larger of the cursor and the clock, and the cursor moves on by the
    duration. *)
Fixpoint plan (segs : list (double * double)) (cursor : double) : list (double * double) :=
  match segs with
  | [] => []
  | (t, d) :: rest =>
      let start := max cursor t in
      (start, d) :: plan rest (add start d)
  end.

Fixpoint planCursor (segs : list (double * double)) (cursor : double) : double :=
  match segs with
  | [] => cursor
  | (t, d) :: rest => planCursor rest (add (max cursor t) d)
  end.

(** Every segment arrives no later than the cursor stands. *)
Fixpoint backToBack (segs : list (double * double)) (cursor : double) : Prop :=
  match segs with
  | [] => True
  | (t, d) :: rest => leb t cursor = true /\ backToBack rest (add (max cursor t) d)
  end.

(** Each entry of a schedule starts at the sum of the start and the
    duration of the one before, compared as [===] compares. *)
Fixpoint chained (sched : list (double * double)) : Prop :=
  match sched with
  | [] => True
  | (t1, d1) :: rest =>
      match rest with
      | [] => True
      | (t2, _) :: _ => eqb t2 (add t1 d1) = true
      end /\ chained rest
  end.

(** The output context just created and the cursor as the component
    starts it. *)
Definition init : State := mkState (Some zero) zero [].

(** The segments of the specification's example: durations 0.5, 0.3 and
    0.4, all arriving while the output clock reads 0. *)
Definition exampleSegments : list (double * double) :=
  [(zero, decimal 5 10); (zero, decimal 3 10); (zero, decimal 4 10)].

End Live64.

(* ===================================================================== *)
(** * Chat: [sendChatMessage] and the feature toggles of [ChatModule] *)
(* ===================================================================== *)

Module Chat.

Local Open Scope string_scope.

(** [enum ChatModelType] with the strings it stands for. *)
Inductive ChatModelType := PRO | FLASH_SEARCH | FLASH_LITE.

Definition modelString (m : ChatModelType) : string :=
  match m with
  | PRO => "gemini-3-pro-preview"
  | FLASH_SEARCH => "gemini-3-flash-preview"
  | FLASH_LITE => "gemini-flash-lite-latest"
  end.

Definition isFlashSearch (m : ChatModelType) : bool :=
  match m with FLASH_SEARCH => true | _ => false end.

Inductive Role := user | model.

Record GroundingUrl := mkUrl { title : string; uri : string }.

(** [interface ChatMessage]; an absent optional field is [None]. *)
Record ChatMessage := mkMessage {
  role : Role;
  text : string;
  images : option (list string);
  videos : option (list string);
  isThinking : option bool;
  timestamp : Z;
  groundingUrls : option (list GroundingUrl)
}.

Inductive Part :=
| TextPart (t : string)
| InlineData (mimeType data : string).

Record Config := mkConfig {
  systemInstruction : option string;
  thinkingBudget : option Z;         (* thinkingConfig: { thinkingBudget } *)
  googleSearch : bool                (* tools: [{ googleSearch: {} }] *)
}.

Record Request := mkRequest {
  reqModel : string;
  reqParts : list Part;              (* contents: { parts } *)
  reqConfig : Config
}.

(** What the handler reads of a [GenerateContentResponse]: [response.text]
    and, per grounding chunk of the first candidate, [chunk.web]. *)
Record Response := mkResponse {
  respText : option string;
  groundingChunks : option (list (option GroundingUrl))
}.

Record ChatResult := mkResult {
  resText : string;
  resGroundingUrls : option (list GroundingUrl)
}.

(** A string used as a condition: [undefined] and the empty string are
    falsy. *)
Definition truthy (o : option string) : bool :=
  match o with
  | Some s => negb (String.eqb s "")
  | None => false
  end.

(** The argument of [ai.models.generateContent] built by [sendChatMessage].
    [history] is a parameter of the function and is carried here as such. *)
Definition buildRequest (modelType : ChatModelType) (message : string)
    (history : list ChatMessage) (images videos : list string)
    (isThinkingMode : bool) (systemInstruction : option string) : Request :=
  let config0 := mkConfig (if truthy systemInstruction then systemInstruction else None)
                          None false in
  let '(modelName, config) :=
    if isThinkingMode
    then ("gemini-3-pro-preview",
          mkConfig (Chat.systemInstruction config0) (Some 32768%Z) false)
    else if isFlashSearch modelType
         then (modelString modelType,
               mkConfig (Chat.systemInstruction config0) None true)
         else (modelString modelType, config0) in
  let parts :=
    ([TextPart message]
       ++ map (fun img => InlineData "image/jpeg" img) images
       ++ map (fun vid => InlineData "video/mp4" vid) videos)%list in
  mkRequest modelName parts config.

(** [chunks?.map(chunk => chunk.web).filter(w => w)] *)
Definition webUrls (chunks : list (option GroundingUrl)) : list GroundingUrl :=
  flat_map (fun w => match w with Some u => [u] | None => [] end) chunks.

Definition readResponse (response : Response) : ChatResult :=
  mkResult (if truthy (respText response)
            then match respText response with Some t => t | None => "" end
            else "No text response generated.")
           (option_map webUrls (groundingChunks response)).

(** [sendChatMessage] against a remote endpoint [generateContent], which
    answers a request with a response or fails with a message; the failure
    rejects the promise [sendChatMessage] returns. *)
Definition sendChatMessage (generateContent : Request -> Response + string)
    (modelType : ChatModelType) (message : string)
    (history : list ChatMessage) (images videos : list string)
    (isThinkingMode : bool) (systemInstruction : option string)
    : ChatResult + string :=
  match generateContent
          (buildRequest modelType message history images videos
                        isThinkingMode systemInstruction) with
  | inl response => inl (readResponse response)
  | inr e => inr e
  end.

(** The three settings of the chat panel. *)
Record Settings := mkSettings {
  useSearch : bool;
  useThinking : bool;
  useFast : bool
}.

(** The [onClick] handlers of the Reasoning, Search and Fast buttons. Each
    reads the flags of the current render and queues the new values. *)
Definition clickReasoning (s : Settings) : Settings :=
  let thinking' := negb (useThinking s) in
  if negb (useThinking s)
  then mkSettings false thinking' false
  else mkSettings (useSearch s) thinking' (useFast s).

Definition clickSearch (s : Settings) : Settings :=
  let search' := negb (useSearch s) in
  if negb (useSearch s)
  then mkSettings search' false false
  else mkSettings search' (useThinking s) (useFast s).

Definition clickFast (s : Settings) : Settings :=
  let fast' := negb (useFast s) in
  if negb (useFast s)
  then mkSettings false false fast'
  else mkSettings (useSearch s) (useThinking s) fast'.

Inductive Button := Reasoning | Search | Fast.

Definition click (b : Button) (s : Settings) : Settings :=
  match b with
  | Reasoning => clickReasoning s
  | Search => clickSearch s
  | Fast => clickFast s
  end.

Definition flag (b : Button) (s : Settings) : bool :=
  match b with
  | Reasoning => useThinking s
  | Search => useSearch s
  | Fast => useFast s
  end.

Definition countTrue (s : Settings) : nat :=
  (if useSearch s then 1 else 0) + (if useThinking s then 1 else 0)
  + (if useFast s then 1 else 0).

Definition atMostOne (s : Settings) : Prop := (countTrue s <= 1)%nat.

(** A series of clicks, each handled in the render the previous one led to. *)
Definition clicks (bs : list Button) (s : Settings) : Settings :=
  fold_left (fun st b => click b st) bs s.

(** The effect that runs when [mode] changes. *)
Definition onModeChange (s : Settings) : Settings :=
  mkSettings false false (useFast s).

(** ** The panel: [getModeConfig] and [handleSend] *)

(** [enum AppMode] *)
Inductive AppMode := CHAT | CODE | WRITE | LIVE | IMAGES | VIDEO | AUDIO.

Record ModeConfig := mkModeConfig {
  cfgTitle : string;
  cfgIcon : string;
  cfgPlaceholder : string;
  cfgSystemInstruction : string;
  cfgAccent : string
}.

Definition getModeConfig (mode : AppMode) : ModeConfig :=
  match mode with
  | CODE =>
      mkModeConfig "Code Studio" "code"
        "Describe a programming task or paste code to debug..."
        "You are an expert software engineer and coding assistant. Generate clean, efficient, and well-documented code in Python, JavaScript, Java, or any requested language. When explaining code, be concise but thorough."
        "blue"
  | WRITE =>
      mkModeConfig "Creative Writer" "edit_note"
        "What are we writing today? Story, email, or blog post?"
        "You are a creative writing partner. Help with story arcs, character development, drafting content, proofreading, and stylistic improvements. Be imaginative and articulate."
        "purple"
  | _ =>
      mkModeConfig "Gemini Chat" "chat_bubble"
        "Ask anything..."
        "You are a helpful and knowledgeable AI assistant."
        "blue"
  end.

(** What the handler reads of a [File]. *)
Record File := mkFile { fileName : string; fileType : string }.

Inductive FileKind := imageFile | videoFile.

(** The two [startsWith] tests on [selectedFile.type], in their order. *)
Definition fileKind (f : File) : option FileKind :=
  let k1 := if String.prefix "image/" (fileType f) then Some imageFile else None in
  if String.prefix "video/" (fileType f) then Some videoFile else k1.

(** The constants of one render that an invocation of [handleSend] closes
    over: [input], [selectedFile], the three flags, [messages], and the
    [mode] from which [config] was computed. *)
Record Render := mkRender {
  rInput : string;
  rSelectedFile : option File;
  rSettings : Settings;
  rMode : AppMode;
  rMessages : list ChatMessage
}.

(** The state of the chat module on screen and its [mode] property, with
    what it is waiting for: the calls of [sendChatMessage] not yet settled
    ([inflight]) and the invocations of [handleSend] suspended at
    [await fileToBase64] ([reading]), both oldest first. [detached] and
    [detachedReading] are the same for chat modules that have since been
    unmounted: their promises still settle, but their state updates are
    dropped. *)
Record Panel := mkPanel {
  messages : list ChatMessage;
  input : string;
  isLoading : bool;
  selectedFile : option File;
  settings : Settings;
  mode : AppMode;
  inflight : list Request;
  reading : list Render;
  detached : list Request;
  detachedReading : list Render
}.

Definition initialPanel (m : AppMode) : Panel :=
  mkPanel [] "" false None (mkSettings false false false) m [] [] [] [].

(** The constants the handlers of the render of [p] see. *)
Definition render (p : Panel) : Render :=
  mkRender (input p) (selectedFile p) (settings p) (mode p) (messages p).

(** The model [handleSend] asks for. *)
Definition chosenModel (s : Settings) : ChatModelType :=
  let m1 := if useSearch s then FLASH_SEARCH else PRO in
  if useFast s then FLASH_LITE else m1.

(** [error.message || "Something went wrong."] *)
Definition errorText (message : string) : string :=
  String.append "Error: "
    (if String.eqb message "" then "Something went wrong." else message).

(** [userMsg], from what the file block left in [base64File] and
    [fileType]; [now] is [Date.now()]. *)
Definition userMessage (r : Render) (base64File : option string)
    (fileType : option FileKind) (now : Z) : ChatMessage :=
  let attached (k : FileKind) :=
    match fileType, k, base64File with
    | Some imageFile, imageFile, Some b
    | Some videoFile, videoFile, Some b =>
        if String.eqb b "" then None else Some [b]
    | _, _, _ => None
    end in
  mkMessage user (rInput r) (attached imageFile) (attached videoFile) None now None.

(** The request [sendChatMessage] is called for. *)
Definition requestFor (r : Render) (userMsg : ChatMessage) : Request :=
  let orEmpty (o : option (list string)) :=
    match o with Some l => l | None => [] end in
  buildRequest (chosenModel (rSettings r)) (text userMsg) (rMessages r)
    (orEmpty (images userMsg)) (orEmpty (videos userMsg))
    (useThinking (rSettings r))
    (Some (cfgSystemInstruction (getModeConfig (rMode r)))).

(** [handleSend] from [const userMsg] to [await sendChatMessage]: the four
    state updates, of which [setMessages] is given a function and so acts on
    the state as it is by then, and the call, made with the constants of the
    render. *)
Definition handleSend_post (r : Render) (base64File : option string)
    (fileType : option FileKind) (now : Z) (p : Panel) : Panel :=
  let userMsg := userMessage r base64File fileType now in
  mkPanel (messages p ++ [userMsg])%list "" true None (settings p) (mode p)
          (inflight p ++ [requestFor r userMsg])%list (reading p)
          (detached p) (detachedReading p).

(** [handleSend] from the point where [fileToBase64] settles, for the
    suspended invocation number [i]: [encoded] is what the promise resolves
    to, [None] when it rejects, which the [catch] answers with
    [console.error] and [return]. *)
Definition handleSend_encoded (i : nat) (encoded : option string) (now : Z) (p : Panel)
    : Panel :=
  match reading p !! i with
  | None => p
  | Some r =>
      let p1 := mkPanel (messages p) (input p) (isLoading p) (selectedFile p) (settings p)
                        (mode p) (inflight p) (delete i (reading p))
                        (detached p) (detachedReading p) in
      match encoded, rSelectedFile r with
      | Some base64File, Some f => handleSend_post r (Some base64File) (fileKind f) now p1
      | _, _ => p1
      end
  end.

Section HandleSend.

(** [String.prototype.trim], whatever it removes. *)
Variable trim : string -> string.

(** The guard of [handleSend]. *)
Definition sendBlocked (p : Panel) : bool :=
  (String.eqb (trim (input p)) ""
   && match selectedFile p with Some _ => false | None => true end)
  || isLoading p.

(** [handleSend] from the click to its first [await]: with a file selected
    it stops at [await fileToBase64], having changed no state; without one
    it runs on to [await sendChatMessage]. *)
Definition handleSend (now : Z) (p : Panel) : Panel :=
  if sendBlocked p then p
  else
    match selectedFile p with
    | Some _ =>
        mkPanel (messages p) (input p) (isLoading p) (selectedFile p) (settings p)
                (mode p) (inflight p) (reading p ++ [render p])%list
                (detached p) (detachedReading p)
    | None => handleSend_post (render p) None None now p
    end.

(** [handleSend] up to [await sendChatMessage] when nothing else happens
    while the file is read: the click and then, if a file is selected, the
    settling of [fileToBase64]. *)
Definition handleSend_begin (encoded : option string) (now : Z) (p : Panel) : Panel :=
  if sendBlocked p then p
  else
    match selectedFile p with
    | Some _ => handleSend_encoded (length (reading p)) encoded now (handleSend now p)
    | None => handleSend now p
    end.

(** [handleSend] goes ahead: the guard lets it pass and, if a file is
    selected, its encoding succeeds. *)
Definition goesAhead (p : Panel) (encoded : option string) : Prop :=
  sendBlocked p = false /\ (selectedFile p = None \/ encoded <> None).

End HandleSend.

(** The message [handleSend] adds when [sendChatMessage] settles. *)
Definition replyMessage (reply : Response + string) (now : Z) : ChatMessage :=
  match reply with
  | inl response =>
      mkMessage model (resText (readResponse response)) None None None now
                (resGroundingUrls (readResponse response))
  | inr message => mkMessage model (errorText message) None None None now None
  end.

(** [handleSend] from the point where [sendChatMessage] settles, for
    request number [i] of those in flight. *)
Definition handleSend_finish (i : nat) (reply : Response + string) (now : Z) (p : Panel)
    : Panel :=
  match inflight p !! i with
  | None => p
  | Some _ =>
      mkPanel (messages p ++ [replyMessage reply now])%list (input p) false
              (selectedFile p) (settings p) (mode p) (delete i (inflight p))
              (reading p) (detached p) (detachedReading p)
  end.

(** The same two continuations in a module that is no longer mounted: its
    state updates do nothing, but [sendChatMessage] is still called. *)
Definition detachedEncoded (i : nat) (encoded : option string) (now : Z) (p : Panel)
    : Panel :=
  match detachedReading p !! i with
  | None => p
  | Some r =>
      let sent :=
        match encoded, rSelectedFile r with
        | Some base64File, Some f =>
            [requestFor r (userMessage r (Some base64File) (fileKind f) now)]
        | _, _ => []
        end in
      mkPanel (messages p) (input p) (isLoading p) (selectedFile p) (settings p)
              (mode p) (inflight p) (reading p)
              (detached p ++ sent)%list (delete i (detachedReading p))
  end.

Definition detachedReply (i : nat) (p : Panel) : Panel :=
  mkPanel (messages p) (input p) (isLoading p) (selectedFile p) (settings p)
          (mode p) (inflight p) (reading p)
          (delete i (detached p)) (detachedReading p).

(** [renderContent] of [App]: the module shown for each mode. *)
Inductive Screen :=
| ChatScreen (m : AppMode)
| LiveScreen
| ImageScreen
| VideoScreen
| AudioScreen.

Definition renderContent (currentMode : AppMode) : Screen :=
  match currentMode with
  | CHAT | CODE | WRITE => ChatScreen currentMode
  | LIVE => LiveScreen
  | IMAGES => ImageScreen
  | VIDEO => VideoScreen
  | AUDIO => AudioScreen
  end.

Definition showsChat (m : AppMode) : bool :=
  match renderContent m with ChatScreen _ => true | _ => false end.

Definition sameMode (a b : AppMode) : bool :=
  match a, b with
  | CHAT, CHAT | CODE, CODE | WRITE, WRITE | LIVE, LIVE
  | IMAGES, IMAGES | VIDEO, VIDEO | AUDIO, AUDIO => true
  | _, _ => false
  end.

(** The sidebar selects mode [m]. Between two modes that show the chat
    module the same component stays mounted and its effect on [mode] resets
    the conversation and two of the flags. Any other change unmounts the
    module (and mounts a fresh one if [m] shows it): what the old module was
    waiting for becomes detached. *)
Definition switchMode (m : AppMode) (p : Panel) : Panel :=
  if sameMode (mode p) m then p
  else if showsChat (mode p) && showsChat m
       then mkPanel [] (input p) (isLoading p) (selectedFile p)
                    (onModeChange (settings p)) m (inflight p) (reading p)
                    (detached p) (detachedReading p)
       else mkPanel [] "" false None (mkSettings false false false) m [] []
                    (detached p ++ inflight p)%list
                    (detachedReading p ++ reading p)%list.

Inductive PanelEvent :=
| TypeInput (t : string)
| PickFile (f : File)
| RemoveFile
| Toggle (b : Button)
| Send (now : Z)                                             (* [handleSend] is called *)
| Encoded (i : nat) (encoded : option string) (now : Z)      (* [fileToBase64] settles *)
| Reply (i : nat) (reply : Response + string) (now : Z)      (* [sendChatMessage] settles *)
| SwitchMode (m : AppMode)
| DetachedEncoded (i : nat) (encoded : option string) (now : Z)
| DetachedReply (i : nat).

Definition panelStep (trim : string -> string) (e : PanelEvent) (p : Panel) : Panel :=
  match e with
  | TypeInput t =>
      mkPanel (messages p) t (isLoading p) (selectedFile p) (settings p) (mode p)
              (inflight p) (reading p) (detached p) (detachedReading p)
  | PickFile f =>
      mkPanel (messages p) (input p) (isLoading p) (Some f) (settings p) (mode p)
              (inflight p) (reading p) (detached p) (detachedReading p)
  | RemoveFile =>
      mkPanel (messages p) (input p) (isLoading p) None (settings p) (mode p)
              (inflight p) (reading p) (detached p) (detachedReading p)
  | Toggle b =>
      mkPanel (messages p) (input p) (isLoading p) (selectedFile p)
              (click b (settings p)) (mode p)
              (inflight p) (reading p) (detached p) (detachedReading p)
  | Send now => handleSend trim now p
  | Encoded i encoded now => handleSend_encoded i encoded now p
  | Reply i reply now => handleSend_finish i reply now p
  | SwitchMode m => switchMode m p
  | DetachedEncoded i encoded now => detachedEncoded i encoded now p
  | DetachedReply i => detachedReply i p
  end.

Definition panelRun (trim : string -> string) (evs : list PanelEvent) (p : Panel) : Panel :=
  fold_left (fun st e => panelStep trim e st) evs p.

(** The panels the user can bring about, starting from a module mounted in
    some mode. *)
Definition panelReachable (trim : string -> string) (p : Panel) : Prop :=
  exists m evs, panelRun trim evs (initialPanel m) = p.

(** A panel in which a question about Rocq has been typed, with Search on. *)
Definition typedPanel : Panel :=
  mkPanel [] "What is Rocq?" false None (mkSettings true false false) CODE [] [] [] [].

(** A panel with a picture picked and nothing typed. *)
Definition picturePanel : Panel :=
  mkPanel [] "" false (Some (mkFile "cat.png" "image/png"))
          (mkSettings false false false) CHAT [] [] [] [].

(** A [trim] that removes nothing, for examples. *)
Definition noTrim (t : string) : string := t.

End Chat.

(* ===================================================================== *)
(** * [audioBufferToWav] of [AudioModule] *)
(* ===================================================================== *)

Module Wav.

Local Open Scope Z_scope.

(** A JavaScript number as a sample can be: a finite value (every value of
    a [Float32Array] is a rational), an infinity or NaN. On such values the
    clamp, the comparison and the two products of the loop are exact in
    double precision, so exact rational arithmetic computes what the code
    computes. *)
Inductive Number := NaN | PosInf | NegInf | Fin (q : Q).

(** [Math.min(1, x)] *)
Definition min1 (x : Number) : Number :=
  match x with
  | NaN => NaN
  | PosInf => Fin 1
  | NegInf => NegInf
  | Fin q => Fin (Qmin 1 q)
  end.

(** [Math.max(-1, x)] *)
Definition maxNeg1 (x : Number) : Number :=
  match x with
  | NaN => NaN
  | PosInf => PosInf
  | NegInf => Fin (-1)
  | Fin q => Fin (Qmax (-1) q)
  end.

(** [Math.max(-1, Math.min(1, x))] *)
Definition clamp (x : Number) : Number := maxNeg1 (min1 x).

(** Rounding towards zero. *)
Definition truncate (q : Q) : Z := Z.quot (Qnum q) (Zpos (Qden q)).

Definition wrapInt32 (z : Z) : Z := (z + 2 ^ 31) mod 2 ^ 32 - 2 ^ 31.

(** [x | 0]: ToInt32, which sends NaN and the infinities to 0. *)
Definition toInt32 (x : Number) : Z :=
  match x with
  | Fin q => wrapInt32 (truncate q)
  | _ => 0
  end.

(** [(0.5 + sample < 0 ? sample * 32768 : sample * 32767) | 0] *)
Definition scale (sample : Number) : Z :=
  match sample with
  | Fin q =>
      toInt32 (Fin (if negb (Qle_bool 0 ((1 # 2) + q)) then q * 32768 else q * 32767))
  | NaN => toInt32 NaN
  | PosInf => toInt32 PosInf
  | NegInf => toInt32 NegInf
  end.

(** Byte [k] of the two's complement representation of [v]. *)
Definition byteAt (k : Z) (v : Z) : Z := Z.land (Z.shiftr v (8 * k)) 255.

Definition le16 (v : Z) : list Z := [byteAt 0 v; byteAt 1 v].
Definition le32 (v : Z) : list Z := [byteAt 0 v; byteAt 1 v; byteAt 2 v; byteAt 3 v].

(** [view.getInt16(off, true)] on two bytes. *)
Definition int16OfBytes (b0 b1 : Z) : Z :=
  let u := b0 + 256 * b1 in
  if u <? 32768 then u else u - 65536.

Inductive Outcome (A : Type) :=
| Done (a : A)
| RangeError
| OutOfFuel.
Arguments Done {A} a.
Arguments RangeError {A}.
Arguments OutOfFuel {A}.

Definition bind {A B} (o : Outcome A) (k : A -> Outcome B) : Outcome B :=
  match o with
  | Done a => k a
  | RangeError => RangeError
  | OutOfFuel => OutOfFuel
  end.

Notation "x <- c ;; k" := (bind c (fun x => k))
  (at level 100, c at next level, right associativity).

(** A [DataView] setter: the bytes [bs] replace those at [off]; writing past
    the end of the buffer is a RangeError. *)
Definition store (off : nat) (bs : list Z) (view : list Z) : Outcome (list Z) :=
  if (off + length bs <=? length view)%nat
  then Done (take off view ++ bs ++ drop (off + length bs)%nat view)
  else RangeError.

(** The [DataView] and the variable [pos] that the two local setters of
    [audioBufferToWav] share. *)
Record Writer := mkWriter { view : list Z; pos : nat }.

Definition setUint16 (data : Z) (w : Writer) : Outcome Writer :=
  v <- store (pos w) (le16 data) (view w) ;;
  Done (mkWriter v (pos w + 2)%nat).

Definition setUint32 (data : Z) (w : Writer) : Outcome Writer :=
  v <- store (pos w) (le32 data) (view w) ;;
  Done (mkWriter v (pos w + 4)%nat).

(** An [AudioBuffer]. [numberOfChannels] is the number of channel arrays. *)
Record AudioBuffer := mkBuffer {
  sampleRate : Z;
  bufferLength : nat;                      (* buffer.length, in frames *)
  channelData : list (list Number)         (* getChannelData(i) *)
}.

Definition numberOfChannels (buffer : AudioBuffer) : nat := length (channelData buffer).

(** [channels[i][pos]] as a number: an index past the end reads
    [undefined], which the arithmetic turns into NaN. *)
Definition sampleAt (channel : list Number) (pos : nat) : Number := nth pos channel NaN.

(** The lines of the inner loop that compute one sample. *)
Definition sampleOf (channel : list Number) (pos : nat) : Z :=
  scale (clamp (sampleAt channel pos)).

(** [for (i = 0; i < numOfChan; i++) { ... view.setInt16(44 + offset, sample, true); offset += 2 }]
    over [channels[i]], on the pair of the view and [offset]. *)
Fixpoint forChannels (channels : list (list Number)) (pos : nat)
    (st : list Z * nat) : Outcome (list Z * nat) :=
  match channels with
  | [] => Done st
  | channel :: rest =>
      v <- store (44 + snd st)%nat (le16 (sampleOf channel pos)) (fst st) ;;
      forChannels rest pos (v, snd st + 2)%nat
  end.

(** [while (pos < buffer.length) { for ...; pos++ }] *)
Fixpoint whileFrames (fuel : nat) (buffer : AudioBuffer) (channels : list (list Number))
    (pos : nat) (st : list Z * nat) : Outcome (list Z * nat) :=
  if (pos <? bufferLength buffer)%nat
  then match fuel with
       | O => OutOfFuel
       | S fuel' =>
           st' <- forChannels channels pos st ;;
           whileFrames fuel' buffer channels (pos + 1)%nat st'
       end
  else Done st.

Definition audioBufferToWav (buffer : AudioBuffer) : Outcome (list Z) :=
  let numOfChan := numberOfChannels buffer in
  let length := (bufferLength buffer * numOfChan * 2 + 44)%nat in
  let w := mkWriter (repeat 0 length) 0%nat in
  let channels := channelData buffer in
  w <- setUint32 0x46464952 w ;;                                 (* "RIFF" *)
  w <- setUint32 (Z.of_nat length - 8) w ;;
  w <- setUint32 0x45564157 w ;;                                 (* "WAVE" *)
  w <- setUint32 0x20746d66 w ;;                                 (* "fmt " *)
  w <- setUint32 16 w ;;
  w <- setUint16 1 w ;;
  w <- setUint16 (Z.of_nat numOfChan) w ;;
  w <- setUint32 (sampleRate buffer) w ;;
  w <- setUint32 (sampleRate buffer * 2 * Z.of_nat numOfChan) w ;;
  w <- setUint16 (Z.of_nat numOfChan * 2) w ;;
  w <- setUint16 16 w ;;
  w <- setUint32 0x61746164 w ;;                                 (* "data" *)
  w <- setUint32 (Z.of_nat length - Z.of_nat (pos w) - 4) w ;;
  st <- whileFrames (bufferLength buffer) buffer channels (pos w) (view w, 0%nat) ;;
  Done (fst st).

(** The 44 bytes of the header, for [c] channels, [n] frames and sample
    rate [r]. *)
Definition header (r : Z) (c n : nat) : list Z :=
  let length := Z.of_nat (n * c * 2 + 44) in
  le32 0x46464952 ++ le32 (length - 8) ++ le32 0x45564157
  ++ le32 0x20746d66 ++ le32 16 ++ le16 1 ++ le16 (Z.of_nat c)
  ++ le32 r ++ le32 (r * 2 * Z.of_nat c) ++ le16 (Z.of_nat c * 2) ++ le16 16
  ++ le32 0x61746164 ++ le32 (length - 40 - 4).

(** The samples the loop computes, in the order it writes them: for each
    frame index from [pos] up to [n - 1], one sample per channel. *)
Fixpoint samplesFrom (count : nat) (channels : list (list Number)) (pos : nat) : list Z :=
  match count with
  | O => []
  | S k => map (fun channel => sampleOf channel pos) channels
           ++ samplesFrom k channels (pos + 1)%nat
  end.

Definition int16 (z : Z) : Prop := -32768 <= z <= 32767.

(** ** Reading a buffer back *)

(** [view.getUint16(off, true)], [view.getInt16(off, true)] and
    [view.getUint32(off, true)] of a [DataView] over the bytes [view];
    [None] is the RangeError of a read past the end. *)
Definition getUint16 (view : list Z) (off : nat) : option Z :=
  match view !! off, view !! (off + 1)%nat with
  | Some b0, Some b1 => Some (b0 + 256 * b1)
  | _, _ => None
  end.

Definition getInt16 (view : list Z) (off : nat) : option Z :=
  match view !! off, view !! (off + 1)%nat with
  | Some b0, Some b1 => Some (int16OfBytes b0 b1)
  | _, _ => None
  end.

Definition getUint32 (view : list Z) (off : nat) : option Z :=
  match view !! off, view !! (off + 1)%nat, view !! (off + 2)%nat, view !! (off + 3)%nat with
  | Some b0, Some b1, Some b2, Some b3 =>
      Some (b0 + 256 * b1 + 65536 * b2 + 16777216 * b3)
  | _, _, _, _ => None
  end.

(** The bytes of an ASCII tag. *)
Definition tag (s : string) : list Z :=
  map (fun a => Z.of_nat (Ascii.nat_of_ascii a)) (list_ascii_of_string s).

(** A mono buffer of 44 frames at full scale, and one of 46 frames that
    ends, after 44 frames at full scale, on a half and a negative full
    sample. *)
Definition shortBuffer : AudioBuffer := mkBuffer 24000 44 [repeat (Fin 1) 44].

Definition longerBuffer : AudioBuffer :=
  mkBuffer 24000 46 [repeat (Fin 1) 44 ++ [Fin (1 # 2); Fin (-1)]].

End Wav.

(* ===================================================================== *)
(** * The image and video services and their panels *)
(* ===================================================================== *)

Module Services.

Local Open Scope string_scope.

(** A part of the first candidate of a response, as the image functions
    read it: [None] when the part has no [inlineData], otherwise its
    [data], itself possibly undefined. *)
Definition ResponsePart := option (option string).

(** A value inside a template literal. *)
Definition interpolate (d : option string) : string :=
  match d with Some x => x | None => "undefined" end.

(** The argument of [generateContent] in the two image functions. *)
Record ImageRequest := mkImageRequest {
  imgModel : string;
  imgParts : list Chat.Part;
  imgConfig : option (string * string)       (* imageConfig: aspectRatio, imageSize *)
}.

(** [ensurePaidKey]: [aistudio] is [None] when [window.aistudio] (or its
    [hasSelectedApiKey]) is missing, otherwise what [hasSelectedApiKey]
    answers. The result tells whether [openSelectKey] was called. *)
Definition ensurePaidKey (aistudio : option bool) : bool :=
  match aistudio with
  | Some hasKey => negb hasKey
  | None => false
  end.

(** The loop over [response.candidates?.[0]?.content?.parts || []] shared
    by [generateImage] and [editImage], and the error thrown after it. *)
Fixpoint firstInlineImage (parts : list ResponsePart) (failure : string) : string + string :=
  match parts with
  | [] => inr failure
  | Some data :: _ => inl ("data:image/png;base64," ++ interpolate data)
  | None :: rest => firstInlineImage rest failure
  end.

Definition generateImageRequest (prompt aspectRatio : string) : ImageRequest :=
  mkImageRequest "gemini-3-pro-image-preview" [Chat.TextPart prompt]
                 (Some (aspectRatio, "1K")).

Definition editImageRequest (base64Image prompt : string) : ImageRequest :=
  mkImageRequest "gemini-2.5-flash-image"
                 [Chat.InlineData "image/png" base64Image; Chat.TextPart prompt] None.

(** [generateImage] and [editImage] against a remote endpoint that answers
    a request with the parts of its first candidate or fails. The first
    component of what [generateImage] gives tells whether the key dialog was
    opened on the way. *)
Definition generateImage (aistudio : option bool)
    (generateContent : ImageRequest -> list ResponsePart + string)
    (prompt aspectRatio : string) : bool * (string + string) :=
  (ensurePaidKey aistudio,
   match generateContent (generateImageRequest prompt aspectRatio) with
   | inl parts => firstInlineImage parts "No image generated"
   | inr e => inr e
   end).

Definition editImage (generateContent : ImageRequest -> list ResponsePart + string)
    (base64Image prompt : string) : string + string :=
  match generateContent (editImageRequest base64Image prompt) with
  | inl parts => firstInlineImage parts "No edited image returned"
  | inr e => inr e
  end.

(** A long-running video operation: [done] and
    [response?.generatedVideos?.[0]?.video?.uri]. *)
Record Operation := mkOperation { done : bool; videoUri : option string }.

Record VideoRequest := mkVideoRequest {
  vidModel : string;
  vidPrompt : string;
  numberOfVideos : Z;
  resolution : string;
  vidAspectRatio : string;
  vidImage : option (string * string)        (* imageBytes, mimeType *)
}.

Definition videoRequest (prompt aspectRatio : string) (imageBase64 : option string)
    : VideoRequest :=
  mkVideoRequest "veo-3.1-fast-generate-preview" prompt 1 "720p" aspectRatio
    (match imageBase64 with
     | Some b => if String.eqb b "" then None else Some (b, "image/png")
     | None => None
     end).

Inductive Polled :=
| Finished (operation : Operation) (polls : nat)
| PollFailed (message : string) (polls : nat)
| StillPending.

(** [while (!operation.done) { await sleep(5000); operation = await
    getVideosOperation(...) }]. The answer of the [i]-th call to
    [getVideosOperation] is [getVideosOperation i]; [polls] counts the
    calls made, each preceded by a wait of five seconds. *)
Fixpoint poll (fuel : nat) (getVideosOperation : nat -> Operation + string)
    (polls : nat) (operation : Operation) : Polled :=
  if done operation then Finished operation polls
  else match fuel with
       | O => StillPending
       | S fuel' =>
           match getVideosOperation polls with
           | inl operation' => poll fuel' getVideosOperation (S polls) operation'
           | inr e => PollFailed e (S polls)
           end
       end.

Inductive VideoResult :=
| VideoUrl (url : string) (polls : nat)
| VideoError (message : string)
| VideoPending.

(** [generateVeoVideo]. [generateVideos] answers the request with the first
    operation, [fetchBlobUrl] is [fetch] followed by [blob()] and
    [URL.createObjectURL]. The first component tells whether the key dialog
    was opened on the way. *)
Definition generateVeoVideo (fuel : nat) (aistudio : option bool)
    (generateVideos : VideoRequest -> Operation + string)
    (getVideosOperation : nat -> Operation + string)
    (fetchBlobUrl : string -> string + string) (apiKey : option string)
    (prompt aspectRatio : string) (imageBase64 : option string) : bool * VideoResult :=
  (ensurePaidKey aistudio,
   match generateVideos (videoRequest prompt aspectRatio imageBase64) with
   | inr e => VideoError e
   | inl operation =>
       match poll fuel getVideosOperation 0 operation with
       | StillPending => VideoPending
       | PollFailed e _ => VideoError e
       | Finished operation' polls =>
           match videoUri operation' with
           | None => VideoError "Video generation failed"
           | Some uri =>
               if String.eqb uri "" then VideoError "Video generation failed"
               else match fetchBlobUrl (uri ++ "&key=" ++ interpolate apiKey) with
                    | inl url => VideoUrl url polls
                    | inr e => VideoError e
                    end
           end
       end
   end).

(** No operation among the first [n] answers of the script is done. *)
Definition pendingFor (getVideosOperation : nat -> Operation + string) (n : nat) : Prop :=
  forall i, (i < n)%nat ->
    exists operation, getVideosOperation i = inl operation /\ done operation = false.

(** ** The image panel *)

Inductive ImageMode := create | edit.

Record ImagePanel := mkImagePanel {
  imageMode : ImageMode;
  prompt : string;
  aspectRatio : string;
  baseImage : option string;
  resultImage : option string;
  isLoading : bool;
  error : string
}.

(** [handleGenerate] of the image panel, with the request it issued, if
    any. *)
Definition imageHandleGenerate (aistudio : option bool)
    (generateContent : ImageRequest -> list ResponsePart + string)
    (p : ImagePanel) : ImagePanel * option ImageRequest :=
  if String.eqb (prompt p) "" then (p, None)
  else
    let '(outcome, issued) :=
      match imageMode p with
      | create =>
          (snd (generateImage aistudio generateContent (prompt p) (aspectRatio p)),
           Some (generateImageRequest (prompt p) (aspectRatio p)))
      | edit =>
          match baseImage p with
          | None => (inr "Please upload an image to edit", None)
          | Some b =>
              if String.eqb b "" then (inr "Please upload an image to edit", None)
              else (editImage generateContent b (prompt p),
                    Some (editImageRequest b (prompt p)))
          end
      end in
    match outcome with
    | inl result =>
        (mkImagePanel (imageMode p) (prompt p) (aspectRatio p) (baseImage p)
                      (Some result) false "", issued)
    | inr message =>
        (mkImagePanel (imageMode p) (prompt p) (aspectRatio p) (baseImage p)
                      None false message, issued)
    end.

(** ** The video panel *)

Record VideoPanel := mkVideoPanel {
  vPrompt : string;
  vAspectRatio : string;
  vBaseImage : option string;
  videoUrl : option string;
  vIsLoading : bool;
  vError : string
}.

(** [baseImage || undefined] *)
Definition orUndefined (o : option string) : option string :=
  match o with
  | Some b => if String.eqb b "" then None else Some b
  | None => None
  end.

(** [handleGenerate] of the video panel; [None] when [generateVeoVideo]
    is still polling after [fuel] rounds. *)
Definition videoHandleGenerate (fuel : nat) (aistudio : option bool)
    (generateVideos : VideoRequest -> Operation + string)
    (getVideosOperation : nat -> Operation + string)
    (fetchBlobUrl : string -> string + string) (apiKey : option string)
    (p : VideoPanel) : option VideoPanel :=
  if String.eqb (vPrompt p) "" then Some p
  else
    match snd (generateVeoVideo fuel aistudio generateVideos getVideosOperation
                 fetchBlobUrl apiKey (vPrompt p) (vAspectRatio p)
                 (orUndefined (vBaseImage p))) with
    | VideoPending => None
    | VideoUrl url _ =>
        Some (mkVideoPanel (vPrompt p) (vAspectRatio p) (vBaseImage p) (Some url) false "")
    | VideoError message =>
        Some (mkVideoPanel (vPrompt p) (vAspectRatio p) (vBaseImage p) None false message)
    end.

(** ** The speech tab of the audio panel *)

Record SpeechPanel := mkSpeechPanel {
  speechText : string;
  speechLoading : bool;
  audioUrl : option string;
  alerts : list string
}.

(** [handleTTS]: [generateSpeech] resolves to an [AudioBuffer] or
    rejects; [createObjectURL] names the blob made of the WAV bytes. An
    exception of [audioBufferToWav] is caught like any other. [None] is a
    conversion that has not returned. *)
Definition handleTTS (generateSpeech : string -> Wav.AudioBuffer + string)
    (createObjectURL : list Z -> string) (p : SpeechPanel) : option SpeechPanel :=
  if String.eqb (speechText p) "" then Some p
  else
    match generateSpeech (speechText p) with
    | inr _ =>
        Some (mkSpeechPanel (speechText p) false None (alerts p ++ ["Generation failed"]))
    | inl audioBuffer =>
        match Wav.audioBufferToWav audioBuffer with
        | Wav.Done wav =>
            Some (mkSpeechPanel (speechText p) false (Some (createObjectURL wav)) (alerts p))
        | Wav.RangeError =>
            Some (mkSpeechPanel (speechText p) false None (alerts p ++ ["Generation failed"]))
        | Wav.OutOfFuel => None
        end
    end.

End Services.

(* ===================================================================== *)
(** * Properties of the streaming session manager *)
(* ===================================================================== *)

Module LiveFacts.

Import Live.
Local Open Scope Q_scope.

(** ** Gapless scheduling *)

Lemma playAudio_resume_fields d s ctx :
  outputAudioContextRef s = Some ctx ->
  let s' := playAudio_resume d s in
  effects s' = EStart (fresh s) (nextStartTimeRef s) d :: effects s
  /\ nextStartTimeRef s' = nextStartTimeRef s + d
  /\ outputAudioContextRef s' = Some ctx
  /\ fresh s' = S (fresh s).
Proof.
  intros Hctx. unfold playAudio_resume. rewrite Hctx. cbn.
  destruct (existsb _ _); cbn; auto.
Qed.

Lemma playAudio_fields d s ctx :
  outputAudioContextRef s = Some ctx ->
  let start := Qmax (nextStartTimeRef s) (currentTime ctx) in
  let s' := playAudio (Some d) s in
  effects s' = EStart (fresh s) start d :: effects s
  /\ nextStartTimeRef s' = start + d
  /\ outputAudioContextRef s' = Some ctx
  /\ fresh s' = S (fresh s).
Proof.
  intros Hctx. unfold playAudio, playAudio_begin. rewrite Hctx.
  apply (playAudio_resume_fields d
           (setNextStartTime (Qmax (nextStartTimeRef s) (currentTime ctx)) s) ctx).
  exact Hctx.
Qed.



Lemma onmessage_plays decoded s :
  onmessage (Audio decoded) false s = Normal (playAudio decoded s).
Proof.
  unfold onmessage, onmessage_rest, playAudio. destruct (playAudio_begin s); reflexivity.
Qed.

(** ** Gapless scheduling in double precision *)

Lemma SFcompare_antisym x y :
  SFcompare y x = option_map CompOpp (SFcompare x y).
Proof.
  destruct x as [sx|sx| |sx mx ex], y as [sy|sy| |sy my ey]; cbn;
    try reflexivity;
    try (destruct sx; reflexivity); try (destruct sy; reflexivity);
    try (destruct sx, sy; reflexivity).
  f_equal. destruct sx, sy; try reflexivity.
  - rewrite (Z.compare_antisym ex ey).
    destruct (ex ?= ey)%Z eqn:E; cbn; try reflexivity.
    change (PosDef.Pos.compare_cont Eq my mx) with (Pos.compare my mx).
    change (PosDef.Pos.compare_cont Eq mx my) with (Pos.compare mx my).
    rewrite (Pos.compare_antisym mx my). reflexivity.
  - rewrite (Z.compare_antisym ex ey).
    destruct (ex ?= ey)%Z eqn:E; cbn; try reflexivity.
    change (PosDef.Pos.compare_cont Eq my mx) with (Pos.compare my mx).
    change (PosDef.Pos.compare_cont Eq mx my) with (Pos.compare mx my).
    rewrite (Pos.compare_antisym mx my). reflexivity.
Qed.

Lemma SFcompare_refl x : SFcompare x x <> None -> SFcompare x x = Some Eq.
Proof.
  destruct x as [sx|sx| |sx mx ex]; cbn; try congruence.
  - destruct sx; reflexivity.
  - intros _. f_equal. rewrite Z.compare_refl.
    change (PosDef.Pos.compare_cont Eq mx mx) with (Pos.compare mx mx).
    rewrite Pos.compare_refl. destruct sx; reflexivity.
Qed.

(** A segment that arrives no later than the cursor stands starts at the
    cursor. *)
Lemma max_at_cursor (cursor t : Double.double) :
  Double.leb t cursor = true -> Double.eqb (Double.max cursor t) cursor = true.
Proof.
  unfold Double.leb, SFleb, Double.eqb, SFeqb, Double.max. intros H.
  rewrite (SFcompare_antisym t cursor).
  destruct (SFcompare t cursor) as [[]|] eqn:E; try discriminate; cbn.
  - assert (Hr : SFcompare cursor cursor = Some Eq).
    { apply SFcompare_refl. destruct cursor, t; cbn in *; congruence. }
    destruct cursor as [[]| | |]; try (rewrite Hr; reflexivity).
    rewrite E. reflexivity.
  - rewrite SFcompare_refl; [reflexivity|].
    destruct cursor, t; cbn in *; congruence.
Qed.

Lemma playAudio64_fields d s clock :
  Live64.outputAudioContextRef s = Some clock ->
  Live64.playAudio (Some d) s
  = Live64.mkState (Some clock)
      (Double.add (Double.max (Live64.nextStartTimeRef s) clock) d)
      (Live64.schedule s ++ [(Double.max (Live64.nextStartTimeRef s) clock, d)]).
Proof.
  intros H. unfold Live64.playAudio, Live64.playAudio_begin. rewrite H.
  reflexivity.
Qed.

Lemma playAll64_plan segs : forall s clock,
  Live64.outputAudioContextRef s = Some clock ->
  Live64.schedule (Live64.playAll segs s)
    = Live64.schedule s ++ Live64.plan segs (Live64.nextStartTimeRef s)
  /\ Live64.nextStartTimeRef (Live64.playAll segs s)
    = Live64.planCursor segs (Live64.nextStartTimeRef s).
Proof.
  induction segs as [|[t d] rest IH]; intros s clock Hctx;
    cbn [Live64.playAll Live64.plan Live64.planCursor].
  - split; [symmetry; apply app_nil_r | reflexivity].
  - assert (Hset : Live64.setClock t s
                   = Live64.mkState (Some t) (Live64.nextStartTimeRef s) (Live64.schedule s))
      by (unfold Live64.setClock; rewrite Hctx; reflexivity).
    rewrite Hset.
    rewrite (playAudio64_fields d
               (Live64.mkState (Some t) (Live64.nextStartTimeRef s) (Live64.schedule s))
               t eq_refl).
    cbn [Live64.nextStartTimeRef Live64.schedule].
    destruct (IH (Live64.mkState (Some t)
                    (Double.add (Double.max (Live64.nextStartTimeRef s) t) d)
                    (Live64.schedule s ++ [(Double.max (Live64.nextStartTimeRef s) t, d)]))
                 t eq_refl) as [IHs IHn].
    cbn [Live64.nextStartTimeRef Live64.schedule] in IHs, IHn.
    rewrite IHs, IHn, <- app_assoc. split; reflexivity.
Qed.

Lemma backToBack64_chained rest : forall t d cursor,
  Live64.backToBack rest (Double.add (Double.max cursor t) d) ->
  Live64.chained (Live64.plan ((t, d) :: rest) cursor).
Proof.
  induction rest as [|[t2 d2] rest IH]; intros t d cursor Hbb.
  - cbn. auto.
  - destruct Hbb as [Hle Hbb]. cbn [Live64.plan]. cbn [Live64.chained]. split.
    + apply max_at_cursor. exact Hle.
    + apply (IH t2 d2 _ Hbb).
Qed.

(** C1, as the specification states it, fails on its own example: the
    code adds doubles, and with durations 0.5, 0.3 and 0.4 arriving at
    clock 0 the cursor it ends with is not the double that 1.2 denotes but
    the next one up, 1.2000000000000002. *)
Lemma final_cursor_is_not_1_2 :
  Live64.nextStartTimeRef (Live64.playAll Live64.exampleSegments Live64.init)
    <> Double.decimal 12 10
  /\ Live64.nextStartTimeRef (Live64.playAll Live64.exampleSegments Live64.init)
     = S754_finite false 5404319552844596 (-52)
  /\ Double.decimal 12 10 = S754_finite false 5404319552844595 (-52).
Proof.
  split; [vm_compute; discriminate|]. split; vm_compute; reflexivity.
Qed.

(** C1, amended. With the output context in place, [playAudio] starts each
    segment at the larger of the cursor and the output clock and leaves the
    cursor at the double-precision sum of that start and the segment's
    duration; a whole sequence of segments is scheduled as the
    specification's plan says, with that sum; when every later segment
    arrives no later than the cursor stands, each starts at the cursor the
    previous one left; and durations 0.5, 0.3, 0.4 arriving with clock and
    cursor at 0 start at 0, 0.5 and 0.8 and leave the cursor at 0.8 + 0.4,
    which is 1.2000000000000002. *)
Theorem playAudio_gapless (s : Live64.State) (clock : Double.double)
    (segs : list (Double.double * Double.double)) :
  Live64.outputAudioContextRef s = Some clock ->
  let cursor := Live64.nextStartTimeRef s in
  (forall d,
      Live64.schedule (Live64.playAudio (Some d) s)
        = Live64.schedule s ++ [(Double.max cursor clock, d)]
      /\ Live64.nextStartTimeRef (Live64.playAudio (Some d) s)
         = Double.add (Double.max cursor clock) d)
  /\ Live64.schedule (Live64.playAll segs s) = Live64.schedule s ++ Live64.plan segs cursor
  /\ Live64.nextStartTimeRef (Live64.playAll segs s) = Live64.planCursor segs cursor
  /\ (forall t d rest, segs = (t, d) :: rest ->
        Live64.backToBack rest (Double.add (Double.max cursor t) d) ->
        Live64.chained (Live64.plan segs cursor))
  /\ (cursor = Double.zero -> segs = Live64.exampleSegments ->
        map fst (Live64.plan segs cursor)
          = [Double.zero; Double.decimal 5 10; Double.decimal 8 10]
        /\ Live64.planCursor segs cursor
           = Double.add (Double.decimal 8 10) (Double.decimal 4 10)
        /\ Live64.planCursor segs cursor
           = Double.decimal 12000000000000002 10000000000000000).
Proof.
  intros Hctx cursor.
  split; [|split; [|split; [|split]]].
  - intros d. rewrite (playAudio64_fields d s clock Hctx). split; reflexivity.
  - apply (playAll64_plan segs s clock Hctx).
  - apply (playAll64_plan segs s clock Hctx).
  - intros t d rest -> Hbb. apply backToBack64_chained. exact Hbb.
  - intros -> ->. vm_compute. repeat split.
Qed.

Lemma playAudio_gapless_witness :
  map fst (Live64.schedule (Live64.playAll Live64.exampleSegments Live64.init))
    = [Double.zero; Double.decimal 5 10; Double.decimal 8 10]
  /\ Live64.nextStartTimeRef (Live64.playAll Live64.exampleSegments Live64.init)
     = Double.decimal 12000000000000002 10000000000000000
  /\ Live64.chained (Live64.schedule (Live64.playAll Live64.exampleSegments Live64.init)).
Proof.
  pose proof (playAudio_gapless Live64.init Double.zero Live64.exampleSegments eq_refl) as H.
  cbv zeta in H. destruct H as (_ & Hs & Hc & Hch & Hex).
  destruct (Hex eq_refl eq_refl) as (H1 & _ & H3).
  split; [rewrite Hs; exact H1|]. split; [rewrite Hc; exact H3|].
  rewrite Hs. apply (Hch _ _ _ eq_refl). vm_compute. auto.
Defined.

(** ** Interruption and teardown *)

Ltac break_match :=
  match goal with
  | |- context [match ?x with _ => _ end] =>
      lazymatch x with
      | context [match _ with _ => _ end] => fail
      | _ => destruct x eqn:?
      end
  end.

Ltac frame :=
  intros;
  unfold onopen, startVideoStreaming, setupAudioInput, connect, addLog, tick,
    videoTick, clearInterval, sendRealtimeInput, onended, advance,
    closeOutput, closeInput, stopTracks, closeSession;
  cbn; repeat (break_match; cbn); auto.

Lemma stopEach_started l : forall s,
  Forall (fun src => started src <> None) l ->
  stopEach l s = Normal (setEffects (stops l ++ effects s) s).
Proof.
  induction l as [|src rest IH]; intros s Hall.
  - destruct s; reflexivity.
  - inversion Hall as [|? ? Hsrc Hrest]; subst. cbn [stopEach].
    destruct (started src) eqn:E; [|congruence].
    rewrite (IH _ Hrest). unfold stops. cbn [map rev effects emit].
    rewrite <- app_assoc. reflexivity.
Qed.

Lemma stopEach_frame l : forall s,
  let s' := final (stopEach l s) in
  sourcesRef s' = sourcesRef s /\ status s' = status s
  /\ isConnected s' = isConnected s /\ nextStartTimeRef s' = nextStartTimeRef s.
Proof.
  induction l as [|src rest IH]; intros s; cbn [stopEach].
  - cbn. auto.
  - destruct (started src); [|cbn; auto].
    destruct (IH (emit (EStop (node src)) s)) as (H1 & H2 & H3 & H4). cbn in *. auto.
Qed.

Lemma stopAudioPlayback_started s :
  sourcesStarted s ->
  stopAudioPlayback s
    = Normal (setNextStartTime 0
                (setSources [] (setEffects (stops (sourcesRef s) ++ effects s) s))).
Proof.
  intros H. unfold stopAudioPlayback. rewrite (stopEach_started _ s H). reflexivity.
Qed.

Lemma stopAudioPlayback_frame s :
  let s' := final (stopAudioPlayback s) in
  (sourcesRef s' = [] \/ sourcesRef s' = sourcesRef s)
  /\ status s' = status s /\ isConnected s' = isConnected s.
Proof.
  unfold stopAudioPlayback.
  pose proof (stopEach_frame (sourcesRef s) s) as H. cbv zeta in H.
  destruct (stopEach (sourcesRef s) s); cbn in *; intuition.
Qed.

Lemma beforeStop_frame s :
  sourcesRef (beforeStop s) = sourcesRef s
  /\ status (beforeStop s) = disconnected
  /\ isConnected (beforeStop s) = false
  /\ logs (beforeStop s) = logs s.
Proof. unfold beforeStop. frame. Qed.

Lemma disconnect_started s :
  sourcesStarted s ->
  exists s', disconnect s = Normal s'
    /\ status s' = disconnected /\ isConnected s' = false
    /\ sourcesRef s' = [] /\ nextStartTimeRef s' = 0.
Proof.
  intros H. destruct (beforeStop_frame s) as (Hsrc & Hst & Hic & _).
  change (disconnect s) with (stopAudioPlayback (beforeStop s)).
  rewrite stopAudioPlayback_started.
  - eexists. split; [reflexivity|]. cbn. auto.
  - unfold sourcesStarted. rewrite Hsrc. exact H.
Qed.

Lemma disconnect_frame s :
  let s' := final (disconnect s) in
  (sourcesRef s' = [] \/ sourcesRef s' = sourcesRef s)
  /\ status s' = disconnected /\ isConnected s' = false.
Proof.
  change (disconnect s) with (stopAudioPlayback (beforeStop s)).
  destruct (beforeStop_frame s) as (Hsrc & Hst & Hic & _).
  destruct (stopAudioPlayback_frame (beforeStop s)) as (H1 & H2 & H3).
  cbv zeta. rewrite H2, H3, Hst, Hic, <- Hsrc. auto.
Qed.

(** ** What every reachable state satisfies *)

Lemma playAudio_resume_sources d s :
  sourcesStarted s -> sourcesStarted (playAudio_resume d s).
Proof.
  unfold sourcesStarted, playAudio_resume. intros H.
  destruct (outputAudioContextRef s); [|exact H]. cbn.
  destruct (existsb _ _); cbn; [exact H|].
  apply Forall_app. split; [exact H|]. repeat constructor. cbn. congruence.
Qed.

Lemma playAudio_resume_frame d s :
  status (playAudio_resume d s) = status s
  /\ isConnected (playAudio_resume d s) = isConnected s.
Proof. unfold playAudio_resume. cbn. repeat (break_match; cbn); auto. Qed.

Lemma stopAudioPlayback_sources s :
  sourcesStarted s -> sourcesStarted (final (stopAudioPlayback s)).
Proof.
  intros H. unfold sourcesStarted.
  destruct (stopAudioPlayback_frame s) as ([-> | ->] & _); [constructor | exact H].
Qed.

Lemma onmessage_rest_inv audio interrupted s :
  let s' := final (onmessage_rest audio interrupted s) in
  (sourcesStarted s -> sourcesStarted s')
  /\ status s' = status s /\ isConnected s' = isConnected s.
Proof.
  unfold onmessage_rest.
  set (p := match audio with
            | None => (s, None)
            | Some decoded =>
                match playAudio_begin s with
                | None => (s, None)
                | Some s' => (s', Some decoded)
                end
            end).
  assert (Hp : sourcesRef (fst p) = sourcesRef s /\ status (fst p) = status s
               /\ isConnected (fst p) = isConnected s).
  { subst p. unfold playAudio_begin.
    destruct audio; [destruct (outputAudioContextRef s)|]; cbn; auto. }
  destruct p as [s1 pending]. cbn [fst] in Hp. destruct Hp as (Hsrc & Hst & Hic).
  set (c := if interrupted then stopAudioPlayback (addLog "Interrupted by user" s1)
            else Normal s1).
  assert (Hc : (sourcesStarted s -> sourcesStarted (final c))
               /\ status (final c) = status s /\ isConnected (final c) = isConnected s).
  { subst c. destruct interrupted.
    - destruct (stopAudioPlayback_frame (addLog "Interrupted by user" s1)) as (_ & H2 & H3).
      split; [|split].
      + intros H. apply stopAudioPlayback_sources. unfold sourcesStarted in *.
        cbn. rewrite Hsrc. exact H.
      + rewrite H2. exact Hst.
      + rewrite H3. exact Hic.
    - cbn. unfold sourcesStarted. rewrite Hsrc. auto. }
  destruct c as [s2|e s2]; cbn [final] in *; [|exact Hc].
  destruct Hc as (Hc1 & Hc2 & Hc3).
  destruct pending as [[d|]|]; cbn.
  - destruct (playAudio_resume_frame d s2) as (H1 & H2).
    split; [|split]; [|congruence|congruence].
    intros H. apply playAudio_resume_sources. auto.
  - auto.
  - auto.
Qed.

Lemma onmessage_inv payload interrupted s :
  let s' := final (onmessage payload interrupted s) in
  (sourcesStarted s -> sourcesStarted s')
  /\ status s' = status s /\ isConnected s' = isConnected s.
Proof.
  destruct payload as [| |decoded]; cbn [onmessage];
    [cbn; auto | apply onmessage_rest_inv | apply onmessage_rest_inv].
Qed.

Lemma quiet_refl s : quiet s s.
Proof. unfold quiet. auto. Qed.

Lemma quiet_trans a b c : quiet a b -> quiet b c -> quiet a c.
Proof. unfold quiet. intros (H1 & H2 & H3) (H4 & H5 & H6). repeat split; congruence. Qed.

Lemma stopEach_quiet l : forall s, quiet s (final (stopEach l s)).
Proof.
  induction l as [|src rest IH]; intros s; cbn [stopEach].
  - apply quiet_refl.
  - destruct (started src); [|apply quiet_refl].
    apply (quiet_trans _ (emit (EStop (node src)) s)); [|apply IH].
    unfold quiet, framesSent. cbn. auto.
Qed.

Lemma stopAudioPlayback_quiet s : quiet s (final (stopAudioPlayback s)).
Proof.
  unfold stopAudioPlayback. pose proof (stopEach_quiet (sourcesRef s) s) as H.
  destruct (stopEach (sourcesRef s) s); cbn in *; exact H.
Qed.

Lemma beforeStop_quiet s : quiet s (beforeStop s).
Proof. unfold quiet, beforeStop, framesSent. frame. Qed.

Lemma disconnect_quiet s : quiet s (final (disconnect s)).
Proof.
  change (disconnect s) with (stopAudioPlayback (beforeStop s)).
  apply (quiet_trans _ (beforeStop s));
    [apply beforeStop_quiet | apply stopAudioPlayback_quiet].
Qed.

Lemma playAudio_resume_quiet d s : quiet s (playAudio_resume d s).
Proof. unfold quiet, framesSent, playAudio_resume. cbn. repeat (break_match; cbn); auto. Qed.

Lemma onmessage_rest_quiet audio interrupted s :
  quiet s (final (onmessage_rest audio interrupted s)).
Proof.
  unfold onmessage_rest.
  set (p := match audio with
            | None => (s, None)
            | Some decoded =>
                match playAudio_begin s with
                | None => (s, None)
                | Some s' => (s', Some decoded)
                end
            end).
  assert (Hp : quiet s (fst p)).
  { subst p. unfold playAudio_begin.
    destruct audio; [destruct (outputAudioContextRef s)|];
      unfold quiet, framesSent; cbn; auto. }
  destruct p as [s1 pending]. cbn [fst] in Hp.
  set (c := if interrupted then stopAudioPlayback (addLog "Interrupted by user" s1)
            else Normal s1).
  assert (Hc : quiet s (final c)).
  { subst c. destruct interrupted; [|exact Hp].
    apply (quiet_trans _ s1); [exact Hp|].
    apply (quiet_trans _ (addLog "Interrupted by user" s1));
      [unfold quiet, framesSent; cbn; auto | apply stopAudioPlayback_quiet]. }
  destruct c as [s2|e s2]; cbn [final] in *; [|exact Hc].
  destruct pending as [[d|]|].
  - apply (quiet_trans _ s2); [exact Hc | apply playAudio_resume_quiet].
  - exact Hc.
  - exact Hc.
Qed.

Lemma onmessage_quiet payload interrupted s :
  quiet s (final (onmessage payload interrupted s)).
Proof.
  destruct payload as [| |decoded]; cbn [onmessage];
    [apply quiet_refl | apply onmessage_rest_quiet | apply onmessage_rest_quiet].
Qed.

Lemma step_sourcesStarted e s : sourcesStarted s -> sourcesStarted (step e s).
Proof.
  intros H. destruct e; cbn [step].
  - destruct (isConnected s).
    + unfold sourcesStarted.
      destruct (disconnect_frame s) as ([-> | ->] & _); [constructor | exact H].
    + unfold sourcesStarted in *. replace (sourcesRef (connect gum sess s)) with (sourcesRef s);
        [exact H | frame].
  - destruct (nth_error (sessions s) k) as [r|]; [|exact H].
    unfold sourcesStarted in *. replace (sourcesRef (onopen r ctx2d s)) with (sourcesRef s);
      [exact H | frame].
  - apply onmessage_inv. exact H.
  - unfold sourcesStarted, onclose.
    destruct (disconnect_frame (addLog "Session Closed" s)) as ([-> | ->] & _);
      [constructor | exact H].
  - unfold sourcesStarted, onerror.
    destruct (disconnect_frame (addLog "Session Error (check console)" (emit EConsoleError s)))
      as ([-> | ->] & _); [constructor | exact H].
  - unfold sourcesStarted in *. cbn.
    replace (sourcesRef (sendRealtimeInput (Pcm inputData) o s)) with (sourcesRef s);
      [exact H | frame].
  - unfold sourcesStarted in *.
    replace (sourcesRef (tick id width height o s)) with (sourcesRef s); [exact H | frame].
  - unfold sourcesStarted, onended in *. cbn.
    apply List.Forall_forall. intros x Hx. apply filter_In in Hx as [Hx _].
    rewrite List.Forall_forall in H. auto.
  - unfold sourcesStarted in *. replace (sourcesRef (advance dt s)) with (sourcesRef s);
      [exact H | frame].
Qed.

Lemma step_uiConsistent e s : uiConsistent s -> uiConsistent (step e s).
Proof.
  unfold uiConsistent. intros H. destruct e; cbn [step].
  - destruct (isConnected s) eqn:E.
    + destruct (disconnect_frame s) as (_ & -> & _). congruence.
    + replace (status (connect gum sess s))
        with (match gum, sess with inl _, inl _ => connecting | _, _ => disconnected end);
        [destruct gum, sess; congruence | frame].
  - destruct (nth_error (sessions s) k) as [r|]; [|exact H].
    replace (isConnected (onopen r ctx2d s)) with true; [congruence | frame].
  - destruct (onmessage_inv payload interrupted s) as (_ & -> & ->). exact H.
  - unfold onclose.
    destruct (disconnect_frame (addLog "Session Closed" s)) as (_ & -> & _). congruence.
  - unfold onerror.
    destruct (disconnect_frame (addLog "Session Error (check console)" (emit EConsoleError s)))
      as (_ & -> & _). congruence.
  - cbn. replace (status (sendRealtimeInput (Pcm inputData) o s)) with (status s); [|frame].
    replace (isConnected (sendRealtimeInput (Pcm inputData) o s)) with (isConnected s);
      [exact H | frame].
  - replace (status (tick id width height o s)) with (status s); [|frame].
    replace (isConnected (tick id width height o s)) with (isConnected s); [exact H | frame].
  - exact H.
  - replace (status (advance dt s)) with (status s); [|frame].
    replace (isConnected (advance dt s)) with (isConnected s); [exact H | frame].
Qed.

Lemma quiet_video s s' :
  quiet s s' -> closuresStale s /\ framesSent s = 0%nat ->
  closuresStale s' /\ framesSent s' = 0%nat.
Proof.
  unfold quiet, closuresStale. intros (-> & -> & ->). auto.
Qed.

Lemma find_none_filter {A} (f : A -> bool) (l : list A) :
  find f l = None -> List.filter (fun x => negb (f x)) l = l.
Proof.
  induction l as [|x l IH]; cbn; [reflexivity|].
  destruct (f x); [discriminate|]. cbn. intros H. rewrite (IH H). reflexivity.
Qed.

Lemma tick_stale id w h o s :
  closuresStale s ->
  let s' := tick id w h o s in
  sessions s' = sessions s /\ framesSent s' = framesSent s
  /\ intervals s' = List.filter (fun iv => negb (Nat.eqb (ivId iv) id)) (intervals s)
  /\ status s' = status s.
Proof.
  intros [_ Hiv]. unfold tick.
  destruct (find _ (intervals s)) as [iv|] eqn:E.
  - destruct (find_some _ _ E) as [Hin Hid].
    rewrite List.Forall_forall in Hiv. specialize (Hiv iv Hin).
    unfold videoTick.
    replace (Status_eqb (ivStatus iv) connected) with false
      by (destruct (ivStatus iv); [reflexivity | reflexivity | congruence]).
    rewrite orb_true_r. apply Nat.eqb_eq in Hid. rewrite Hid.
    unfold clearInterval, framesSent. cbn. auto.
  - cbv zeta. rewrite (find_none_filter _ _ E). auto.
Qed.

Lemma step_video e s :
  uiConsistent s -> closuresStale s /\ framesSent s = 0%nat ->
  closuresStale (step e s) /\ framesSent (step e s) = 0%nat.
Proof.
  intros Hui Hv. destruct e; cbn [step].
  - destruct (isConnected s) eqn:E.
    + apply (quiet_video s); [apply disconnect_quiet | exact Hv].
    + specialize (Hui E). destruct Hv as ((Hs & Hi) & Hf).
      assert (H : (sessions (connect gum sess s) = sessions s
                   \/ sessions (connect gum sess s) = sessions s ++ [status s])
                  /\ intervals (connect gum sess s) = intervals s
                  /\ framesSent (connect gum sess s) = framesSent s)
        by (unfold framesSent; frame).
      destruct H as (H1 & H2 & H3). unfold closuresStale. rewrite H2, H3.
      repeat split; try assumption.
      destruct H1 as [-> | ->]; [assumption|].
      apply Forall_app. split; [assumption | repeat constructor; assumption].
  - destruct (nth_error (sessions s) k) as [r|] eqn:E; [|exact Hv].
    destruct Hv as ((Hs & Hi) & Hf).
    assert (Hr : r <> connected).
    { rewrite List.Forall_forall in Hs. apply Hs. eapply nth_error_In. exact E. }
    assert (H : sessions (onopen r ctx2d s) = sessions s
                /\ (intervals (onopen r ctx2d s) = intervals s
                    \/ exists n, intervals (onopen r ctx2d s)
                                 = intervals s ++ [mkInterval n r ctx2d])
                /\ framesSent (onopen r ctx2d s) = framesSent s)
      by (unfold framesSent; frame; eauto 6).
    destruct H as (H1 & H2 & H3). unfold closuresStale. rewrite H1, H3.
    repeat split; try assumption.
    destruct H2 as [-> | [n ->]]; [assumption|].
    apply Forall_app. split; [assumption | repeat constructor; assumption].
  - apply (quiet_video s); [apply onmessage_quiet | exact Hv].
  - apply (quiet_video s); [|exact Hv]. unfold onclose.
    apply (quiet_trans _ (addLog "Session Closed" s));
      [unfold quiet, framesSent; cbn; auto | apply disconnect_quiet].
  - apply (quiet_video s); [|exact Hv]. unfold onerror.
    apply (quiet_trans _ (addLog "Session Error (check console)" (emit EConsoleError s)));
      [unfold quiet, framesSent; cbn; auto | apply disconnect_quiet].
  - apply (quiet_video s); [|exact Hv]. unfold quiet, framesSent. cbn. frame.
  - destruct Hv as (Hc & Hf).
    destruct (tick_stale id width height o s Hc) as (H1 & H2 & H3 & _).
    unfold closuresStale. rewrite H1, H2, H3. destruct Hc as [Hs Hi].
    repeat split; try assumption.
    apply List.Forall_forall. intros x Hx. apply filter_In in Hx as [Hx _].
    rewrite List.Forall_forall in Hi. auto.
  - apply (quiet_video s); [|exact Hv]. unfold quiet, framesSent. cbn. auto.
  - apply (quiet_video s); [|exact Hv]. unfold quiet, framesSent. frame.
Qed.

Lemma run_invariant evs : forall s,
  sourcesStarted s /\ uiConsistent s /\ closuresStale s /\ framesSent s = 0%nat ->
  sourcesStarted (run evs s) /\ uiConsistent (run evs s)
  /\ closuresStale (run evs s) /\ framesSent (run evs s) = 0%nat.
Proof.
  induction evs as [|e evs IH]; intros s (H1 & H2 & H3); cbn.
  - auto.
  - apply IH. split; [|split].
    + apply step_sourcesStarted; assumption.
    + apply step_uiConsistent; assumption.
    + apply step_video; assumption.
Qed.

Lemma reachable_invariant s :
  reachable s ->
  sourcesStarted s /\ uiConsistent s /\ closuresStale s /\ framesSent s = 0%nat.
Proof.
  intros [evs <-]. apply run_invariant. repeat split; try constructor.
  intros _. discriminate.
Qed.

Lemma reachable_step e s : reachable s -> reachable (step e s).
Proof.
  intros [evs <-]. exists (evs ++ [e]). unfold run. rewrite fold_left_app. reflexivity.
Qed.

(** ** Teardown through the callbacks *)

Lemma sameButLogs_emit e a b :
  sameButLogs a b -> sameButLogs (emit e a) (emit e b).
Proof.
  unfold sameButLogs. cbn. intros H. decompose [and] H.
  repeat split; try assumption. destruct (notConsoleError e); congruence.
Qed.

Lemma stopEach_same l : forall a b,
  sameButLogs a b -> sameTeardown (stopEach l a) (stopEach l b).
Proof.
  induction l as [|src rest IH]; intros a b H; cbn [stopEach].
  - exact H.
  - destruct (started src); [|cbn; auto].
    apply IH. apply sameButLogs_emit. exact H.
Qed.

Lemma stopAudioPlayback_same a b :
  sameButLogs a b -> sameTeardown (stopAudioPlayback a) (stopAudioPlayback b).
Proof.
  intros H. unfold stopAudioPlayback.
  assert (Hsrc : sourcesRef a = sourcesRef b) by (unfold sameButLogs in H; tauto).
  rewrite Hsrc. pose proof (stopEach_same (sourcesRef b) a b H) as Hs.
  destruct (stopEach (sourcesRef b) a), (stopEach (sourcesRef b) b); cbn in *;
    try contradiction; [|exact Hs].
  unfold sameButLogs in *. cbn. decompose [and] Hs. repeat split; assumption.
Qed.

Lemma beforeStop_same a b :
  sameButLogs a b -> sameButLogs (beforeStop a) (beforeStop b).
Proof.
  unfold sameButLogs. intros H. decompose [and] H. clear H.
  destruct a, b. cbn in *. subst.
  unfold beforeStop, closeOutput, closeInput, stopTracks, closeSession. cbn.
  repeat (break_match; cbn); repeat split; congruence.
Qed.

Lemma disconnect_same a b :
  sameButLogs a b -> sameTeardown (disconnect a) (disconnect b).
Proof.
  intros H.
  change (disconnect a) with (stopAudioPlayback (beforeStop a)).
  change (disconnect b) with (stopAudioPlayback (beforeStop b)).
  apply stopAudioPlayback_same, beforeStop_same, H.
Qed.

Lemma stopEach_logs l : forall s, logs (final (stopEach l s)) = logs s.
Proof.
  induction l as [|src rest IH]; intros s; cbn [stopEach]; [reflexivity|].
  destruct (started src); [|reflexivity]. rewrite IH. reflexivity.
Qed.

Lemma disconnect_logs s : logs (final (disconnect s)) = logs s.
Proof.
  change (disconnect s) with (stopAudioPlayback (beforeStop s)).
  destruct (beforeStop_frame s) as (_ & _ & _ & <-).
  unfold stopAudioPlayback.
  pose proof (stopEach_logs (sourcesRef (beforeStop s)) (beforeStop s)) as H.
  destruct (stopEach _ _); cbn in *; exact H.
Qed.

(** ** Video capture *)

(** C2, evaluated on the code. The timer callback of [startVideoStreaming]
    tests the [status] of the render that created it, and no [connect] is
    ever clicked in a render whose [status] is [connected]. So in every
    state the panel can reach no frame has been sent, and whichever timer
    fires sends none and is gone afterwards, while [status] stays what it
    was, [connected] included. *)
Theorem video_frames_never_sent (s : State) (id : nat) (w h : Z) (o : SendOutcome) :
  reachable s ->
  framesSent s = 0%nat
  /\ framesSent (tick id w h o s) = 0%nat
  /\ ~ In id (map ivId (intervals (tick id w h o s)))
  /\ status (tick id w h o s) = status s.
Proof.
  intros Hr. destruct (reachable_invariant s Hr) as (_ & _ & Hc & Hf).
  destruct (tick_stale id w h o s Hc) as (_ & H2 & H3 & H4).
  repeat split; try congruence.
  rewrite H3. intros Hin. apply in_map_iff in Hin as (iv & Hid & Hin).
  apply filter_In in Hin as [_ Hne]. subst id. rewrite Nat.eqb_refl in Hne. discriminate.
Qed.

Lemma video_frames_never_sent_witness :
  status liveSession = connected
  /\ map ivId (intervals liveSession) = [0%nat]
  /\ framesSent (tick 0 640 480 SendReturns liveSession) = 0%nat
  /\ intervals (tick 0 640 480 SendReturns liveSession) = []
  /\ status (tick 0 640 480 SendReturns liveSession) = connected.
Proof.
  assert (Hr : reachable liveSession) by (exists liveEvents; exact eq_refl).
  destruct (video_frames_never_sent liveSession 0 640 480 SendReturns Hr)
    as (_ & Hf & _ & _).
  split; [reflexivity|]. split; [reflexivity|]. split; [exact Hf|].
  split; reflexivity.
Defined.

(** ** Interruption, teardown and the cursor *)

(** C3. In every state the panel can reach, [stopAudioPlayback] returns,
    having called [stop] on every source of the set, with the set empty and
    the cursor at zero, however many sources there were. *)
Theorem stopAudioPlayback_resets (s : State) :
  reachable s ->
  exists s', stopAudioPlayback s = Normal s'
    /\ (forall src, In src (sourcesRef s) -> In (EStop (node src)) (effects s'))
    /\ sourcesRef s' = []
    /\ nextStartTimeRef s' = 0.
Proof.
  intros Hr. destruct (reachable_invariant s Hr) as (Hs & _).
  eexists. split; [apply (stopAudioPlayback_started s Hs)|].
  cbn. repeat split.
  intros src Hin. apply in_or_app. left. unfold stops.
  apply in_rev. rewrite rev_involutive.
  apply (in_map (fun x => EStop (node x))). exact Hin.
Qed.

Lemma stopAudioPlayback_resets_witness :
  length (sourcesRef playingSession) = 2%nat
  /\ exists s', stopAudioPlayback playingSession = Normal s'
       /\ (forall src, In src (sourcesRef playingSession) ->
              In (EStop (node src)) (effects s'))
       /\ sourcesRef s' = []
       /\ nextStartTimeRef s' = 0.
Proof.
  split; [reflexivity|].
  apply (stopAudioPlayback_resets playingSession). exists playingEvents. exact eq_refl.
Defined.

Lemma disconnects_started n : forall s,
  sourcesStarted s ->
  exists s', disconnects (S n) s = Normal s'
    /\ status s' = disconnected /\ isConnected s' = false
    /\ sourcesRef s' = [] /\ nextStartTimeRef s' = 0.
Proof.
  induction n as [|n IH]; intros s Hs.
  - cbn [disconnects]. apply disconnect_started. exact Hs.
  - destruct (IH s Hs) as (s1 & H1 & _ & _ & Hsrc & _).
    change (disconnects (S (S n)) s)
      with (match disconnects (S n) s with
            | Normal s1 => disconnect s1
            | Throw e s1 => Throw e s1
            end).
    rewrite H1. apply disconnect_started.
    unfold sourcesStarted. rewrite Hsrc. constructor.
Qed.

(** When one message carries both audio and the interruption flag,
    [playAudio] has only reached its [await] when [stopAudioPlayback] runs:
    the segment of that message is started after the reset, at time zero,
    and is the one source left in the set. *)
Example interrupt_with_audio_in_one_message :
  let s' := final (onmessage (Audio (Some 0.4)) true playingSession) in
  map started (sourcesRef s') = [Some 0]
  /\ nextStartTimeRef s' = 0 + 0.4
  /\ clock s' = 0 + 1.
Proof. vm_compute. repeat split. Qed.

(** C4. From every state the panel can reach, whatever its [status], any
    number of calls of [disconnect] in a row all return without throwing,
    and after each of them the status is [disconnected], the set of sources
    is empty and the cursor is zero. *)
Theorem disconnect_any_number_of_times (s : State) (n : nat) :
  reachable s ->
  exists s', disconnects (S n) s = Normal s'
    /\ status s' = disconnected /\ isConnected s' = false
    /\ sourcesRef s' = [] /\ nextStartTimeRef s' = 0.
Proof.
  intros Hr. apply disconnects_started. apply (reachable_invariant s Hr).
Qed.

Lemma disconnect_any_number_of_times_witness :
  status playingSession = connected
  /\ exists s', disconnects 3 playingSession = Normal s'
       /\ status s' = disconnected /\ isConnected s' = false
       /\ sourcesRef s' = [] /\ nextStartTimeRef s' = 0.
Proof.
  split; [reflexivity|].
  apply (disconnect_any_number_of_times playingSession 2). exists playingEvents. exact eq_refl.
Defined.

Lemma onmessage_interrupting (s : State) (ctx : AudioContext) (d : Q) :
  sourcesStarted s -> outputAudioContextRef s = Some ctx ->
  exists s', onmessage (Audio (Some d)) true s = Normal s'
    /\ sourcesRef s' = [mkSource (fresh s) (Some 0) d]
    /\ nextStartTimeRef s' = 0 + d
    /\ effects s' = EStart (fresh s) 0 d :: stops (sourcesRef s) ++ effects s
    /\ outputAudioContextRef s' = Some ctx.
Proof.
  intros Hs Hctx.
  unfold onmessage, onmessage_rest, playAudio_begin. rewrite Hctx.
  rewrite stopAudioPlayback_started by exact Hs.
  eexists. split; [reflexivity|].
  unfold playAudio_resume. cbn. rewrite Hctx. cbn. auto.
Qed.

Lemma schedule_stops l effs :
  flat_map (fun e => match e with EStart _ w d => [(w, d)] | _ => [] end) (stops l ++ effs)
  = flat_map (fun e => match e with EStart _ w d => [(w, d)] | _ => [] end) effs.
Proof.
  rewrite flat_map_app. unfold stops.
  assert (H : forall m : list Effect,
             Forall (fun e => match e with EStop _ => True | _ => False end) m ->
             flat_map (fun e => match e with EStart _ w d => [(w, d)] | _ => [] end) m = []).
  { induction m as [|e m IH]; intros Hm; [reflexivity|].
    inversion Hm as [|? ? He Hrest]; subst. cbn [flat_map]. rewrite (IH Hrest).
    destruct e; try contradiction. reflexivity. }
  rewrite H; [reflexivity|].
  apply List.Forall_forall. intros e He. apply in_rev in He.
  apply in_map_iff in He as (src & <- & _). exact I.
Qed.

(** C5, as the specification states it, fails: with two segments playing
    and the clock at one second the cursor is above both the clock and the
    end of the last segment, and [stopAudioPlayback] puts it back to zero,
    below both. *)
Lemma cursorInvariant_broken_by_stop :
  cursorInvariant playingSession
  /\ ~ cursorInvariant (final (stopAudioPlayback playingSession)).
Proof.
  split.
  - split; vm_compute; discriminate.
  - intros [H _]. vm_compute in H. apply H. reflexivity.
Qed.

(** C5, amended. Whatever ran while the audio was being decoded, [playAudio]
    starts the segment at the cursor it finds when it resumes and leaves the
    cursor at the end of that segment. When nothing ran in between, in a
    reachable state with its output context in place and for a buffer of
    non-negative duration, that start is the larger of the cursor and the
    clock found by the call, so no earlier than either, and the cursor is
    left not below the clock. [stopAudioPlayback] and [disconnect] leave the
    cursor at zero while the clock stays; and when [stopAudioPlayback] runs
    during the decoding, as it does for a message that carries audio and the
    interruption flag, the segment is started at zero and the cursor left at
    its duration, the clock being what it was. *)
Theorem cursor_after_each_operation (s : State) (ctx : AudioContext) (d : Q) :
  reachable s -> outputAudioContextRef s = Some ctx -> 0 <= d ->
  let start := Qmax (nextStartTimeRef s) (currentTime ctx) in
  let interrupted := final (onmessage (Audio (Some d)) true s) in
  (forall s' ctx', outputAudioContextRef s' = Some ctx' ->
     schedule (playAudio_resume d s') = schedule s' ++ [(nextStartTimeRef s', d)]
     /\ nextStartTimeRef (playAudio_resume d s') = nextStartTimeRef s' + d
     /\ lastEnd (playAudio_resume d s') = nextStartTimeRef (playAudio_resume d s'))
  /\ clock s <= start /\ nextStartTimeRef s <= start
  /\ schedule (playAudio (Some d) s) = schedule s ++ [(start, d)]
  /\ nextStartTimeRef (playAudio (Some d) s) = start + d
  /\ cursorInvariant (playAudio (Some d) s)
  /\ nextStartTimeRef (final (stopAudioPlayback s)) = 0
  /\ clock (final (stopAudioPlayback s)) = clock s
  /\ nextStartTimeRef (final (disconnect s)) = 0
  /\ schedule interrupted = schedule s ++ [(0, d)]
  /\ nextStartTimeRef interrupted = 0 + d
  /\ clock interrupted = clock s.
Proof.
  intros Hr Hctx Hd start interrupted.
  destruct (reachable_invariant s Hr) as (Hs & _).
  destruct (playAudio_fields d s ctx Hctx) as (He & Hn & Hc & _).
  fold start in He, Hn.
  assert (Hclock : clock s = currentTime ctx) by (unfold clock; rewrite Hctx; reflexivity).
  split.
  { intros s' ctx' Hctx'.
    destruct (playAudio_resume_fields d s' ctx' Hctx') as (He' & Hn' & _).
    unfold schedule, lastEnd. rewrite He', Hn'. cbn. auto. }
  split; [rewrite Hclock; apply Q.le_max_r|].
  split; [apply Q.le_max_l|].
  split; [unfold schedule; rewrite He; reflexivity|].
  split; [exact Hn|].
  split; [|split; [|split; [|split]]].
  - unfold cursorInvariant, clock, lastEnd. rewrite Hc, Hn, He. cbn. split.
    + pose proof (Q.le_max_r (nextStartTimeRef s) (currentTime ctx)) as Hle.
      fold start in Hle. lra.
    + apply Qle_refl.
  - rewrite (stopAudioPlayback_started s Hs). reflexivity.
  - rewrite (stopAudioPlayback_started s Hs). reflexivity.
  - destruct (disconnect_started s Hs) as (s' & -> & _ & _ & _ & H0). exact H0.
  - subst interrupted.
    destruct (onmessage_interrupting s ctx d Hs Hctx) as (s' & -> & _ & Hn' & He' & Hc').
    cbn [final]. split; [|split; [exact Hn'|]].
    + unfold schedule. rewrite He'. cbn [flat_map app rev].
      rewrite schedule_stops. reflexivity.
    + unfold clock. rewrite Hc', Hctx. reflexivity.
Qed.

Lemma cursor_after_each_operation_witness :
  cursorInvariant (playAudio (Some 0.4) playingSession)
  /\ nextStartTimeRef (final (stopAudioPlayback playingSession)) = 0
  /\ nextStartTimeRef (final (onmessage (Audio (Some 0.4)) true playingSession)) = 0 + 0.4
  /\ clock (final (onmessage (Audio (Some 0.4)) true playingSession)) = 0 + 1.
Proof.
  assert (Hr : reachable playingSession) by (exists playingEvents; exact eq_refl).
  assert (Hd : 0 <= 0.4) by (vm_compute; discriminate).
  destruct (cursor_after_each_operation playingSession (mkCtx 24000 (0 + 1) false) 0.4
              Hr eq_refl Hd) as (_ & _ & _ & _ & _ & Hi & H0 & _ & _ & _ & Hn & Hc).
  split; [exact Hi|]. split; [exact H0|]. split; [exact Hn | exact Hc].
Defined.

(** ** The close and error callbacks *)

(** C6. [onclose] and [onerror] perform the teardown of [disconnect]: each
    writes its log line (and [onerror] the error to the console) and then
    calls [disconnect]. From every state they return or throw as
    [disconnect] does and end in a state that agrees with the one
    [disconnect] ends in on every field and every call to the outside; the
    log line the callback wrote (and, for [onerror], its call of
    [console.error]) is all that tells the two apart. *)
Theorem onclose_onerror_teardown (s : State) :
  sameTeardown (onclose s) (disconnect s)
  /\ sameTeardown (onerror s) (disconnect s)
  /\ logs (final (disconnect s)) = logs s
  /\ logs (final (onclose s)) = firstn 5 ("Session Closed"%string :: logs s)
  /\ logs (final (onerror s))
     = firstn 5 ("Session Error (check console)"%string :: logs s).
Proof.
  split; [|split; [|split; [|split]]].
  - apply disconnect_same. unfold sameButLogs. cbn. repeat split.
  - apply disconnect_same. unfold sameButLogs. cbn. repeat split.
  - apply disconnect_logs.
  - unfold onclose. rewrite disconnect_logs. reflexivity.
  - unfold onerror. rewrite disconnect_logs. reflexivity.
Qed.

(** ** The audio callback *)

(** C7. The audio callback returns normally whatever the send does. It
    leaves the connection state, the cursor, the sources and every other
    part of the state but the record of outside calls as they were; when the
    send throws, all that is left of it is a rejected promise nobody holds,
    and no teardown runs. *)
Theorem onaudioprocess_swallows_send_failure (s : State) (inputData : list Q)
    (o : SendOutcome) :
  (exists s', onaudioprocess inputData o s = Normal s'
     /\ s' = setEffects (effects s') s
     /\ status s' = status s /\ isConnected s' = isConnected s
     /\ nextStartTimeRef s' = nextStartTimeRef s
     /\ sourcesRef s' = sourcesRef s)
  /\ (effects (final (onaudioprocess inputData SendThrows s)) = effects s
      \/ effects (final (onaudioprocess inputData SendThrows s))
         = EUnhandledRejection :: effects s).
Proof.
  split.
  - eexists. split; [reflexivity|].
    unfold sendRealtimeInput. destruct s. cbn.
    repeat (break_match; cbn); auto.
  - unfold onaudioprocess, sendRealtimeInput. cbn.
    repeat (break_match; cbn); auto.
Qed.

(** ** More on the session manager *)

Lemma addLog_length msg s : (length (logs (addLog msg s)) <= 5)%nat.
Proof. unfold addLog. cbn [logs setLogs]. apply firstn_le_length. Qed.

Lemma stopEach_refs l : forall s,
  let s' := final (stopEach l s) in
  streamRef s' = streamRef s
  /\ inputAudioContextRef s' = inputAudioContextRef s
  /\ outputAudioContextRef s' = outputAudioContextRef s
  /\ logs s' = logs s.
Proof.
  induction l as [|src rest IH]; intros s; cbn [stopEach].
  - cbn. auto.
  - destruct (started src); [|cbn; auto].
    destruct (IH (emit (EStop (node src)) s)) as (H1 & H2 & H3 & H4). cbn in *. auto.
Qed.

Lemma stopAudioPlayback_refs s :
  let s' := final (stopAudioPlayback s) in
  streamRef s' = streamRef s
  /\ inputAudioContextRef s' = inputAudioContextRef s
  /\ outputAudioContextRef s' = outputAudioContextRef s
  /\ logs s' = logs s.
Proof.
  unfold stopAudioPlayback.
  pose proof (stopEach_refs (sourcesRef s) s) as H. cbv zeta in H.
  destruct (stopEach (sourcesRef s) s); cbn in *; exact H.
Qed.

Lemma playAudio_resume_logs d s : logs (playAudio_resume d s) = logs s.
Proof. unfold playAudio_resume. cbn. repeat (break_match; cbn); auto. Qed.

Lemma onmessage_rest_logs audio interrupted s :
  (length (logs s) <= 5)%nat ->
  (length (logs (final (onmessage_rest audio interrupted s))) <= 5)%nat.
Proof.
  intros H. unfold onmessage_rest.
  set (p := match audio with
            | None => (s, None)
            | Some decoded =>
                match playAudio_begin s with
                | None => (s, None)
                | Some s' => (s', Some decoded)
                end
            end).
  assert (Hp : logs (fst p) = logs s).
  { subst p. unfold playAudio_begin.
    destruct audio; [destruct (outputAudioContextRef s)|]; reflexivity. }
  destruct p as [s1 pending]. cbn [fst] in Hp.
  set (c := if interrupted then stopAudioPlayback (addLog "Interrupted by user" s1)
            else Normal s1).
  assert (Hc : (length (logs (final c)) <= 5)%nat).
  { subst c. destruct interrupted; [|cbn; rewrite Hp; exact H].
    destruct (stopAudioPlayback_refs (addLog "Interrupted by user" s1)) as (_ & _ & _ & ->).
    apply addLog_length. }
  destruct c as [s2|e s2]; cbn [final] in *; [|exact Hc].
  destruct pending as [[d|]|]; [rewrite playAudio_resume_logs| |]; exact Hc.
Qed.

Lemma step_logs e s :
  (length (logs s) <= 5)%nat -> (length (logs (step e s)) <= 5)%nat.
Proof.
  intros H. destruct e; cbn [step].
  - destruct (isConnected s).
    + rewrite disconnect_logs. exact H.
    + unfold connect. destruct gum, sess; cbn [logs setStatus setSessionPromise setSessions];
        apply addLog_length.
  - destruct (nth_error (sessions s) k) as [r|]; [|exact H].
    replace (logs (onopen r ctx2d s)) with (logs (addLog "Session Connected!" s)) by frame.
    apply addLog_length.
  - destruct payload as [| |decoded]; cbn [onmessage];
      [exact H | apply onmessage_rest_logs, H | apply onmessage_rest_logs, H].
  - unfold onclose. rewrite disconnect_logs. apply addLog_length.
  - unfold onerror. rewrite disconnect_logs. apply addLog_length.
  - cbn. replace (logs (sendRealtimeInput (Pcm inputData) o s)) with (logs s) by frame. exact H.
  - replace (logs (tick id width height o s)) with (logs s) by frame. exact H.
  - exact H.
  - replace (logs (advance dt s)) with (logs s) by frame. exact H.
Qed.

(** X1. The panel never holds more than five log lines, whatever happens:
    [addLog] keeps the newest five. *)
Theorem logs_at_most_five (s : State) :
  reachable s -> (length (logs s) <= 5)%nat.
Proof.
  intros [evs <-]. unfold run.
  assert (H : (length (logs init) <= 5)%nat) by (cbn; lia).
  revert H. generalize init. induction evs as [|e evs IH]; intros s H; cbn.
  - exact H.
  - apply IH, step_logs, H.
Qed.

Lemma logs_at_most_five_witness :
  (length (logs (run (playingEvents ++ [Close; Error; Close]) init)) <= 5)%nat.
Proof.
  apply (logs_at_most_five (run (playingEvents ++ [Close; Error; Close]) init)).
  exists (playingEvents ++ [Close; Error; Close]). exact eq_refl.
Defined.

(** X2. In every state the panel can reach, the close and error callbacks
    complete normally, and so does the message handler on every message but
    one: on a model turn that has no [parts] its first line throws a
    [TypeError], so the promise the handler returns is rejected and the rest
    of its body is not run; an interruption flagged on such a message stops
    nothing. *)
Theorem handlers_completion (s : State) (payload : Payload) (interrupted : bool) :
  reachable s ->
  (payload <> NoParts -> exists s', onmessage payload interrupted s = Normal s')
  /\ onmessage NoParts interrupted s = Throw TypeError s
  /\ (exists s', onclose s = Normal s')
  /\ (exists s', onerror s = Normal s').
Proof.
  intros Hr. destruct (reachable_invariant s Hr) as (Hs & _).
  split; [|split; [reflexivity|split]].
  - assert (Hrest : forall audio, exists s', onmessage_rest audio interrupted s = Normal s').
    { intros audio. unfold onmessage_rest.
      set (p := match audio with
                | None => (s, None)
                | Some decoded =>
                    match playAudio_begin s with
                    | None => (s, None)
                    | Some s' => (s', Some decoded)
                    end
                end).
      assert (Hp : sourcesRef (fst p) = sourcesRef s).
      { subst p. unfold playAudio_begin.
        destruct audio; [destruct (outputAudioContextRef s)|]; reflexivity. }
      destruct p as [s1 pending]. cbn [fst] in Hp.
      destruct interrupted; [|eexists; reflexivity].
      rewrite stopAudioPlayback_started; [eexists; reflexivity|].
      unfold sourcesStarted. cbn. rewrite Hp. exact Hs. }
    intros Hne. destruct payload as [| |decoded]; [congruence | apply Hrest | apply Hrest].
  - unfold onclose.
    destruct (disconnect_started (addLog "Session Closed" s)) as (s' & H & _);
      [exact Hs | eauto].
  - unfold onerror.
    destruct (disconnect_started
                (addLog "Session Error (check console)" (emit EConsoleError s)))
      as (s' & H & _); [exact Hs | eauto].
Qed.

Lemma handlers_completion_witness :
  (exists s', onmessage (Audio (Some 0.4)) true playingSession = Normal s')
  /\ onmessage NoParts true playingSession = Throw TypeError playingSession
  /\ sourcesRef (final (onmessage NoParts true playingSession)) = sourcesRef playingSession
  /\ (exists s', onclose playingSession = Normal s')
  /\ (exists s', onerror playingSession = Normal s').
Proof.
  assert (Hr : reachable playingSession) by (exists playingEvents; exact eq_refl).
  destruct (handlers_completion playingSession (Audio (Some 0.4)) true Hr)
    as (H1 & H2 & H3 & H4).
  split; [apply H1; discriminate|]. split; [exact H2|].
  split; [rewrite H2; reflexivity|]. split; [exact H3 | exact H4].
Defined.




(** X4. When one message carries both audio and the interruption flag,
    [playAudio] is suspended at its [await] while [stopAudioPlayback] runs:
    the sources that were playing are stopped, and the segment of the
    message itself is then started at time zero and is the only source left
    in the set, with the cursor at its duration. *)
Theorem interrupting_message_with_audio (s : State) (ctx : AudioContext) (d : Q) :
  reachable s -> outputAudioContextRef s = Some ctx ->
  exists s', onmessage (Audio (Some d)) true s = Normal s'
    /\ sourcesRef s' = [mkSource (fresh s) (Some 0) d]
    /\ nextStartTimeRef s' = 0 + d
    /\ effects s' = EStart (fresh s) 0 d :: stops (sourcesRef s) ++ effects s.
Proof.
  intros Hr Hctx.
  destruct (onmessage_interrupting s ctx d (proj1 (reachable_invariant s Hr)) Hctx)
    as (s' & H1 & H2 & H3 & H4 & _).
  exists s'. auto.
Qed.

Lemma interrupting_message_with_audio_witness :
  exists s', onmessage (Audio (Some 0.4)) true playingSession = Normal s'
    /\ sourcesRef s' = [mkSource (fresh playingSession) (Some 0) 0.4]
    /\ nextStartTimeRef s' = 0 + 0.4
    /\ effects s' = EStart (fresh playingSession) 0 0.4
                     :: stops (sourcesRef playingSession) ++ effects playingSession.
Proof.
  apply (interrupting_message_with_audio playingSession (mkCtx 24000 (0 + 1) false) 0.4).
  - exists playingEvents. exact eq_refl.
  - exact eq_refl.
Defined.

Lemma Forall_map_false (tracks : list bool) :
  Forall (fun live => live = false) (map (fun _ : bool => false) tracks).
Proof. induction tracks; cbn; constructor; auto. Qed.

Lemma beforeStop_refs s :
  streamRef (beforeStop s) = option_map (map (fun _ => false)) (streamRef s)
  /\ inputAudioContextRef (beforeStop s) = option_map closeCtx (inputAudioContextRef s)
  /\ outputAudioContextRef (beforeStop s) = option_map closeCtx (outputAudioContextRef s).
Proof.
  unfold beforeStop, closeOutput, closeInput, stopTracks, closeSession.
  destruct s as [ic st lg vr cr ictx octx str sp nx srcs ap ivs ss fr ef]. cbn.
  destruct sp as [[]|], str as [tracks|], ictx as [ci|], octx as [co|]; cbn;
    repeat (break_match; cbn); auto.
Qed.

Lemma disconnect_refs s :
  streamRef (final (disconnect s)) = option_map (map (fun _ => false)) (streamRef s)
  /\ inputAudioContextRef (final (disconnect s))
     = option_map closeCtx (inputAudioContextRef s)
  /\ outputAudioContextRef (final (disconnect s))
     = option_map closeCtx (outputAudioContextRef s).
Proof.
  change (disconnect s) with (stopAudioPlayback (beforeStop s)).
  destruct (stopAudioPlayback_refs (beforeStop s)) as (-> & -> & -> & _).
  apply beforeStop_refs.
Qed.

Lemma released_of_refs s s' :
  streamRef s' = option_map (map (fun _ => false)) (streamRef s) ->
  inputAudioContextRef s' = option_map closeCtx (inputAudioContextRef s) ->
  outputAudioContextRef s' = option_map closeCtx (outputAudioContextRef s) ->
  released s'.
Proof.
  unfold released. intros -> -> ->.
  destruct (streamRef s), (inputAudioContextRef s), (outputAudioContextRef s); cbn;
    repeat split; auto using Forall_map_false.
Qed.

(** X5. However it is reached, through the button or through the close or
    error callback, and from whatever state, the teardown leaves every
    media track stopped and both audio contexts closed. *)
Theorem teardown_releases_media (s : State) :
  released (final (disconnect s))
  /\ released (final (onclose s))
  /\ released (final (onerror s)).
Proof.
  split; [|split].
  - destruct (disconnect_refs s) as (H1 & H2 & H3).
    exact (released_of_refs s _ H1 H2 H3).
  - unfold onclose.
    destruct (disconnect_refs (addLog "Session Closed" s)) as (H1 & H2 & H3).
    exact (released_of_refs _ _ H1 H2 H3).
  - unfold onerror.
    destruct (disconnect_refs (addLog "Session Error (check console)" (emit EConsoleError s)))
      as (H1 & H2 & H3).
    exact (released_of_refs _ _ H1 H2 H3).
Qed.

Lemma beforeStop_state s :
  beforeStop s
  = mkState false disconnected (logs s) (videoRef s) (canvasRef s)
      (option_map closeCtx (inputAudioContextRef s))
      (option_map closeCtx (outputAudioContextRef s))
      (option_map (map (fun _ => false)) (streamRef s))
      (sessionPromiseRef s) (nextStartTimeRef s) (sourcesRef s)
      (audioProcessors s) (intervals s) (sessions s) (fresh s)
      (teardownCalls s ++ effects s).
Proof.
  destruct s as [ic st lg vr cr ictx octx str sp nx srcs ap ivs ss fr ef].
  unfold beforeStop, closeOutput, closeInput, stopTracks, closeSession, teardownCalls.
  destruct sp as [[]|], str as [tracks|], ictx as [[ri ti []]|], octx as [[ro to []]|];
    reflexivity.
Qed.

Lemma teardownCalls_kinds s :
  Forall (fun e => e = ESessionClose \/ e = EUnhandledRejection) (teardownCalls s).
Proof.
  unfold teardownCalls.
  destruct (outputAudioContextRef s) as [[? ? []]|], (inputAudioContextRef s) as [[? ? []]|],
    (sessionPromiseRef s) as [[]|]; cbn;
    repeat first [ apply List.Forall_nil | apply List.Forall_cons; [auto|] ].
Qed.

(** X6. [disconnect] is idempotent on the state of the panel: in a
    reachable state, a second [disconnect] right after a first one changes
    nothing but the record of outside calls (it asks the session to close
    again and closes contexts that are closed already). *)
Theorem disconnect_twice_changes_nothing (s : State) :
  reachable s ->
  exists s1 s2,
    disconnect s = Normal s1 /\ disconnect s1 = Normal s2
    /\ s2 = setEffects (effects s2) s1
    /\ exists extra,
         effects s2 = extra ++ effects s1
         /\ Forall (fun e => e = ESessionClose \/ e = EUnhandledRejection) extra.
Proof.
  intros Hr. destruct (reachable_invariant s Hr) as (Hs & _).
  assert (H1 : disconnect s
               = Normal (setNextStartTime 0 (setSources []
                   (setEffects (stops (sourcesRef s) ++ teardownCalls s ++ effects s)
                      (beforeStop s))))).
  { change (disconnect s) with (stopAudioPlayback (beforeStop s)).
    rewrite stopAudioPlayback_started.
    - rewrite beforeStop_state. reflexivity.
    - unfold sourcesStarted. rewrite beforeStop_state. exact Hs. }
  rewrite H1. eexists. eexists. split; [reflexivity|].
  rewrite beforeStop_state. cbn.
  match goal with |- disconnect ?x = _ /\ _ => set (s1 := x) end.
  assert (H2 : disconnect s1
               = Normal (setNextStartTime 0 (setSources []
                   (setEffects (teardownCalls s1 ++ effects s1) (beforeStop s1))))).
  { change (disconnect s1) with (stopAudioPlayback (beforeStop s1)).
    rewrite stopAudioPlayback_started.
    - rewrite beforeStop_state. reflexivity.
    - unfold sourcesStarted. rewrite beforeStop_state. constructor. }
  split; [exact H2|]. rewrite beforeStop_state. split.
  - subst s1. clear. cbn.
    destruct (inputAudioContextRef s), (outputAudioContextRef s), (streamRef s); cbn;
      rewrite ?map_map; reflexivity.
  - exists (teardownCalls s1). split; [reflexivity | apply teardownCalls_kinds].
Qed.

Lemma disconnect_twice_changes_nothing_witness :
  exists s1 s2,
    disconnect playingSession = Normal s1 /\ disconnect s1 = Normal s2
    /\ s2 = setEffects (effects s2) s1
    /\ exists extra,
         effects s2 = extra ++ effects s1
         /\ Forall (fun e => e = ESessionClose \/ e = EUnhandledRejection) extra.
Proof.
  apply (disconnect_twice_changes_nothing playingSession).
  exists playingEvents. exact eq_refl.
Defined.

(** X7. When [getUserMedia] rejects, or when opening the session throws,
    [connect] ends in [disconnected] with the error on top of the log,
    registers no session and leaves the session promise and [isConnected]
    as they were. The two audio contexts it created first stay open, and in
    the second case the media stream just acquired stays live: nothing in
    the [catch] branch releases them. *)
Theorem connect_failure (s : State) (message : string)
    (stream : MediaStream) (sess : SessionPromise + string) :
  let kept s' :=
    isConnected s' = isConnected s /\ sessions s' = sessions s
    /\ sessionPromiseRef s' = sessionPromiseRef s
    /\ inputAudioContextRef s' = Some (mkCtx 16000 0 false)
    /\ outputAudioContextRef s' = Some (mkCtx 24000 0 false) in
  (status (connect (inr message) sess s) = disconnected
   /\ kept (connect (inr message) sess s)
   /\ streamRef (connect (inr message) sess s) = streamRef s)
  /\ (status (connect (inl stream) (inr message) s) = disconnected
      /\ kept (connect (inl stream) (inr message) s)
      /\ streamRef (connect (inl stream) (inr message) s) = Some stream)
  /\ hd_error (logs (connect (inr message) sess s)) = Some (String.append "Error: " message)
  /\ hd_error (logs (connect (inl stream) (inr message) s))
     = Some (String.append "Error: " message).
Proof.
  cbv zeta. unfold connect. cbn. repeat split.
Qed.

Lemma Qmax_absorb (c n : Q) : Qmax (Qmax c n) n = Qmax c n.
Proof.
  unfold Qmax, GenericMinMax.gmax.
  destruct (c ?= n) eqn:E; rewrite ?E; try reflexivity.
  replace (n ?= n) with Eq; [reflexivity|].
  symmetry. apply Qeq_alt. reflexivity.
Qed.

(** X8. A segment whose decoding fails is not scheduled and not tracked;
    it only lifts the cursor to the clock. The segment that comes next is
    scheduled exactly as if the failed one had never arrived. *)
Theorem failed_decode_keeps_schedule (s : State) (ctx : AudioContext) (d : Q) :
  outputAudioContextRef s = Some ctx ->
  schedule (playAudio None s) = schedule s
  /\ sourcesRef (playAudio None s) = sourcesRef s
  /\ nextStartTimeRef (playAudio None s) = Qmax (nextStartTimeRef s) (currentTime ctx)
  /\ schedule (playAudio (Some d) (playAudio None s)) = schedule (playAudio (Some d) s)
  /\ nextStartTimeRef (playAudio (Some d) (playAudio None s))
     = nextStartTimeRef (playAudio (Some d) s)
  /\ sourcesRef (playAudio (Some d) (playAudio None s)) = sourcesRef (playAudio (Some d) s).
Proof.
  intros Hctx.
  assert (H1 : playAudio None s
               = emit EUnhandledRejection
                   (setNextStartTime (Qmax (nextStartTimeRef s) (currentTime ctx)) s)).
  { unfold playAudio, playAudio_begin. rewrite Hctx. reflexivity. }
  rewrite H1. split; [reflexivity|]. split; [reflexivity|]. split; [reflexivity|].
  unfold playAudio, playAudio_begin. cbn. rewrite Hctx.
  unfold playAudio_resume. cbn. rewrite Hctx. cbn. rewrite Qmax_absorb.
  destruct (existsb _ _); cbn; auto.
Qed.

Lemma failed_decode_keeps_schedule_witness :
  schedule (playAudio None playingSession) = schedule playingSession
  /\ schedule (playAudio (Some 0.4) (playAudio None playingSession))
     = schedule (playAudio (Some 0.4) playingSession).
Proof.
  destruct (failed_decode_keeps_schedule playingSession (mkCtx 24000 (0 + 1) false) 0.4
              eq_refl) as (H1 & _ & _ & H2 & _).
  split; [exact H1 | exact H2].
Defined.

(** X9. The status reads [connected] only while [isConnected] is set: the
    live badge is never shown next to a button that offers to connect. *)
Theorem connected_status_implies_isConnected (s : State) :
  reachable s -> status s = connected -> isConnected s = true.
Proof.
  intros Hr Hst. destruct (reachable_invariant s Hr) as (_ & Hui & _).
  destruct (isConnected s) eqn:E; [reflexivity|].
  exfalso. exact (Hui E Hst).
Qed.

Lemma connected_status_implies_isConnected_witness : isConnected liveSession = true.
Proof.
  apply (connected_status_implies_isConnected liveSession).
  - exists liveEvents. exact eq_refl.
  - exact eq_refl.
Defined.

End LiveFacts.

(* ===================================================================== *)
(** * Properties of the chat panel *)
(* ===================================================================== *)

Module ChatFacts.

Import Chat.

Lemma buildRequest_parts modelType message history images videos think instr :
  reqParts (buildRequest modelType message history images videos think instr)
  = TextPart message
      :: map (fun img => InlineData "image/jpeg" img) images
      ++ map (fun vid => InlineData "video/mp4" vid) videos.
Proof.
  unfold buildRequest. destruct think; [reflexivity|].
  destruct (isFlashSearch modelType); reflexivity.
Qed.

(** C8. [sendChatMessage] does not look at [history]: with the other
    arguments and the remote endpoint the same, two histories give the same
    request and the same result, and the parts of the request are the
    message followed by the images and the videos. *)
Theorem sendChatMessage_ignores_history
    (generateContent : Request -> Response + string)
    (modelType : ChatModelType) (message : string)
    (history1 history2 : list ChatMessage) (images videos : list string)
    (isThinkingMode : bool) (systemInstruction : option string) :
  buildRequest modelType message history1 images videos isThinkingMode systemInstruction
  = buildRequest modelType message history2 images videos isThinkingMode systemInstruction
  /\ sendChatMessage generateContent modelType message history1 images videos
                     isThinkingMode systemInstruction
     = sendChatMessage generateContent modelType message history2 images videos
                       isThinkingMode systemInstruction
  /\ reqParts (buildRequest modelType message history1 images videos
                            isThinkingMode systemInstruction)
     = TextPart message
         :: map (fun img => InlineData "image/jpeg" img) images
         ++ map (fun vid => InlineData "video/mp4" vid) videos.
Proof.
  split; [reflexivity|]. split; [reflexivity|]. apply buildRequest_parts.
Qed.

Lemma onModeChange_atMostOne s : atMostOne (onModeChange s).
Proof. unfold atMostOne. destruct s as [? ? []]; cbn; lia. Qed.

Lemma click_atMostOne b s : atMostOne s -> atMostOne (click b s).
Proof.
  unfold atMostOne. destruct s as [[] [] []], b; cbn; lia.
Qed.

(** C9. Starting with at most one of the three flags set, every click of
    Reasoning, Search or Fast, and every series of such clicks, leaves at
    most one flag set: a click flips its own flag, turning it on clears the
    other two, and turning it off leaves all three off. *)
Theorem toggles_mutually_exclusive (s : Settings) (b : Button) (bs : list Button) :
  atMostOne s ->
  atMostOne (click b s)
  /\ atMostOne (clicks bs s)
  /\ flag b (click b s) = negb (flag b s)
  /\ (forall b', b' <> b -> flag b' (click b s) = false).
Proof.
  intros H. split; [apply click_atMostOne, H|]. split; [|split].
  - revert s H. induction bs as [|b0 bs IH]; intros s H; cbn.
    + exact H.
    + apply IH, click_atMostOne, H.
  - destruct s as [[] [] []], b; reflexivity.
  - unfold atMostOne in H. intros b' Hne.
    destruct s as [[] [] []], b, b'; cbn in *; try reflexivity; try congruence; lia.
Qed.

Lemma toggles_mutually_exclusive_witness :
  click Reasoning (mkSettings true false false) = mkSettings false true false
  /\ atMostOne (click Reasoning (mkSettings true false false))
  /\ atMostOne (clicks [Search; Fast; Fast; Reasoning] (mkSettings true false false)).
Proof.
  assert (H : atMostOne (mkSettings true false false)) by (unfold atMostOne; cbn; lia).
  destruct (toggles_mutually_exclusive (mkSettings true false false) Reasoning
              [Search; Fast; Fast; Reasoning] H) as (H1 & H2 & _).
  split; [reflexivity|]. split; [exact H1 | exact H2].
Defined.

(** ** The panel *)

Lemma lookup_last {A} (l : list A) (x : A) : (l ++ [x]) !! length l = Some x.
Proof. apply list_lookup_middle. reflexivity. Qed.

Lemma delete_last {A} (l : list A) (x : A) : delete (length l) (l ++ [x]) = l.
Proof. rewrite delete_middle. apply app_nil_r. Qed.

Section Panel.

Variable trim : string -> string.

Lemma handleSend_blocked now p :
  sendBlocked trim p = true -> handleSend trim now p = p.
Proof. unfold handleSend. intros ->. reflexivity. Qed.

Lemma panelStep_settings e p :
  atMostOne (settings p) -> atMostOne (settings (panelStep trim e p)).
Proof.
  intros H. destruct e; cbn [panelStep]; try exact H.
  - apply click_atMostOne, H.
  - unfold handleSend. destruct (sendBlocked trim p); [exact H|].
    destruct (selectedFile p); exact H.
  - unfold handleSend_encoded. destruct (reading p !! i) as [r|]; [|exact H].
    destruct encoded; [destruct (rSelectedFile r)|]; exact H.
  - unfold handleSend_finish. destruct (inflight p !! i); exact H.
  - unfold switchMode. destruct (sameMode (mode p) m); [exact H|].
    destruct (showsChat (mode p) && showsChat m); cbn.
    + apply onModeChange_atMostOne.
    + unfold atMostOne. cbn. lia.
  - unfold detachedEncoded. destruct (detachedReading p !! i); exact H.
Qed.

Lemma panelReachable_invariant p :
  panelReachable trim p -> atMostOne (settings p).
Proof.
  intros (m & evs & <-). unfold panelRun.
  assert (H : atMostOne (settings (initialPanel m))) by (unfold atMostOne; cbn; lia).
  revert H. generalize (initialPanel m).
  induction evs as [|e evs IH]; intros p H; cbn; [exact H|].
  apply IH, panelStep_settings, H.
Qed.

(** X11. In every panel the user can bring about, by any series of clicks
    on the three buttons, sends, replies and changes of mode, at most one of
    Search, Reasoning and Fast is set. *)
Theorem panel_flags_exclusive (p : Panel) :
  panelReachable trim p -> atMostOne (settings p).
Proof. intros Hr. apply (panelReachable_invariant p Hr). Qed.

Lemma systemInstruction_truthy m :
  truthy (Some (cfgSystemInstruction (getModeConfig m))) = true.
Proof. destruct m; reflexivity. Qed.

Lemma buildRequest_config modelType message history images videos think instr :
  truthy (Some instr) = true ->
  let req := buildRequest modelType message history images videos think (Some instr) in
  systemInstruction (reqConfig req) = Some instr
  /\ thinkingBudget (reqConfig req) = (if think then Some 32768%Z else None)
  /\ googleSearch (reqConfig req) = negb think && isFlashSearch modelType
  /\ reqModel req = (if think then "gemini-3-pro-preview"%string else modelString modelType).
Proof.
  intros Ht. unfold buildRequest. rewrite Ht.
  destruct think; [cbn; auto|]. destruct (isFlashSearch modelType); cbn; auto.
Qed.

Lemma handleSend_encoded_at (r : Render) (f : File) (b : string) (now : Z)
    (q : Panel) (l l' : list Render) :
  reading q = l ++ r :: l' -> rSelectedFile r = Some f ->
  handleSend_encoded (length l) (Some b) now q
  = handleSend_post r (Some b) (fileKind f) now
      (mkPanel (messages q) (input q) (isLoading q) (selectedFile q) (settings q)
               (mode q) (inflight q) (l ++ l') (detached q) (detachedReading q)).
Proof.
  intros Hq Hf. unfold handleSend_encoded.
  rewrite Hq, (list_lookup_middle l l' r (length l) eq_refl), delete_middle, Hf.
  reflexivity.
Qed.

Lemma handleSend_encoded_last (r : Render) (f : File) (b : string) (now : Z)
    (q : Panel) (l : list Render) :
  reading q = l ++ [r] -> rSelectedFile r = Some f ->
  handleSend_encoded (length l) (Some b) now q
  = handleSend_post r (Some b) (fileKind f) now
      (mkPanel (messages q) (input q) (isLoading q) (selectedFile q) (settings q)
               (mode q) (inflight q) l (detached q) (detachedReading q)).
Proof.
  intros Hq Hf. rewrite (handleSend_encoded_at r f b now q l [] Hq Hf), app_nil_r.
  reflexivity.
Qed.

Lemma handleSend_suspends (now : Z) (q : Panel) (f : File) :
  sendBlocked trim q = false -> selectedFile q = Some f ->
  handleSend trim now q
  = mkPanel (messages q) (input q) (isLoading q) (selectedFile q) (settings q)
            (mode q) (inflight q) (reading q ++ [render q])
            (detached q) (detachedReading q).
Proof. intros Hb Hf. unfold handleSend. rewrite Hb, Hf. reflexivity. Qed.

Lemma begin_goes_ahead p encoded now :
  goesAhead trim p encoded ->
  exists base64File fileType,
    handleSend_begin trim encoded now p
    = handleSend_post (render p) base64File fileType now p.
Proof.
  intros [Hb Hf]. unfold handleSend_begin, handleSend. rewrite Hb.
  destruct (selectedFile p) as [f|] eqn:E.
  - destruct encoded as [b|]; [|destruct Hf; congruence].
    erewrite (handleSend_encoded_last (render p) f b now); [|reflexivity|exact E].
    exists (Some b), (fileKind f). reflexivity.
  - eauto.
Qed.

Lemma handleSend_begin_run p encoded now :
  exists evs, handleSend_begin trim encoded now p = panelRun trim evs p.
Proof.
  unfold handleSend_begin. destruct (sendBlocked trim p); [exists []; reflexivity|].
  destruct (selectedFile p).
  - exists [Send now; Encoded (length (reading p)) encoded now]. reflexivity.
  - exists [Send now]. reflexivity.
Qed.

Lemma handleSend_finish_at (reply : Response + string) (now : Z) (q : Panel)
    (l l' : list Request) (req : Request) :
  inflight q = l ++ req :: l' ->
  handleSend_finish (length l) reply now q
  = mkPanel (messages q ++ [replyMessage reply now]) (input q) false
            (selectedFile q) (settings q) (mode q) (l ++ l')
            (reading q) (detached q) (detachedReading q).
Proof.
  intros H. unfold handleSend_finish.
  rewrite H, (list_lookup_middle l l' req (length l) eq_refl), delete_middle.
  reflexivity.
Qed.

Lemma handleSend_finish_last (reply : Response + string) (now : Z) (q : Panel)
    (l : list Request) (req : Request) :
  inflight q = l ++ [req] ->
  handleSend_finish (length l) reply now q
  = mkPanel (messages q ++ [replyMessage reply now]) (input q) false
            (selectedFile q) (settings q) (mode q) l
            (reading q) (detached q) (detachedReading q).
Proof.
  intros H. rewrite (handleSend_finish_at reply now q l [] req H), app_nil_r. reflexivity.
Qed.

(** X10. The guard of [handleSend] holds back a second click only once
    [setIsLoading(true)] has run. Without a file that is within the first
    click, and a second click changes nothing. With a file selected the
    handler first waits for [fileToBase64], and a second click during the
    read passes the guard again: when the two reads are done the user's
    message has been added twice and two requests with the same text are in
    flight, and the first reply sets [isLoading] to false while the second
    request is still unanswered. *)
Theorem second_send_during_file_read (p : Panel) (f : File) (b1 b2 : string)
    (now1 now2 now3 : Z) (reply : Response + string) :
  sendBlocked trim p = false -> selectedFile p = Some f ->
  let k := length (reading p) in
  let p' := panelRun trim [Send now1; Send now2;
                           Encoded k (Some b1) now1; Encoded k (Some b2) now2] p in
  let u1 := userMessage (render p) (Some b1) (fileKind f) now1 in
  let u2 := userMessage (render p) (Some b2) (fileKind f) now2 in
  let p'' := handleSend_finish (length (inflight p)) reply now3 p' in
  messages p' = messages p ++ [u1; u2]
  /\ inflight p' = inflight p ++ [requestFor (render p) u1; requestFor (render p) u2]
  /\ Chat.text u1 = input p /\ Chat.text u2 = input p
  /\ isLoading p' = true
  /\ isLoading p'' = false
  /\ inflight p'' = inflight p ++ [requestFor (render p) u2]
  /\ (forall q now now', selectedFile q = None ->
        handleSend trim now' (handleSend trim now q) = handleSend trim now q).
Proof.
  intros Hb Hf k p' u1 u2 p''.
  set (waiting l := mkPanel (messages p) (input p) (isLoading p) (selectedFile p)
                            (settings p) (mode p) (inflight p) l
                            (detached p) (detachedReading p)).
  assert (H1 : handleSend trim now1 p = waiting (reading p ++ [render p]))
    by apply (handleSend_suspends now1 p f Hb Hf).
  assert (H2 : handleSend trim now2 (waiting (reading p ++ [render p]))
               = waiting (reading p ++ [render p; render p])).
  { rewrite (handleSend_suspends now2 (waiting (reading p ++ [render p])) f Hb Hf).
    subst waiting. cbv beta. cbn [messages input isLoading selectedFile settings mode
                                  inflight reading detached detachedReading].
    rewrite <- app_assoc. reflexivity. }
  assert (H3 : handleSend_encoded k (Some b1) now1 (waiting (reading p ++ [render p; render p]))
               = handleSend_post (render p) (Some b1) (fileKind f) now1
                   (waiting (reading p ++ [render p])))
    by apply (handleSend_encoded_at (render p) f b1 now1
                (waiting (reading p ++ [render p; render p])) (reading p) [render p]
                eq_refl Hf).
  set (sent := handleSend_post (render p) (Some b1) (fileKind f) now1
                 (waiting (reading p ++ [render p]))) in *.
  assert (H4 : handleSend_encoded k (Some b2) now2 sent
               = handleSend_post (render p) (Some b2) (fileKind f) now2
                   (mkPanel (messages p ++ [u1]) "" true None (settings p) (mode p)
                            (inflight p ++ [requestFor (render p) u1]) (reading p)
                            (detached p) (detachedReading p)))
    by apply (handleSend_encoded_last (render p) f b2 now2 sent (reading p) eq_refl Hf).
  assert (Hp' : p' = mkPanel ((messages p ++ [u1]) ++ [u2]) "" true None (settings p) (mode p)
                             ((inflight p ++ [requestFor (render p) u1])
                                ++ [requestFor (render p) u2])
                             (reading p) (detached p) (detachedReading p)).
  { subst p'. cbn [panelRun fold_left panelStep]. rewrite H1, H2, H3, H4. reflexivity. }
  assert (Hp'' : p'' = mkPanel (((messages p ++ [u1]) ++ [u2]) ++ [replyMessage reply now3])
                               "" false None (settings p) (mode p)
                               (inflight p ++ [requestFor (render p) u2])
                               (reading p) (detached p) (detachedReading p)).
  { subst p''. rewrite Hp'.
    erewrite (handleSend_finish_at reply now3 _ (inflight p) [requestFor (render p) u2]
                (requestFor (render p) u1)); [reflexivity|].
    cbn [inflight]. rewrite <- app_assoc. reflexivity. }
  rewrite Hp'', Hp'. cbn [messages inflight isLoading].
  rewrite <- !app_assoc. cbn [app].
  repeat split.
  intros q now now' Hq. destruct (sendBlocked trim q) eqn:E.
  - rewrite (handleSend_blocked now q E). apply handleSend_blocked, E.
  - assert (Hq' : handleSend trim now q = handleSend_post (render q) None None now q)
      by (unfold handleSend; rewrite E, Hq; reflexivity).
    rewrite Hq'. apply handleSend_blocked. unfold sendBlocked. cbn. apply orb_true_r.
Qed.

(** X12. The request a send issues follows the three flags, of which at
    most one is set: Reasoning asks the pro model with a thinking budget of
    32768 and no search tool, Search the flash model with the search tool,
    Fast the flash-lite model, and no flag the pro model, the last three
    without a thinking budget. It always carries the system instruction of
    the mode on screen and begins with the text typed. *)
Theorem request_follows_flags (p : Panel) (encoded : option string) (now : Z) :
  panelReachable trim p -> goesAhead trim p encoded ->
  exists req,
    inflight (handleSend_begin trim encoded now p) = inflight p ++ [req]
    /\ reqModel req
       = (if useThinking (settings p) then "gemini-3-pro-preview"
          else if useSearch (settings p) then "gemini-3-flash-preview"
          else if useFast (settings p) then "gemini-flash-lite-latest"
          else "gemini-3-pro-preview")%string
    /\ thinkingBudget (reqConfig req)
       = (if useThinking (settings p) then Some 32768%Z else None)
    /\ googleSearch (reqConfig req) = useSearch (settings p)
    /\ systemInstruction (reqConfig req)
       = Some (cfgSystemInstruction (getModeConfig (mode p)))
    /\ hd_error (reqParts req) = Some (TextPart (input p)).
Proof.
  intros Hr Hgo. pose proof (panelReachable_invariant p Hr) as H2.
  destruct (begin_goes_ahead p encoded now Hgo) as (b & k & ->).
  eexists. split; [reflexivity|].
  unfold requestFor. cbn [rSettings rMode rMessages render].
  match goal with
  | |- context [buildRequest ?m ?t ?h ?i ?v ?th (Some ?ins)] =>
      destruct (buildRequest_config m t h i v th ins (systemInstruction_truthy (mode p)))
        as (Hsys & Hbud & Hsearch & Hmodel)
  end.
  rewrite Hsys, Hbud, Hsearch, Hmodel, buildRequest_parts.
  unfold atMostOne in H2. unfold chosenModel.
  destruct (settings p) as [[] [] []]; cbn in *; repeat split; lia.
Qed.

(** X13. A send that goes ahead, followed by its reply, adds exactly two
    messages to the conversation, the user's with the text typed and then
    the model's, whose text is never empty, be it the answer or the error;
    the input and the file are cleared, [isLoading] is false again, and the
    requests in flight are those there were before the send. *)
Theorem send_then_reply (p : Panel) (encoded : option string) (now now' : Z)
    (reply : Response + string) :
  goesAhead trim p encoded ->
  let p' := panelRun trim [Reply (length (inflight p)) reply now']
              (handleSend_begin trim encoded now p) in
  exists userMsg modelMsg,
    messages p' = messages p ++ [userMsg; modelMsg]
    /\ role userMsg = user /\ Chat.text userMsg = input p
    /\ role modelMsg = model /\ Chat.text modelMsg <> ""%string
    /\ input p' = ""%string /\ selectedFile p' = None
    /\ isLoading p' = false /\ inflight p' = inflight p.
Proof.
  intros Hgo. destruct (begin_goes_ahead p encoded now Hgo) as (b & k & Hbegin).
  cbv zeta. cbn [panelRun fold_left panelStep]. rewrite Hbegin.
  erewrite (handleSend_finish_last reply now' _ (inflight p)); [|reflexivity].
  cbn [messages input selectedFile isLoading inflight handleSend_post].
  eexists. exists (replyMessage reply now'). rewrite <- app_assoc. cbn [app].
  split; [reflexivity|]. repeat split.
  - destruct reply; reflexivity.
  - destruct reply as [r|m]; cbn.
    + unfold truthy. destruct (respText r) as [t|]; [|discriminate].
      destruct (String.eqb t "") eqn:E; cbn; [discriminate|].
      intros ->. discriminate.
    + unfold errorText. discriminate.
Qed.

(** X14. A reply that arrives after the user has moved to another mode of
    the chat module is not dropped with the conversation it answers: it
    becomes the first and only message of the new mode's conversation. *)
Theorem reply_after_mode_change (p : Panel) (encoded : option string) (now now' : Z)
    (reply : Response + string) (m : AppMode) :
  goesAhead trim p encoded ->
  showsChat (mode p) = true -> showsChat m = true -> sameMode (mode p) m = false ->
  let p' := panelRun trim [SwitchMode m; Reply (length (inflight p)) reply now']
              (handleSend_begin trim encoded now p) in
  messages p' = [replyMessage reply now'] /\ mode p' = m /\ isLoading p' = false.
Proof.
  intros Hgo Hc Hc' Hne.
  destruct (begin_goes_ahead p encoded now Hgo) as (b & k & Hbegin).
  cbv zeta. cbn [panelRun fold_left panelStep]. rewrite Hbegin.
  unfold switchMode. cbn [mode handleSend_post]. rewrite Hne, Hc, Hc'. cbn [andb].
  erewrite (handleSend_finish_last reply now' _ (inflight p)); [|reflexivity].
  cbn. auto.
Qed.

Lemma image_is_not_video (t : string) :
  String.prefix "image/" t = true -> String.prefix "video/" t = false.
Proof.
  destruct t as [|c t]; [discriminate|]. cbn [String.prefix].
  match goal with
  | |- context [Ascii.ascii_dec ?a c] => destruct (Ascii.ascii_dec a c) as [<-|]
  end; [reflexivity | discriminate].
Qed.

(** X15. What a send attaches follows the type of the selected file and
    nothing else: a file whose type begins with [image/] goes out as one
    inline part labelled [image/jpeg], one whose type begins with [video/]
    as one part labelled [video/mp4], whatever the rest of the type says,
    never both; a file of any other type, or one that encodes to the empty
    string, is left out without notice and the request holds the text only. *)
Theorem attachment_follows_file_type (p : Panel) (f : File) (b : string) (now : Z) :
  sendBlocked trim p = false -> selectedFile p = Some f ->
  let isImage := String.prefix "image/" (fileType f) && negb (String.eqb b "") in
  let isVideo := String.prefix "video/" (fileType f) && negb (String.eqb b "") in
  exists userMsg req,
    messages (handleSend_begin trim (Some b) now p) = messages p ++ [userMsg]
    /\ inflight (handleSend_begin trim (Some b) now p) = inflight p ++ [req]
    /\ images userMsg = (if isImage then Some [b] else None)
    /\ videos userMsg = (if isVideo then Some [b] else None)
    /\ isImage && isVideo = false
    /\ reqParts req
       = TextPart (input p)
           :: (if isImage then [InlineData "image/jpeg" b]
               else if isVideo then [InlineData "video/mp4" b] else []).
Proof.
  intros Hb Hf isImage isVideo. subst isImage isVideo.
  unfold handleSend_begin, handleSend. rewrite Hb, Hf.
  erewrite (handleSend_encoded_last (render p) f b now); [|reflexivity|exact Hf].
  eexists. eexists. split; [reflexivity|]. split; [reflexivity|].
  unfold requestFor, userMessage.
  cbn [images videos]. rewrite buildRequest_parts. cbn [Chat.text images videos rInput render].
  unfold fileKind.
  destruct (String.prefix "image/" (fileType f)) eqn:Ei.
  - rewrite (image_is_not_video _ Ei). destruct (String.eqb b ""); cbn; auto.
  - destruct (String.prefix "video/" (fileType f)); destruct (String.eqb b ""); cbn; auto.
Qed.

End Panel.

Lemma attachment_follows_file_type_witness :
  exists userMsg req,
    messages (handleSend_begin noTrim (Some "iVBORw0KGgo="%string) 1 picturePanel)
    = [userMsg]
    /\ images userMsg = Some ["iVBORw0KGgo="%string]
    /\ reqParts req
       = [TextPart ""%string; InlineData "image/jpeg"%string "iVBORw0KGgo="%string].
Proof.
  destruct (attachment_follows_file_type noTrim picturePanel
              (mkFile "cat.png"%string "image/png"%string)
              "iVBORw0KGgo="%string 1 eq_refl eq_refl)
    as (u & req & H1 & _ & H2 & _ & _ & H3).
  exists u, req. split; [exact H1|]. split; [exact H2 | exact H3].
Defined.

Lemma request_follows_flags_witness :
  exists req,
    inflight (handleSend_begin noTrim None 1 typedPanel) = [req]
    /\ reqModel req = "gemini-3-flash-preview"%string
    /\ googleSearch (reqConfig req) = true.
Proof.
  assert (Hr : panelReachable noTrim typedPanel).
  { exists CODE, [Toggle Search; TypeInput "What is Rocq?"%string]. exact eq_refl. }
  assert (Hgo : goesAhead noTrim typedPanel None) by (split; [reflexivity | left; reflexivity]).
  destruct (request_follows_flags noTrim typedPanel None 1 Hr Hgo)
    as (req & H1 & H2 & _ & H3 & _).
  exists req. split; [exact H1|]. split; [exact H2 | exact H3].
Defined.

Lemma send_then_reply_witness :
  exists userMsg modelMsg,
    messages (panelRun noTrim [Send 1; Reply 0 (inr ""%string) 2] typedPanel)
    = [userMsg; modelMsg]
    /\ Chat.text userMsg = "What is Rocq?"%string
    /\ Chat.text modelMsg <> ""%string.
Proof.
  assert (Hgo : goesAhead noTrim typedPanel None) by (split; [reflexivity | left; reflexivity]).
  destruct (send_then_reply noTrim typedPanel None 1 2 (inr ""%string) Hgo)
    as (u & m & H1 & _ & H2 & _ & H3 & _).
  exists u, m. split; [exact H1|]. split; [exact H2 | exact H3].
Defined.

Lemma reply_after_mode_change_witness :
  messages (panelRun noTrim
              [Send 1; SwitchMode WRITE; Reply 0 (inr "offline"%string) 2] typedPanel)
  = [replyMessage (inr "offline"%string) 2].
Proof.
  assert (Hgo : goesAhead noTrim typedPanel None) by (split; [reflexivity | left; reflexivity]).
  exact (proj1 (reply_after_mode_change noTrim typedPanel None 1 2 (inr "offline"%string)
                  WRITE Hgo eq_refl eq_refl eq_refl)).
Defined.

Lemma second_send_during_file_read_witness :
  let p' := panelRun noTrim [Send 1; Send 2;
                             Encoded 0 (Some "iVBORw0KGgo="%string) 3;
                             Encoded 0 (Some "iVBORw0KGgo="%string) 4] picturePanel in
  length (messages p') = 2%nat /\ length (inflight p') = 2%nat
  /\ isLoading (handleSend_finish 0 (inr "offline"%string) 5 p') = false
  /\ length (inflight (handleSend_finish 0 (inr "offline"%string) 5 p')) = 1%nat.
Proof.
  destruct (second_send_during_file_read noTrim picturePanel
              (mkFile "cat.png"%string "image/png"%string)
              "iVBORw0KGgo="%string "iVBORw0KGgo="%string 3 4 5 (inr "offline"%string)
              eq_refl eq_refl) as (H1 & H2 & _ & _ & _ & H3 & H4 & _).
  cbv zeta. split; [|split; [|split]].
  - reflexivity.
  - reflexivity.
  - exact H3.
  - reflexivity.
Defined.

Lemma panel_flags_exclusive_witness :
  atMostOne (settings (panelRun noTrim
                         [Toggle Fast; Toggle Search; SwitchMode WRITE; Toggle Reasoning]
                         (initialPanel CHAT))).
Proof.
  apply (panel_flags_exclusive noTrim). exists CHAT. eexists. exact eq_refl.
Defined.

End ChatFacts.

(* ===================================================================== *)
(** * Properties of [audioBufferToWav] *)
(* ===================================================================== *)

Module WavFacts.

Import Wav.
Local Open Scope Z_scope.

(** ** The range of a sample *)

Example scale_full_positive : scale (clamp (Fin 1)) = 32767.
Proof. reflexivity. Qed.

Example scale_full_negative : scale (clamp (Fin (-1))) = -32768.
Proof. reflexivity. Qed.

Example scale_clamps_overdrive : scale (clamp (Fin 3)) = 32767 /\ scale (clamp NegInf) = -32768.
Proof. split; reflexivity. Qed.

Example scale_half : scale (clamp (Fin (1 # 2))) = 16383.
Proof. reflexivity. Qed.

Example scale_nan : scale (clamp NaN) = 0.
Proof. reflexivity. Qed.

Lemma truncate_bounds (q : Q) (a b : Z) :
  a <= 0 <= b -> (inject_Z a <= q)%Q -> (q <= inject_Z b)%Q -> a <= truncate q <= b.
Proof.
  destruct q as [n d]. unfold Qle, truncate. cbn. intros [Ha Hb] Hlo Hhi.
  rewrite Z.mul_1_r in Hlo, Hhi.
  destruct (Z_lt_le_dec n 0) as [Hn | Hn].
  - replace n with (- (- n)) by lia. rewrite Z.quot_opp_l by lia.
    rewrite Z.quot_div_nonneg by lia.
    assert (- n / Z.pos d <= - a) by (apply Z.div_le_upper_bound; lia).
    assert (0 <= - n / Z.pos d) by (apply Z.div_pos; lia).
    lia.
  - rewrite Z.quot_div_nonneg by lia.
    assert (n / Z.pos d <= b) by (apply Z.div_le_upper_bound; lia).
    assert (0 <= n / Z.pos d) by (apply Z.div_pos; lia).
    lia.
Qed.

Lemma wrapInt32_small z : - 2 ^ 31 <= z < 2 ^ 31 -> wrapInt32 z = z.
Proof. intros H. unfold wrapInt32. rewrite Z.mod_small; lia. Qed.

Lemma clamp_cases x :
  clamp x = NaN \/ exists c, clamp x = Fin c /\ (-1 <= c)%Q /\ (c <= 1)%Q.
Proof.
  destruct x as [| | |q]; cbn.
  - left. reflexivity.
  - right. eexists. split; [reflexivity|]. split; [apply Q.le_max_l | vm_compute; discriminate].
  - right. eexists. split; [reflexivity|]. split; vm_compute; discriminate.
  - right. eexists. split; [reflexivity|]. split; [apply Q.le_max_l|].
    apply Q.max_lub; [vm_compute; discriminate | apply Q.le_min_l].
Qed.

Lemma scaled_bounds (c : Q) :
  (-1 <= c)%Q -> (c <= 1)%Q ->
  (inject_Z (-32768) <= c * 32768)%Q /\ ((c * 32768 <= inject_Z 32767)%Q \/ (0 <= (1#2) + c)%Q)
  /\ (inject_Z (-32768) <= c * 32767)%Q /\ (c * 32767 <= inject_Z 32767)%Q.
Proof.
  destruct c as [n d]. unfold Qle. cbn. intros Hlo Hhi. lia.
Qed.

Lemma scale_clamp_int16 x : int16 (scale (clamp x)).
Proof.
  unfold int16. destruct (clamp_cases x) as [-> | (c & -> & Hlo & Hhi)].
  - cbn. lia.
  - unfold scale, toInt32.
    destruct (scaled_bounds c Hlo Hhi) as (H1 & H2 & H3 & H4).
    assert (H : -32768 <= truncate (if negb (Qle_bool 0 ((1 # 2) + c))
                                    then c * 32768 else c * 32767)%Q <= 32767).
    { destruct (Qle_bool 0 ((1 # 2) + c)) eqn:E; cbn [negb].
      - apply truncate_bounds; [lia | exact H3 | exact H4].
      - apply truncate_bounds; [lia | exact H1 |].
        destruct H2 as [H2 | H2]; [exact H2|].
        apply Qle_bool_iff in H2. congruence. }
    rewrite wrapInt32_small; lia.
Qed.

Lemma byteAt_div k v : 0 <= k -> byteAt k v = (v / 2 ^ (8 * k)) mod 256.
Proof.
  intros Hk. unfold byteAt. rewrite Z.shiftr_div_pow2 by lia.
  change 255 with (Z.ones 8). rewrite Z.land_ones by lia. reflexivity.
Qed.

Lemma int16_roundtrip v : int16 v -> int16OfBytes (byteAt 0 v) (byteAt 1 v) = v.
Proof.
  unfold int16, int16OfBytes. intros H.
  rewrite !byteAt_div by lia. change (2 ^ (8 * 0)) with 1. change (2 ^ (8 * 1)) with 256.
  rewrite Z.div_1_r.
  destruct (Z.ltb_spec (v mod 256 + 256 * (v / 256 mod 256)) 32768);
    Z.div_mod_to_equations; lia.
Qed.

Lemma store_app (pre old post bs : list Z) :
  length old = length bs ->
  store (length pre) bs (pre ++ old ++ post) = Done (pre ++ bs ++ post).
Proof.
  intros Hlen. unfold store.
  replace (length pre + length bs <=? length (pre ++ old ++ post))%nat with true.
  - rewrite firstn_app, Nat.sub_diag, firstn_all, firstn_O, app_nil_r.
    rewrite skipn_app, skipn_all2 by lia.
    replace (length pre + length bs - length pre)%nat with (length old) by lia.
    rewrite skipn_app, skipn_all, Nat.sub_diag. reflexivity.
  - symmetry. apply Nat.leb_le. rewrite !length_app. lia.
Qed.

Lemma store_zeros (pre bs : list Z) (k m off : nat) :
  off = length pre -> k = length bs ->
  store off bs (pre ++ repeat 0 (k + m)) = Done ((pre ++ bs) ++ repeat 0 m).
Proof.
  intros -> ->. rewrite repeat_app, <- app_assoc.
  apply store_app. apply repeat_length.
Qed.

Lemma setUint32_zeros data pre m k :
  k = length pre ->
  setUint32 data (mkWriter (pre ++ repeat 0 (4 + m)) k)
  = Done (mkWriter ((pre ++ le32 data) ++ repeat 0 m) (k + 4)).
Proof.
  intros Hk. unfold setUint32. cbn [view pos].
  rewrite (store_zeros pre (le32 data) 4 m k Hk eq_refl). reflexivity.
Qed.

Lemma setUint16_zeros data pre m k :
  k = length pre ->
  setUint16 data (mkWriter (pre ++ repeat 0 (2 + m)) k)
  = Done (mkWriter ((pre ++ le16 data) ++ repeat 0 m) (k + 2)).
Proof.
  intros Hk. unfold setUint16. cbn [view pos].
  rewrite (store_zeros pre (le16 data) 2 m k Hk eq_refl). reflexivity.
Qed.

Lemma forChannels_zeros channels : forall pos pre m off,
  length pre = (44 + off)%nat ->
  forChannels channels pos (pre ++ repeat 0 (2 * length channels + m), off)
  = Done (pre ++ flat_map le16 (map (fun ch => sampleOf ch pos) channels) ++ repeat 0 m,
          (off + 2 * length channels)%nat).
Proof.
  induction channels as [|ch rest IH]; intros pos pre m off Hpre.
  - cbn. rewrite Nat.add_0_r. reflexivity.
  - cbn [forChannels fst snd length].
    replace (2 * S (length rest) + m)%nat with (2 + (2 * length rest + m))%nat by lia.
    rewrite (store_zeros pre (le16 (sampleOf ch pos)) 2 _ (44 + off))
      by (auto || reflexivity).
    cbn [bind]. rewrite IH by (rewrite length_app; cbn; lia).
    cbn [map flat_map]. rewrite <- !app_assoc.
    do 2 f_equal. lia.
Qed.

Lemma flat_map_length_le16 (l : list Z) : length (flat_map le16 l) = (2 * length l)%nat.
Proof. induction l as [|x l IH]; cbn [flat_map length le16 app]; lia. Qed.

Lemma whileFrames_zeros buffer channels fuel : forall pos pre m off k,
  k = (bufferLength buffer - pos)%nat -> (k <= fuel)%nat ->
  length pre = (44 + off)%nat ->
  whileFrames fuel buffer channels pos
    (pre ++ repeat 0 (k * (2 * length channels) + m), off)
  = Done (pre ++ flat_map le16 (samplesFrom k channels pos) ++ repeat 0 m,
          (off + k * (2 * length channels))%nat).
Proof.
  induction fuel as [|fuel IH]; intros pos pre m off k Hk Hfuel Hpre.
  - assert (H : k = 0%nat) by lia. rewrite H.
    cbn [whileFrames].
    replace (pos <? bufferLength buffer)%nat with false
      by (symmetry; apply Nat.ltb_ge; lia).
    cbn. rewrite Nat.add_0_r. reflexivity.
  - cbn [whileFrames]. destruct (Nat.ltb_spec pos (bufferLength buffer)) as [Hlt | Hge].
    + destruct k as [|k]; [lia|].
      replace (S k * (2 * length channels) + m)%nat
        with (2 * length channels + (k * (2 * length channels) + m))%nat by lia.
      rewrite forChannels_zeros by exact Hpre. cbn [bind].
      rewrite app_assoc.
      rewrite IH; [| lia | lia | rewrite length_app, flat_map_length_le16, length_map; lia ].
      cbn [samplesFrom]. rewrite flat_map_app, <- !app_assoc. do 2 f_equal. lia.
    + assert (H : k = 0%nat) by lia. rewrite H. cbn. rewrite Nat.add_0_r. reflexivity.
Qed.

Lemma samplesFrom_length k channels : forall pos,
  length (samplesFrom k channels pos) = (k * length channels)%nat.
Proof.
  induction k as [|k IH]; intros pos; cbn [samplesFrom length]; [reflexivity|].
  rewrite length_app, length_map, IH. lia.
Qed.

Lemma samplesFrom_int16 k channels : forall pos,
  Forall int16 (samplesFrom k channels pos).
Proof.
  induction k as [|k IH]; intros pos; cbn [samplesFrom]; [constructor|].
  apply Forall_app. split; [|apply IH].
  apply Forall_map. apply List.Forall_forall. intros ch _. apply scale_clamp_int16.
Qed.

Lemma header_length r c n : length (header r c n) = 44%nat.
Proof. reflexivity. Qed.

Lemma total_split (n c : nat) :
  (n * c * 2 + 44
   = 4 + (4 + (4 + (4 + (4 + (2 + (2 + (4 + (4 + (2 + (2 + (4 + (4 +
       ((n - 44) * (2 * c) + 2 * c * Nat.min n 44))))))))))))))%nat.
Proof.
  destruct (Nat.le_ge_cases n 44) as [H | H].
  - replace (n - 44)%nat with 0%nat by lia. replace (Nat.min n 44) with n by lia. lia.
  - replace (Nat.min n 44) with 44%nat by lia.
    assert (Hk : exists k, n = (k + 44)%nat) by (exists (n - 44)%nat; lia).
    destruct Hk as [k ->]. replace (k + 44 - 44)%nat with k by lia. lia.
Qed.

Lemma audioBufferToWav_run (buffer : AudioBuffer) :
  audioBufferToWav buffer
  = Done (header (sampleRate buffer) (numberOfChannels buffer) (bufferLength buffer)
          ++ flat_map le16 (samplesFrom (bufferLength buffer - 44) (channelData buffer) 44)
          ++ repeat 0 (2 * numberOfChannels buffer * Nat.min (bufferLength buffer) 44)).
Proof.
  unfold audioBufferToWav, numberOfChannels.
  set (c := length (channelData buffer)). set (n := bufferLength buffer).
  replace (repeat 0 (n * c * 2 + 44))
    with ([] ++ repeat 0 (4 + (4 + (4 + (4 + (4 + (2 + (2 + (4 + (4 + (2 + (2 + (4 + (4 +
            ((n - 44) * (2 * c) + 2 * c * Nat.min n 44)))))))))))))))
    by (cbn [app]; f_equal; symmetry; apply total_split).
  do 5 (rewrite setUint32_zeros by reflexivity; cbn [bind pos view]).
  do 2 (rewrite setUint16_zeros by reflexivity; cbn [bind pos view]).
  do 2 (rewrite setUint32_zeros by reflexivity; cbn [bind pos view]).
  do 2 (rewrite setUint16_zeros by reflexivity; cbn [bind pos view]).
  do 2 (rewrite setUint32_zeros by reflexivity; cbn [bind pos view]).
  pose proof (whileFrames_zeros buffer (channelData buffer) n 44
                (header (sampleRate buffer) c n) (2 * c * Nat.min n 44) 0 (n - 44)
                eq_refl ltac:(lia) eq_refl) as Hloop.
  match goal with
  | |- bind ?w _ = _ =>
      replace w with (Done (header (sampleRate buffer) c n
                            ++ flat_map le16 (samplesFrom (n - 44) (channelData buffer) 44)
                            ++ repeat 0 (2 * c * Nat.min n 44),
                            (0 + (n - 44) * (2 * length (channelData buffer)))%nat))
        by (symmetry; exact Hloop)
  end.
  reflexivity.
Qed.

(** The loop indexes the channels with [pos], which the header writes have
    left at 44: of a mono buffer of 46 frames only frames 44 and 45 reach
    the data section, at its start. *)
Example loop_starts_at_frame_44 :
  let channel := repeat (Fin 1) 44 ++ [Fin (1 # 2); Fin (-1)] in
  exists out,
    audioBufferToWav (mkBuffer 24000 46 [channel]) = Done out
    /\ firstn 4 (skipn 44 out) = le16 16383 ++ le16 (-32768)
    /\ skipn 48 out = repeat 0 88.
Proof. eexists. split; [vm_compute; reflexivity|]. split; reflexivity. Qed.

Lemma audioBufferToWav_length (buffer : AudioBuffer) :
  length (header (sampleRate buffer) (numberOfChannels buffer) (bufferLength buffer)
          ++ flat_map le16 (samplesFrom (bufferLength buffer - 44) (channelData buffer) 44)
          ++ repeat 0 (2 * numberOfChannels buffer * Nat.min (bufferLength buffer) 44))
  = (44 + 2 * numberOfChannels buffer * bufferLength buffer)%nat.
Proof.
  rewrite !length_app, header_length, flat_map_length_le16, samplesFrom_length,
    repeat_length.
  unfold numberOfChannels.
  generalize (length (channelData buffer)) (bufferLength buffer). intros c n.
  destruct (Nat.le_ge_cases n 44) as [H | H].
  - replace (n - 44)%nat with 0%nat by lia. replace (Nat.min n 44) with n by lia. lia.
  - replace (Nat.min n 44) with 44%nat by lia.
    assert (Hk : exists k, n = (k + 44)%nat) by (exists (n - 44)%nat; lia).
    destruct Hk as [k ->]. replace (k + 44 - 44)%nat with k by lia. lia.
Qed.

(** C10. For a buffer of [c] channels and [n] frames, [audioBufferToWav]
    returns, without a RangeError, a buffer of exactly [44 + 2 * c * n]
    bytes: the header, then the 16-bit little-endian samples the loop
    computes, then zeros. Every sample the loop computes, for whatever input
    value (NaN and the infinities included), lies in [-32768, 32767] after
    the clamp and the scaling, so the two bytes stored read back as that
    very sample. *)
Theorem audioBufferToWav_size_and_range (buffer : AudioBuffer) :
  let c := numberOfChannels buffer in
  let n := bufferLength buffer in
  let samples := samplesFrom (n - 44) (channelData buffer) 44 in
  exists out,
    audioBufferToWav buffer = Done out
    /\ length out = (44 + 2 * c * n)%nat
    /\ out = header (sampleRate buffer) c n ++ flat_map le16 samples
             ++ repeat 0 (2 * c * Nat.min n 44)
    /\ Forall int16 samples
    /\ (forall channel pos,
          int16 (sampleOf channel pos)
          /\ int16OfBytes (byteAt 0 (sampleOf channel pos)) (byteAt 1 (sampleOf channel pos))
             = sampleOf channel pos).
Proof.
  intros c n samples. eexists. split; [apply audioBufferToWav_run|].
  split; [|split; [reflexivity|split]].
  - rewrite !length_app, header_length, flat_map_length_le16, samplesFrom_length,
      repeat_length.
    fold c n. unfold numberOfChannels in c. fold c.
    clearbody c n. clear samples.
    destruct (Nat.le_ge_cases n 44) as [H | H].
    + replace (n - 44)%nat with 0%nat by lia. replace (Nat.min n 44) with n by lia. lia.
    + replace (Nat.min n 44) with 44%nat by lia.
      assert (Hk : exists k, n = (k + 44)%nat) by (exists (n - 44)%nat; lia).
      destruct Hk as [k ->]. replace (k + 44 - 44)%nat with k by lia. lia.
  - apply samplesFrom_int16.
  - intros channel pos. split; [apply scale_clamp_int16|].
    apply int16_roundtrip, scale_clamp_int16.
Qed.

Lemma truncate_spec (n : Z) (d : positive) :
  (0 <= n -> 0 <= n ÷ Z.pos d /\ (n ÷ Z.pos d) * Z.pos d <= n < (n ÷ Z.pos d + 1) * Z.pos d)
  /\ (n < 0 -> n ÷ Z.pos d <= 0
               /\ (n ÷ Z.pos d - 1) * Z.pos d < n <= (n ÷ Z.pos d) * Z.pos d).
Proof.
  pose proof (Z.quot_rem' n (Z.pos d)) as Hqr.
  split; intros Hn.
  - pose proof (Z.rem_bound_pos n (Z.pos d) Hn ltac:(lia)) as Hr.
    pose proof (Z.quot_pos n (Z.pos d) Hn ltac:(lia)) as Hq. nia.
  - pose proof (Z.rem_bound_pos_neg n (Z.pos d) ltac:(lia) ltac:(lia)) as Hr.
    assert (Hq : n ÷ Z.pos d <= 0) by (apply Z.quot_le_upper_bound; lia).
    nia.
Qed.

Lemma truncate_mono (q q' : Q) : (q <= q')%Q -> truncate q <= truncate q'.
Proof.
  destruct q as [n d], q' as [n' d']. unfold Qle, truncate. cbn. intros H.
  destruct (truncate_spec n d) as [Hp Hn], (truncate_spec n' d') as [Hp' Hn'].
  destruct (Z_lt_le_dec n 0) as [Hs | Hs], (Z_lt_le_dec n' 0) as [Hs' | Hs'].
  - specialize (Hn Hs). specialize (Hn' Hs'). nia.
  - specialize (Hn Hs). specialize (Hp' Hs'). lia.
  - nia.
  - specialize (Hp Hs). specialize (Hp' Hs'). nia.
Qed.

Lemma uint32_roundtrip v :
  0 <= v < 2 ^ 32 ->
  byteAt 0 v + 256 * byteAt 1 v + 65536 * byteAt 2 v + 16777216 * byteAt 3 v = v.
Proof.
  intros H. rewrite !byteAt_div by lia.
  change (2 ^ (8 * 0)) with 1. change (2 ^ (8 * 1)) with 256.
  change (2 ^ (8 * 2)) with 65536. change (2 ^ (8 * 3)) with 16777216.
  Z.div_mod_to_equations. lia.
Qed.

Lemma uint16_roundtrip v :
  0 <= v < 2 ^ 16 -> byteAt 0 v + 256 * byteAt 1 v = v.
Proof.
  intros H. rewrite !byteAt_div by lia.
  change (2 ^ (8 * 0)) with 1. change (2 ^ (8 * 1)) with 256.
  Z.div_mod_to_equations. lia.
Qed.

Lemma header_app_reads r c n rest :
  let out := header r c n ++ rest in
  let total := Z.of_nat (n * c * 2 + 44) in
  take 4 out = le32 0x46464952
  /\ getUint32 out 4 = Some (byteAt 0 (total - 8) + 256 * byteAt 1 (total - 8)
                            + 65536 * byteAt 2 (total - 8) + 16777216 * byteAt 3 (total - 8))
  /\ take 8 (drop 8 out) = le32 0x45564157 ++ le32 0x20746d66
  /\ getUint32 out 16 = Some (byteAt 0 16 + 256 * byteAt 1 16
                             + 65536 * byteAt 2 16 + 16777216 * byteAt 3 16)
  /\ getUint16 out 20 = Some (byteAt 0 1 + 256 * byteAt 1 1)
  /\ getUint16 out 22 = Some (byteAt 0 (Z.of_nat c) + 256 * byteAt 1 (Z.of_nat c))
  /\ getUint32 out 24 = Some (byteAt 0 r + 256 * byteAt 1 r
                             + 65536 * byteAt 2 r + 16777216 * byteAt 3 r)
  /\ getUint32 out 28 = Some (byteAt 0 (r * 2 * Z.of_nat c) + 256 * byteAt 1 (r * 2 * Z.of_nat c)
                             + 65536 * byteAt 2 (r * 2 * Z.of_nat c)
                             + 16777216 * byteAt 3 (r * 2 * Z.of_nat c))
  /\ getUint16 out 32 = Some (byteAt 0 (Z.of_nat c * 2) + 256 * byteAt 1 (Z.of_nat c * 2))
  /\ getUint16 out 34 = Some (byteAt 0 16 + 256 * byteAt 1 16)
  /\ take 4 (drop 36 out) = le32 0x61746164
  /\ getUint32 out 40 = Some (byteAt 0 (total - 40 - 4) + 256 * byteAt 1 (total - 40 - 4)
                             + 65536 * byteAt 2 (total - 40 - 4)
                             + 16777216 * byteAt 3 (total - 40 - 4)).
Proof. cbv zeta. repeat split. Qed.

(** X22. Read back with the DataView getters, the 44 bytes written at the
    front of the result are a RIFF/WAVE header for 16-bit PCM: the tags
    RIFF, WAVE, fmt and data, the file size less 8, format 1, the channel
    count, the sample rate, the byte rate, the block size, 16 bits per
    sample and the size of the data section; this as long as the sizes fit
    the fields they are written to. *)
Theorem wav_header_reads_back (buffer : AudioBuffer) :
  let c := numberOfChannels buffer in
  let n := bufferLength buffer in
  let r := sampleRate buffer in
  let total := Z.of_nat (44 + 2 * c * n) in
  total < 2 ^ 32 -> 0 <= r < 2 ^ 32 -> r * 2 * Z.of_nat c < 2 ^ 32 -> Z.of_nat c < 32768 ->
  exists out,
    audioBufferToWav buffer = Done out
    /\ Z.of_nat (length out) = total
    /\ take 4 out = tag "RIFF"
    /\ getUint32 out 4 = Some (total - 8)
    /\ take 8 (drop 8 out) = tag "WAVEfmt "
    /\ getUint32 out 16 = Some 16
    /\ getUint16 out 20 = Some 1
    /\ getUint16 out 22 = Some (Z.of_nat c)
    /\ getUint32 out 24 = Some r
    /\ getUint32 out 28 = Some (r * 2 * Z.of_nat c)
    /\ getUint16 out 32 = Some (2 * Z.of_nat c)
    /\ getUint16 out 34 = Some 16
    /\ take 4 (drop 36 out) = tag "data"
    /\ getUint32 out 40 = Some (total - 44).
Proof.
  intros c n r total Htotal Hr Hrate Hc.
  eexists. split; [apply audioBufferToWav_run|].
  split; [rewrite audioBufferToWav_length; reflexivity|].
  fold c n r.
  destruct (header_app_reads r c n
              (flat_map le16 (samplesFrom (n - 44) (channelData buffer) 44)
               ++ repeat 0 (2 * c * Nat.min n 44)))
    as (H0 & H4 & H8 & H16 & H20 & H22 & H24 & H28 & H32 & H34 & H36 & H40).
  cbv zeta in *. clearbody c n r. subst total.
  assert (Et : Z.of_nat (n * c * 2 + 44) = Z.of_nat (44 + 2 * c * n)) by (f_equal; lia).
  rewrite Et in H4, H40.
  rewrite H0, H4, H8, H16, H20, H22, H24, H28, H32, H34, H36, H40.
  repeat split;
    first [ reflexivity
          | f_equal; rewrite uint32_roundtrip; nia
          | f_equal; rewrite uint16_roundtrip; nia ].
Qed.

Lemma wav_header_reads_back_witness :
  exists out,
    audioBufferToWav longerBuffer = Done out
    /\ getUint32 out 4 = Some 128
    /\ getUint16 out 22 = Some 1
    /\ getUint32 out 24 = Some 24000
    /\ getUint32 out 40 = Some 92.
Proof.
  destruct (wav_header_reads_back longerBuffer) as
    (out & H & _ & _ & H4 & _ & _ & _ & H22 & H24 & _ & _ & _ & _ & H40);
    try (vm_compute; split; intros; discriminate || reflexivity);
    try (vm_compute; reflexivity).
  exists out. repeat split; assumption.
Defined.

(** X23. A buffer of at most 44 frames gives a file whose data section is
    all zeros: the loop starts at frame 44, so none of its samples is
    written. *)
Theorem short_buffer_is_silence (buffer : AudioBuffer) :
  (bufferLength buffer <= 44)%nat ->
  audioBufferToWav buffer
  = Done (header (sampleRate buffer) (numberOfChannels buffer) (bufferLength buffer)
          ++ repeat 0 (2 * numberOfChannels buffer * bufferLength buffer)).
Proof.
  intros Hn. rewrite audioBufferToWav_run.
  replace (bufferLength buffer - 44)%nat with 0%nat by lia.
  replace (Nat.min (bufferLength buffer) 44) with (bufferLength buffer) by lia.
  reflexivity.
Qed.

Lemma short_buffer_is_silence_witness :
  audioBufferToWav shortBuffer = Done (header 24000 1 44 ++ repeat 0 88).
Proof.
  apply (short_buffer_is_silence shortBuffer). cbn. lia.
Defined.

Lemma lookup_map {A B} (f : A -> B) (l : list A) (i : nat) :
  map f l !! i = option_map f (l !! i).
Proof.
  revert i. induction l as [|x l IH]; intros [|i]; cbn; auto.
Qed.

Lemma samplesFrom_lookup m channels : forall pos k i channel,
  (k < m)%nat -> channels !! i = Some channel ->
  samplesFrom m channels pos !! (k * length channels + i)%nat
  = Some (sampleOf channel (pos + k)).
Proof.
  induction m as [|m IH]; intros pos k i channel Hk Hi; [lia|].
  cbn [samplesFrom]. pose proof (lookup_lt_Some _ _ _ Hi) as Hlt.
  destruct k as [|k].
  - rewrite lookup_app_l by (rewrite length_map; cbn; lia).
    cbn [Nat.mul Nat.add]. rewrite lookup_map, Hi, Nat.add_0_r. reflexivity.
  - rewrite lookup_app_r by (rewrite length_map; cbn; lia).
    rewrite length_map.
    replace (S k * length channels + i - length channels)%nat
      with (k * length channels + i)%nat by lia.
    rewrite (IH (pos + 1)%nat k i channel) by (assumption || lia).
    do 2 f_equal. lia.
Qed.

Lemma flat_map_le16_lookup (l : list Z) : forall j x,
  l !! j = Some x ->
  flat_map le16 l !! (2 * j)%nat = Some (byteAt 0 x)
  /\ flat_map le16 l !! (2 * j + 1)%nat = Some (byteAt 1 x).
Proof.
  induction l as [|y l IH]; intros [|j] x H; cbn in H; try discriminate.
  - injection H as ->. split; reflexivity.
  - destruct (IH j x H) as [H0 H1].
    replace (2 * S j)%nat with (S (S (2 * j))) by lia.
    replace (S (S (2 * j)) + 1)%nat with (S (S (2 * j + 1))) by lia.
    cbn [flat_map le16 app]. split; [exact H0 | exact H1].
Qed.

Lemma getInt16_data (pre post : list Z) (l : list Z) (j : nat) (x : Z) :
  l !! j = Some x -> int16 x ->
  getInt16 (pre ++ flat_map le16 l ++ post) (length pre + 2 * j) = Some x.
Proof.
  intros Hj Hx. destruct (flat_map_le16_lookup l j x Hj) as [H0 H1].
  assert (E0 : (pre ++ flat_map le16 l ++ post) !! (length pre + 2 * j)%nat
               = Some (byteAt 0 x)).
  { rewrite lookup_app_r by lia.
    replace (length pre + 2 * j - length pre)%nat with (2 * j)%nat by lia.
    apply lookup_app_l_Some, H0. }
  assert (E1 : (pre ++ flat_map le16 l ++ post) !! (length pre + 2 * j + 1)%nat
               = Some (byteAt 1 x)).
  { rewrite lookup_app_r by lia.
    replace (length pre + 2 * j + 1 - length pre)%nat with (2 * j + 1)%nat by lia.
    apply lookup_app_l_Some, H1. }
  unfold getInt16. rewrite E0, E1.
  f_equal. apply int16_roundtrip, Hx.
Qed.

Lemma getInt16_zeros (pre : list Z) (m j : nat) :
  (2 * j + 1 < m)%nat ->
  getInt16 (pre ++ repeat 0 m) (length pre + 2 * j) = Some 0.
Proof.
  intros Hj.
  assert (H : forall i, (i < m)%nat ->
              (pre ++ repeat 0 m) !! (length pre + i)%nat = Some 0).
  { intros i Hi. rewrite lookup_app_r by lia.
    replace (length pre + i - length pre)%nat with i by lia.
    clear -Hi. revert i Hi. induction m as [|m IH]; intros [|i] Hi; cbn;
      try lia; [reflexivity | apply IH; lia]. }
  unfold getInt16. rewrite (H (2 * j)%nat) by lia.
  rewrite <- Nat.add_assoc, (H (2 * j + 1)%nat) by lia. reflexivity.
Qed.

(** X24. In the file of a longer buffer, the sample read back at frame [k]
    of channel [i] is the quantised sample of frame [44 + k] of that
    channel, and every sample of the last 44 frames reads back as 0. *)
Theorem samples_are_shifted_by_44_frames (buffer : AudioBuffer) (k i j : nat)
    (channel : list Number) :
  let c := numberOfChannels buffer in
  let n := bufferLength buffer in
  (k + 44 < n)%nat -> channelData buffer !! i = Some channel ->
  ((n - 44) * c <= j < n * c)%nat ->
  exists out,
    audioBufferToWav buffer = Done out
    /\ getInt16 out (44 + 2 * (k * c + i)) = Some (sampleOf channel (44 + k))
    /\ getInt16 out (44 + 2 * j) = Some 0.
Proof.
  intros c n Hk Hi Hj. eexists. split; [apply audioBufferToWav_run|].
  fold c n. unfold numberOfChannels in c.
  pose proof (lookup_lt_Some _ _ _ Hi) as Hlt. fold c in Hlt.
  split.
  - replace (44 + 2 * (k * c + i))%nat
      with (length (header (sampleRate buffer) c n) + 2 * (k * c + i))%nat
      by (rewrite header_length; reflexivity).
    apply getInt16_data; [|apply scale_clamp_int16].
    apply samplesFrom_lookup; [lia | exact Hi].
  - rewrite app_assoc.
    replace (44 + 2 * j)%nat
      with (length (header (sampleRate buffer) c n
                    ++ flat_map le16 (samplesFrom (n - 44) (channelData buffer) 44))
            + 2 * (j - (n - 44) * c))%nat.
    + apply getInt16_zeros.
      assert (Hsplit : (n * c = (n - 44) * c + Nat.min n 44 * c)%nat) by nia.
      nia.
    + rewrite length_app, header_length, flat_map_length_le16, samplesFrom_length.
      fold c. lia.
Qed.

Lemma samples_are_shifted_by_44_frames_witness :
  exists out,
    audioBufferToWav longerBuffer = Done out
    /\ getInt16 out 44 = Some 16383
    /\ getInt16 out 48 = Some 0.
Proof.
  destruct (samples_are_shifted_by_44_frames longerBuffer 0 0 2
              (repeat (Fin 1) 44 ++ [Fin (1 # 2); Fin (-1)]))
    as (out & H & H1 & H2); [cbn; lia | reflexivity | cbn; lia |].
  exists out. repeat split; assumption.
Defined.

Lemma clampQ_le (q q' : Q) :
  (q <= q')%Q -> (Qmax (-1) (Qmin 1 q) <= Qmax (-1) (Qmin 1 q'))%Q.
Proof.
  intros H. apply Q.max_le_compat_l, Q.min_le_compat_l, H.
Qed.

Lemma clampQ_range (q : Q) :
  (-1 <= Qmax (-1) (Qmin 1 q))%Q /\ (Qmax (-1) (Qmin 1 q) <= 1)%Q.
Proof.
  split; [apply Q.le_max_l|].
  apply Q.max_lub; [vm_compute; discriminate | apply Q.le_min_l].
Qed.

Lemma scaled_le (a a' : Q) :
  (-1 <= a)%Q -> (a <= a')%Q -> (a' <= 1)%Q ->
  ((if negb (Qle_bool 0 ((1 # 2) + a)) then a * 32768 else a * 32767)
   <= (if negb (Qle_bool 0 ((1 # 2) + a')) then a' * 32768 else a' * 32767))%Q.
Proof.
  intros Hlo Hle Hhi.
  destruct (Qle_bool 0 ((1 # 2) + a)) eqn:E, (Qle_bool 0 ((1 # 2) + a')) eqn:E'; cbn [negb].
  - destruct a as [n d], a' as [n' d']. unfold Qle in *. cbn in *. nia.
  - apply Qle_bool_iff in E.
    assert (E2 : ~ (0 <= (1 # 2) + a')%Q) by (rewrite <- Qle_bool_iff; congruence).
    exfalso. apply E2.
    destruct a as [n d], a' as [n' d']. unfold Qle in *. cbn in *. nia.
  - apply Qle_bool_iff in E'.
    assert (E2 : ~ (0 <= (1 # 2) + a)%Q) by (rewrite <- Qle_bool_iff; congruence).
    destruct a as [n d], a' as [n' d']. unfold Qle in *. cbn in *. nia.
  - destruct a as [n d], a' as [n' d']. unfold Qle in *. cbn in *. nia.
Qed.

(** X25. The conversion of a sample to 16 bits (clamp to [-1, 1], scale by
    32768 below -0.5 and by 32767 otherwise, truncate) is monotone: a larger
    sample never gives a smaller integer, also across the change of factor
    at -0.5. *)
Theorem quantisation_is_monotone (q q' : Q) :
  (q <= q')%Q -> scale (clamp (Fin q)) <= scale (clamp (Fin q')).
Proof.
  intros H. cbn [clamp min1 maxNeg1].
  destruct (clampQ_range q) as [Hlo Hhi], (clampQ_range q') as [Hlo' Hhi'].
  pose proof (clampQ_le q q' H) as Hle.
  pose proof (scale_clamp_int16 (Fin q)) as Hr.
  pose proof (scale_clamp_int16 (Fin q')) as Hr'.
  unfold int16 in Hr, Hr'. cbn [clamp min1 maxNeg1] in Hr, Hr'.
  revert Hr Hr'. unfold scale, toInt32.
  set (a := Qmax (-1) (Qmin 1 q)) in *. set (a' := Qmax (-1) (Qmin 1 q')) in *.
  pose proof (truncate_mono _ _ (scaled_le a a' Hlo Hle Hhi')) as Hm.
  destruct (scaled_bounds a Hlo Hhi) as (B1 & B2 & B3 & B4).
  destruct (scaled_bounds a' Hlo' Hhi') as (B1' & B2' & B3' & B4').
  assert (Ht : forall c, (-1 <= c)%Q -> (c <= 1)%Q ->
             -32768 <= truncate (if negb (Qle_bool 0 ((1 # 2) + c))
                                 then c * 32768 else c * 32767)%Q <= 32767).
  { intros c Hc1 Hc2. destruct (scaled_bounds c Hc1 Hc2) as (C1 & C2 & C3 & C4).
    destruct (Qle_bool 0 ((1 # 2) + c)) eqn:E; cbn [negb].
    - apply truncate_bounds; [lia | exact C3 | exact C4].
    - apply truncate_bounds; [lia | exact C1 |].
      destruct C2 as [C2 | C2]; [exact C2|]. apply Qle_bool_iff in C2. congruence. }
  pose proof (Ht a Hlo Hhi) as Ta. pose proof (Ht a' Hlo' Hhi') as Ta'.
  rewrite !wrapInt32_small by lia. intros _ _. exact Hm.
Qed.

Lemma quantisation_is_monotone_witness :
  scale (clamp (Fin (-3 # 4))) <= scale (clamp (Fin (1 # 4))).
Proof.
  apply (quantisation_is_monotone (-3 # 4) (1 # 4)). unfold Qle. cbn. lia.
Defined.

End WavFacts.

(* ===================================================================== *)
(** * Properties of the image, video and speech services *)
(* ===================================================================== *)

Module ServicesFacts.

Import Services.
Local Open Scope string_scope.

(** ** Images *)

Lemma prefix_append (a b : string) : String.prefix a (a ++ b) = true.
Proof.
  induction a as [|c a IH]; [destruct b; reflexivity|].
  change (String.prefix (String c a) (String c (a ++ b)) = true).
  cbn [String.prefix]. destruct (Ascii.ascii_dec c c); [exact IH | congruence].
Qed.

Lemma firstInlineImage_none parts failure :
  Forall (fun part => part = None) parts -> firstInlineImage parts failure = inr failure.
Proof.
  induction 1 as [|part parts -> _ IH]; cbn; [reflexivity | exact IH].
Qed.

Lemma firstInlineImage_first pre data post failure :
  Forall (fun part => part = None) pre ->
  firstInlineImage (pre ++ Some data :: post) failure
  = inl ("data:image/png;base64," ++ interpolate data).
Proof.
  induction 1 as [|part pre -> _ IH]; cbn; [reflexivity | exact IH].
Qed.

(** X16. [generateImage] and [editImage] return the first part of the
    answer that carries inline data, as a data URL labelled [image/png],
    and skip the parts before it that carry none; when no part carries
    inline data they fail, with "No image generated" and "No edited image
    returned". *)
Theorem image_is_first_inline_part (aistudio : option bool)
    (generateContent : ImageRequest -> list ResponsePart + string)
    (parts : list ResponsePart) (prompt aspectRatio base64Image : string) :
  (forall request, generateContent request = inl parts) ->
  match List.find (fun part => match part with Some _ => true | None => false end) parts with
  | Some (Some data) =>
      snd (generateImage aistudio generateContent prompt aspectRatio)
      = inl ("data:image/png;base64," ++ interpolate data)
      /\ editImage generateContent base64Image prompt
         = inl ("data:image/png;base64," ++ interpolate data)
  | _ =>
      snd (generateImage aistudio generateContent prompt aspectRatio)
      = inr "No image generated"
      /\ editImage generateContent base64Image prompt = inr "No edited image returned"
  end.
Proof.
  intros Hall. unfold generateImage, editImage. cbn [snd]. rewrite !Hall.
  clear Hall. induction parts as [|[data|] parts IH]; cbn; auto.
Qed.

Lemma image_is_first_inline_part_witness :
  snd (generateImage None (fun _ => inl [None; Some (Some "AAAA"); Some (Some "BBBB")])
         "a cat" "1:1")
  = inl "data:image/png;base64,AAAA".
Proof.
  exact (proj1 (image_is_first_inline_part None
                  (fun _ => inl [None; Some (Some "AAAA"); Some (Some "BBBB")])
                  [None; Some (Some "AAAA"); Some (Some "BBBB")] "a cat" "1:1" ""
                  (fun _ => eq_refl))).
Defined.

(** X17. The handler of the image panel does nothing at all on an empty
    prompt. Otherwise it ends idle, with either a result and no error or an
    error and no result; a result is always a PNG data URL; and it issues a
    request unless it is asked to edit with no image uploaded, in which case
    it only reports "Please upload an image to edit". *)
Theorem image_panel_outcome (aistudio : option bool)
    (generateContent : ImageRequest -> list ResponsePart + string) (p : ImagePanel) :
  let p' := fst (imageHandleGenerate aistudio generateContent p) in
  let issued := snd (imageHandleGenerate aistudio generateContent p) in
  if String.eqb (prompt p) "" then p' = p /\ issued = None
  else
    isLoading p' = false
    /\ match resultImage p' with
       | Some url => error p' = "" /\ String.prefix "data:image/png;base64," url = true
       | None => True
       end
    /\ match imageMode p, orUndefined (baseImage p) with
       | edit, None =>
           issued = None /\ resultImage p' = None
           /\ error p' = "Please upload an image to edit"
       | edit, Some b => issued = Some (editImageRequest b (prompt p))
       | create, _ => issued = Some (generateImageRequest (prompt p) (aspectRatio p))
       end.
Proof.
  cbv zeta. unfold imageHandleGenerate.
  destruct (String.eqb (prompt p) ""); [auto|].
  assert (Hurl : forall parts failure,
             match firstInlineImage parts failure with
             | inl url => String.prefix "data:image/png;base64," url = true
             | inr _ => True
             end).
  { induction parts as [|[data|] parts IH]; intros failure; cbn [firstInlineImage];
      [exact I | apply prefix_append | apply IH]. }
  destruct (imageMode p).
  - unfold generateImage. cbn [snd].
    destruct (generateContent _) as [parts|e].
    + specialize (Hurl parts "No image generated").
      destruct (firstInlineImage parts _); cbn; repeat split; auto;
        destruct (orUndefined (baseImage p)); reflexivity.
    + cbn; repeat split; auto; destruct (orUndefined (baseImage p)); reflexivity.
  - unfold orUndefined. destruct (baseImage p) as [b|]; [|cbn; repeat split; auto].
    destruct (String.eqb b ""); [cbn; repeat split; auto|].
    unfold editImage. destruct (generateContent _) as [parts|e];
      [|cbn; repeat split; auto].
    specialize (Hurl parts "No edited image returned").
    destruct (firstInlineImage parts _); cbn; repeat split; auto.
Qed.

(** ** Video *)

Lemma poll_from fuel getVideosOperation k : forall fuel' i operation last,
  fuel = (fuel' + k)%nat ->
  done operation = false ->
  (forall j, (j < k)%nat ->
     exists o, getVideosOperation (i + j)%nat = inl o /\ done o = false) ->
  getVideosOperation (i + k)%nat = inl last -> done last = true ->
  poll (S fuel) getVideosOperation i operation = Finished last (S (i + k)).
Proof.
  revert fuel. induction k as [|k IH]; intros fuel fuel' i operation last Hf Hop Hpend Hk Hd.
  - cbn [poll]. rewrite Hop. rewrite Nat.add_0_r in Hk. rewrite Hk.
    destruct fuel; cbn [poll]; rewrite Hd, Nat.add_0_r; reflexivity.
  - cbn [poll]. rewrite Hop.
    destruct (Hpend 0%nat ltac:(lia)) as (o & Ho & Hdo). rewrite Nat.add_0_r in Ho.
    rewrite Ho. destruct fuel as [|fuel]; [lia|].
    rewrite (IH fuel fuel' (S i) o last); try assumption; try lia.
    + f_equal. lia.
    + intros j Hj. destruct (Hpend (S j) ltac:(lia)) as (o' & Ho' & Hdo').
      exists o'. split; [|exact Hdo']. rewrite <- Ho'. f_equal. lia.
    + rewrite <- Hk. f_equal. lia.
Qed.

Lemma poll_pending fuel getVideosOperation : forall i operation,
  done operation = false ->
  (forall j, (j < fuel)%nat ->
     exists o, getVideosOperation (i + j)%nat = inl o /\ done o = false) ->
  poll fuel getVideosOperation i operation = StillPending.
Proof.
  induction fuel as [|fuel IH]; intros i operation Hop Hpend; cbn [poll]; rewrite Hop.
  - reflexivity.
  - destruct (Hpend 0%nat ltac:(lia)) as (o & Ho & Hdo). rewrite Nat.add_0_r in Ho.
    rewrite Ho. apply IH; [exact Hdo|].
    intros j Hj. destruct (Hpend (S j) ltac:(lia)) as (o' & Ho' & Hdo').
    exists o'. split; [|exact Hdo']. rewrite <- Ho'. f_equal. lia.
Qed.

Lemma polling_stops_at_first_done_aux (fuel k : nat)
    (getVideosOperation : nat -> Operation + string) (first last : Operation) :
  done first = false -> pendingFor getVideosOperation k ->
  getVideosOperation k = inl last -> done last = true -> (k < fuel)%nat ->
  poll fuel getVideosOperation 0 first = Finished last (S k).
Proof.
  intros Hf Hp Hk Hd Hlt. destruct fuel as [|fuel]; [lia|].
  apply (poll_from fuel getVideosOperation k (fuel - k) 0 first last);
    try assumption; try lia.
Qed.

(** X18. The polling loop of [generateVeoVideo] stops at the first
    operation that is done and not before: when the first operation and the
    next [k] answers are pending and the answer after them is done, the loop
    has asked [k + 1] times, each time after its five seconds, and goes on
    with that answer. *)
Theorem polling_stops_at_first_done (fuel k : nat)
    (getVideosOperation : nat -> Operation + string) (first last : Operation) :
  done first = false -> pendingFor getVideosOperation k ->
  getVideosOperation k = inl last -> done last = true -> (k < fuel)%nat ->
  poll fuel getVideosOperation 0 first = Finished last (S k).
Proof. apply polling_stops_at_first_done_aux. Qed.

Lemma polling_stops_at_first_done_witness :
  poll 10 (fun i => inl (mkOperation (2 <=? i)%nat (Some "https://v/1?x=1")))
       0 (mkOperation false None)
  = Finished (mkOperation true (Some "https://v/1?x=1")) 3.
Proof.
  apply (polling_stops_at_first_done 10 2
           (fun i => inl (mkOperation (2 <=? i)%nat (Some "https://v/1?x=1")))).
  - reflexivity.
  - intros i Hi. eexists. split; [reflexivity|]. cbn [done].
    apply Nat.leb_gt. exact Hi.
  - reflexivity.
  - reflexivity.
  - lia.
Defined.

(** X19. [generateVeoVideo] has no limit of its own on the polling: as
    long as the operation is not done it asks again, however many rounds
    have gone by, and returns nothing. *)
Theorem polling_never_gives_up (fuel : nat) (aistudio : option bool)
    (generateVideos : VideoRequest -> Operation + string)
    (getVideosOperation : nat -> Operation + string)
    (fetchBlobUrl : string -> string + string) (apiKey : option string)
    (prompt aspectRatio : string) (imageBase64 : option string) (first : Operation) :
  generateVideos (videoRequest prompt aspectRatio imageBase64) = inl first ->
  done first = false -> pendingFor getVideosOperation fuel ->
  snd (generateVeoVideo fuel aistudio generateVideos getVideosOperation fetchBlobUrl
         apiKey prompt aspectRatio imageBase64) = VideoPending.
Proof.
  intros Hg Hf Hp. unfold generateVeoVideo. cbn [snd]. rewrite Hg.
  rewrite poll_pending; [reflexivity | exact Hf | exact Hp].
Qed.

Lemma polling_never_gives_up_witness :
  snd (generateVeoVideo 1000 None (fun _ => inl (mkOperation false None))
         (fun _ => inl (mkOperation false None)) (fun u => inl u) None
         "a wave" "16:9" None) = VideoPending.
Proof.
  apply (polling_never_gives_up 1000 None (fun _ => inl (mkOperation false None))
           (fun _ => inl (mkOperation false None)) (fun u => inl u) None
           "a wave" "16:9" None (mkOperation false None)).
  - reflexivity.
  - reflexivity.
  - intros i _. eexists. split; reflexivity.
Defined.

(** X20. The video panel asks for a video with the reference image
    attached, labelled [image/png], exactly when one is uploaded and not
    empty. When the operation, done after [k] pending answers, holds an
    address, the panel fetches that address with [&key=] and the key
    appended and shows the result with no error; when it holds none, the
    panel shows nothing but the error "Video generation failed". Either way
    it ends idle. *)
Theorem video_panel_outcome (fuel k : nat) (aistudio : option bool)
    (generateVideos : VideoRequest -> Operation + string)
    (getVideosOperation : nat -> Operation + string)
    (fetchBlobUrl : string -> string + string) (apiKey : option string)
    (p : VideoPanel) (first last : Operation) (url : string) :
  vPrompt p <> "" ->
  generateVideos
    (mkVideoRequest "veo-3.1-fast-generate-preview" (vPrompt p) 1 "720p" (vAspectRatio p)
       (match orUndefined (vBaseImage p) with
        | Some b => Some (b, "image/png")
        | None => None
        end)) = inl first ->
  done first = false -> pendingFor getVideosOperation k ->
  getVideosOperation k = inl last -> done last = true -> (k < fuel)%nat ->
  (forall uri, videoUri last = Some uri ->
     fetchBlobUrl (uri ++ "&key=" ++ interpolate apiKey) = inl url) ->
  videoHandleGenerate fuel aistudio generateVideos getVideosOperation fetchBlobUrl apiKey p
  = Some (match orUndefined (videoUri last) with
          | Some _ =>
              mkVideoPanel (vPrompt p) (vAspectRatio p) (vBaseImage p) (Some url) false ""
          | None =>
              mkVideoPanel (vPrompt p) (vAspectRatio p) (vBaseImage p) None false
                           "Video generation failed"
          end).
Proof.
  intros Hprompt Hg Hf Hp Hk Hd Hlt Hfetch.
  unfold videoHandleGenerate, generateVeoVideo. cbn [snd].
  apply String.eqb_neq in Hprompt. rewrite Hprompt.
  assert (Hreq : videoRequest (vPrompt p) (vAspectRatio p) (orUndefined (vBaseImage p))
                 = mkVideoRequest "veo-3.1-fast-generate-preview" (vPrompt p) 1 "720p"
                     (vAspectRatio p)
                     (match orUndefined (vBaseImage p) with
                      | Some b => Some (b, "image/png")
                      | None => None
                      end)).
  { unfold videoRequest, orUndefined. destruct (vBaseImage p) as [b|]; [|reflexivity].
    destruct (String.eqb b "") eqn:E; [reflexivity|]. rewrite E. reflexivity. }
  rewrite Hreq, Hg.
  rewrite (polling_stops_at_first_done_aux fuel k getVideosOperation first last)
    by assumption.
  unfold orUndefined. destruct (videoUri last) as [uri|]; [|reflexivity].
  destruct (String.eqb uri ""); [reflexivity|]. rewrite (Hfetch uri eq_refl). reflexivity.
Qed.

Lemma video_panel_outcome_witness :
  videoHandleGenerate 10 None (fun _ => inl (mkOperation false None))
    (fun i => inl (mkOperation (2 <=? i)%nat (Some "https://v/1?x=1")))
    (fun address => if String.eqb address "https://v/1?x=1&key=K" then inl "blob:1"
                    else inr "not found")
    (Some "K") (mkVideoPanel "a wave" "16:9" (Some "") None false "")
  = Some (mkVideoPanel "a wave" "16:9" (Some "") (Some "blob:1") false "").
Proof.
  apply (video_panel_outcome 10 2 None (fun _ => inl (mkOperation false None))
           (fun i => inl (mkOperation (2 <=? i)%nat (Some "https://v/1?x=1")))
           (fun address => if String.eqb address "https://v/1?x=1&key=K" then inl "blob:1"
                           else inr "not found")
           (Some "K") (mkVideoPanel "a wave" "16:9" (Some "") None false "")
           (mkOperation false None) (mkOperation true (Some "https://v/1?x=1")) "blob:1").
  - discriminate.
  - reflexivity.
  - reflexivity.
  - intros i Hi. eexists. split; [reflexivity|]. cbn [done]. apply Nat.leb_gt. exact Hi.
  - reflexivity.
  - reflexivity.
  - lia.
  - intros uri H. injection H as <-. reflexivity.
Defined.

(** ** Speech *)

(** X21. The speech handler does nothing on an empty text. Otherwise it
    always returns and ends idle: when [generateSpeech] gives a buffer of
    [c] channels and [n] frames, the audio offered for playback is a blob
    of exactly [44 + 2 * c * n] bytes and no alert is raised, the conversion
    to WAV never being what fails; when [generateSpeech] rejects, there is
    no audio and one alert "Generation failed". *)
Theorem speech_outcome (generateSpeech : string -> Wav.AudioBuffer + string)
    (createObjectURL : list Z -> string) (p : SpeechPanel) :
  exists p', handleTTS generateSpeech createObjectURL p = Some p'
    /\ if String.eqb (speechText p) "" then p' = p
       else
         speechLoading p' = false
         /\ match generateSpeech (speechText p) with
            | inl audioBuffer =>
                alerts p' = alerts p
                /\ exists wav,
                     audioUrl p' = Some (createObjectURL wav)
                     /\ length wav
                        = (44 + 2 * Wav.numberOfChannels audioBuffer
                                 * Wav.bufferLength audioBuffer)%nat
            | inr _ =>
                audioUrl p' = None /\ alerts p' = (alerts p ++ ["Generation failed"])%list
            end.
Proof.
  unfold handleTTS. destruct (String.eqb (speechText p) ""); [eauto|].
  destruct (generateSpeech (speechText p)) as [audioBuffer|e].
  - rewrite WavFacts.audioBufferToWav_run. eexists. split; [reflexivity|]. cbn.
    split; [reflexivity|]. split; [reflexivity|]. eexists. split; [reflexivity|].
    apply WavFacts.audioBufferToWav_length.
  - eexists. split; [reflexivity|]. cbn. auto.
Qed.

End ServicesFacts.
